(** * MetaHire v2: experience aggregation, match scoring, response coercion

    A shallow embedding of the post-processing code of the repository:
    - [experience_calculator.calculate_experience] (date-range parsing and
      aggregation of work experience),
    - [match.unified_match_endpoint] with its [MATCH_SCORES] table,
    - the two places where raw model output is turned into JSON
      ([resume_parser.generate_gpt_insights] and [app.parse_natural_query]),
    - the services around them: [match.match_item] and the reading of the
      request body, [resume_parser.upload_resume] with the two functions
      of [text_extractor], [app.generate_elasticsearch_query] and
      [app.process_query].

    Conventions.  A text is the sequence of the bytes of its UTF-8
    encoding; the replies of the model and the bodies of the requests are
    read as ASCII text, employment dates as Unicode text.  A Python float is
    the rational number it stands for: the arithmetic of
    [calculate_experience] is that of binary64, rounded to nearest with ties
    to even, and [round(x, 1)] is round-half-even to one decimal on the
    exact value of the float, as CPython computes it.  The scores of the
    match endpoint are kept as exact rationals: their sums are sums of
    halves, and the rounding of the one division that ends a mean is left
    out.  The numbers of a JSON value are finite. *)

From Stdlib Require Import ZArith QArith Qabs Qround Qcanon String Ascii List Lia Lqa Bool.
From stdpp Require Import base gmap strings list.

Local Open Scope string_scope.
Local Open Scope Z_scope.
Local Open Scope list_scope.
Local Open Scope stdpp_scope.

Set Warnings "-clear-no-such-hyp".

(** ** Text primitives of the Python runtime *)

Module Text.

(** [str.isspace] on one ASCII character, which is also the class [\s] of
    the [re] module: TAB, LF, VT, FF, CR, FS, GS, RS, US and space. *)
Definition is_space (c : ascii) : bool :=
  let n := N_of_ascii c in
  ((9 <=? n) && (n <=? 13) || (28 <=? n) && (n <=? 32))%N.

(** Value of a decimal digit, the class [\d] restricted to ASCII. *)
Definition digit_value (c : ascii) : option Z :=
  let n := Z.of_N (N_of_ascii c) in
  if (48 <=? n) && (n <=? 57) then Some (n - 48) else None.

Definition is_upper (c : ascii) : bool :=
  let n := N_of_ascii c in ((65 <=? n) && (n <=? 90))%N.

Definition lower_char (c : ascii) : ascii :=
  if is_upper c then ascii_of_N (N_of_ascii c + 32) else c.

(** [str.lower], on the ASCII letters.  (It is only compared with ASCII
    words: a character outside ASCII never becomes an ASCII letter of
    these words in lower case, so the comparison fails either way.) *)
Fixpoint lower (s : string) : string :=
  match s with
  | EmptyString => EmptyString
  | String c s' => String (lower_char c) (lower s')
  end.

Fixpoint lstrip (s : string) : string :=
  match s with
  | EmptyString => EmptyString
  | String c s' => if is_space c then lstrip s' else s
  end.

Fixpoint rstrip (s : string) : string :=
  match s with
  | EmptyString => EmptyString
  | String c s' =>
      match rstrip s' with
      | EmptyString => if is_space c then EmptyString else String c EmptyString
      | r => String c r
      end
  end.

(** [str.strip()] *)
Definition strip (s : string) : string := rstrip (lstrip s).

(** [s.startswith(c)] and [s.endswith(c)] for a one-character argument. *)
Definition startswith (c : ascii) (s : string) : bool :=
  match s with
  | String a _ => Ascii.eqb a c
  | EmptyString => false
  end.

Fixpoint endswith (c : ascii) (s : string) : bool :=
  match s with
  | EmptyString => false
  | String a EmptyString => Ascii.eqb a c
  | String _ s' => endswith c s'
  end.

(** [s.replace(a, b)] for one-character [a] and [b]. *)
Fixpoint replace (a b : ascii) (s : string) : string :=
  match s with
  | EmptyString => EmptyString
  | String c s' => String (if Ascii.eqb c a then b else c) (replace a b s')
  end.

(** [s.split(" - ")]: the pieces between the non-overlapping occurrences
    of the separator, found from left to right.  The result is never
    empty. *)
Fixpoint split_dash (s : string) : list string :=
  match s with
  | EmptyString => [EmptyString]
  | String c s' =>
      let keep :=
        match split_dash s' with
        | piece :: pieces => String c piece :: pieces
        | [] => [String c EmptyString]
        end in
      match s' with
      | String c2 (String c3 rest) =>
          if Ascii.eqb c " " && Ascii.eqb c2 "-" && Ascii.eqb c3 " "
          then EmptyString :: split_dash rest
          else keep
      | _ => keep
      end
  end.

(** Case-insensitive match of the lower-case word [p] at the start of [s];
    returns what follows it. *)
Fixpoint iprefix (p s : string) : option string :=
  match p with
  | EmptyString => Some s
  | String a p' =>
      match s with
      | EmptyString => None
      | String b s' => if Ascii.eqb a (lower_char b) then iprefix p' s' else None
      end
  end.

End Text.

(** ** Code points *)

(** A Python [str] is a sequence of code points.  A text is given here by
    the bytes of its UTF-8 encoding, which is the same as the [str] as long
    as only ASCII characters are looked at; [strptime] looks further: its
    classes [\s] and [\d] are those of Unicode. *)
Module Unicode.

(** The payload of a continuation byte at the head of [s]. *)
Definition continuation (s : string) : option (N * string) :=
  match s with
  | String c s' =>
      let n := N_of_ascii c in
      if ((128 <=? n) && (n <? 192))%N then Some ((n - 128)%N, s') else None
  | EmptyString => None
  end.

(** The code point that starts with the byte [c], followed by [s'], and
    the number of bytes of [s'] that belong to it.  A byte that starts no
    well-formed sequence is read as a point of its own, above the range of
    Unicode. *)
Definition first_point (c : ascii) (s' : string) : N * nat :=
  let n := N_of_ascii c in
  let stray := ((1114112 + n)%N, 0%nat) in
  if (n <? 128)%N then (n, 0%nat)
  else if (n <? 194)%N then stray
  else if (n <? 224)%N then
    match continuation s' with
    | Some (x, _) => (((n - 192) * 64 + x)%N, 1%nat)
    | None => stray
    end
  else if (n <? 240)%N then
    match continuation s' with
    | Some (x, s2) =>
        match continuation s2 with
        | Some (y, _) =>
            let cp := ((n - 224) * 4096 + x * 64 + y)%N in
            if (2048 <=? cp)%N then (cp, 2%nat) else stray
        | None => stray
        end
    | None => stray
    end
  else if (n <? 245)%N then
    match continuation s' with
    | Some (x, s2) =>
        match continuation s2 with
        | Some (y, s3) =>
            match continuation s3 with
            | Some (z, _) =>
                let cp := ((n - 240) * 262144 + x * 4096 + y * 64 + z)%N in
                if ((65536 <=? cp) && (cp <? 1114112))%N then (cp, 3%nat) else stray
            | None => stray
            end
        | None => stray
        end
    | None => stray
    end
  else stray.

(** The code points of a text, the first [skip] bytes being the rest of a
    point already read. *)
Fixpoint points_from (skip : nat) (s : string) : list N :=
  match s with
  | EmptyString => []
  | String c s' =>
      match skip with
      | S k => points_from k s'
      | O => let '(cp, width) := first_point c s' in cp :: points_from width s'
      end
  end.

Definition code_points (s : string) : list N := points_from 0 s.

(** UTF-8 encoding of a code point. *)
Definition encode (cp : N) : string :=
  let byte (n : N) := ascii_of_N n in
  let tail (n : N) := byte (128 + n mod 64)%N in
  if (cp <? 128)%N then String (byte cp) EmptyString
  else if (cp <? 2048)%N then
    String (byte (192 + cp / 64)%N) (String (tail cp) EmptyString)
  else if (cp <? 65536)%N then
    String (byte (224 + cp / 4096)%N)
      (String (tail (cp / 64)%N) (String (tail cp) EmptyString))
  else
    String (byte (240 + cp / 262144)%N)
      (String (tail (cp / 4096)%N)
         (String (tail (cp / 64)%N) (String (tail cp) EmptyString))).

(** [str.isspace] on one character, which is the class [\s] of the [re]
    module for a [str] pattern. *)
Definition white_space (cp : N) : bool :=
  ((9 <=? cp) && (cp <=? 13) || (28 <=? cp) && (cp <=? 32)
   || (cp =? 133) || (cp =? 160) || (cp =? 5760)
   || (8192 <=? cp) && (cp <=? 8202)
   || (cp =? 8232) || (cp =? 8233) || (cp =? 8239) || (cp =? 8287)
   || (cp =? 12288))%N.

(** The digits zero of the decimal digits of Unicode (general category
    Nd, version 14.0 of the character database, the one of CPython 3.11):
    each is followed by its digits one to nine. *)
Definition decimal_zeros : list N :=
  [ 48; 1632; 1776; 1984; 2406; 2534; 2662; 2790; 2918; 3046; 3174; 3302;
    3430; 3558; 3664; 3792; 3872; 4160; 4240; 6112; 6160; 6470; 6608; 6784;
    6800; 6992; 7088; 7232; 7248; 42528; 43216; 43264; 43472; 43504; 43600;
    44016; 65296; 66720; 68912; 69734; 69872; 69942; 70096; 70384; 70736;
    70864; 71248; 71360; 71472; 71904; 72016; 72784; 73040; 73120; 92768;
    92864; 93008; 120782; 120792; 120802; 120812; 120822; 123200; 123632;
    125264; 130032 ]%N.

Fixpoint decimal_in (zeros : list N) (cp : N) : option Z :=
  match zeros with
  | [] => None
  | zero :: zeros' =>
      if ((zero <=? cp) && (cp <=? zero + 9))%N then Some (Z.of_N (cp - zero))
      else decimal_in zeros' cp
  end.

(** Value of a decimal digit: the class [\d] of the [re] module for a
    [str] pattern, read as [int] reads it. *)
Definition decimal_value (cp : N) : option Z := decimal_in decimal_zeros cp.

Definition is_decimal (cp : N) : bool :=
  match decimal_value cp with Some _ => true | None => false end.

(** Drops a run of white space. *)
Fixpoint skip_spaces (l : list N) : list N :=
  match l with
  | cp :: l' => if white_space cp then skip_spaces l' else l
  | [] => []
  end.

End Unicode.

(** ** Dates *)

(** A [datetime.datetime]: calendar fields and the microseconds elapsed since
    midnight. *)
Record datetime := mkdt {
  dt_year : Z;
  dt_month : Z;
  dt_day : Z;
  dt_time : Z
}.

Definition dt_ltb (a b : datetime) : bool :=
  (dt_year a <? dt_year b)
  || (dt_year a =? dt_year b) &&
     ((dt_month a <? dt_month b)
      || (dt_month a =? dt_month b) &&
         ((dt_day a <? dt_day b)
          || (dt_day a =? dt_day b) && (dt_time a <? dt_time b))).

Definition valid_datetime (d : datetime) : Prop :=
  1 <= dt_year d <= 9999 /\ 1 <= dt_month d <= 12 /\ 1 <= dt_day d /\ 0 <= dt_time d.

(** Month names of the C locale, as [_strptime.LocaleTime] keeps them
    (lower case), in calendar order. *)
Definition month_names : list string :=
  [ "january"; "february"; "march"; "april"; "may"; "june"; "july";
    "august"; "september"; "october"; "november"; "december" ].

Module Strptime.
Import Text Unicode.

(** Group [(?P<B>january|...|december)] under [re.IGNORECASE]: the first
    name that matches at the start of the text, with its month number.
    No name is a prefix of another, so the order of the alternatives does
    not matter.  The names are ASCII and are compared byte by byte.  (The
    pattern letters i and s also match the code points U+0130, U+0131 and
    U+017F; the name found is then looked up in lower case in the list of
    month names, where it is not, and [strptime] raises the same
    [ValueError] as for a text that does not match.) *)
Fixpoint match_month (names : list string) (number : Z) (s : string)
  : option (Z * string) :=
  match names with
  | [] => None
  | name :: names' =>
      match iprefix name s with
      | Some rest => Some (number, rest)
      | None => match_month names' (number + 1) s
      end
  end.

(** [\s+]: at least one white-space character, then all that follow. *)
Definition spaces1 (l : list N) : option (list N) :=
  match l with
  | cp :: l' => if white_space cp then Some (skip_spaces l') else None
  | [] => None
  end.

(** Group [(?P<Y>\d\d\d\d)] followed by the end of the text (anything
    left over is the [ValueError] "unconverted data remains"), and [int]
    of the group. *)
Definition year4 (l : list N) : option Z :=
  match l with
  | [a; b; c; d] =>
      match decimal_value a, decimal_value b, decimal_value c, decimal_value d with
      | Some a, Some b, Some c, Some d => Some (1000 * a + 100 * b + 10 * c + d)
      | _, _, _, _ => None
      end
  | _ => None
  end.

(** [datetime.strptime(s, "%B %Y")] in the C locale; [None] is
    [ValueError].  The year 0000 matches the pattern but is refused by
    the [datetime] constructor. *)
Definition strptime (s : string) : option datetime :=
  match match_month month_names 1 s with
  | None => None
  | Some (month, rest) =>
      match spaces1 (code_points rest) with
      | None => None
      | Some digits =>
          match year4 digits with
          | None => None
          | Some year => if year <? 1 then None else Some (mkdt year month 1 0)
          end
      end
  end.

End Strptime.

(** ** [dateutil.relativedelta] between two datetimes *)

Module Relativedelta.

Definition is_leap (y : Z) : bool :=
  (y mod 4 =? 0) && (negb (y mod 100 =? 0) || (y mod 400 =? 0)).

(** [calendar.monthrange(y, m)[1]] *)
Definition days_in_month (y m : Z) : Z :=
  if m =? 2 then (if is_leap y then 29 else 28)
  else if (m =? 4) || (m =? 6) || (m =? 9) || (m =? 11) then 30
  else 31.

(** [relativedelta._set_months]: splits a signed number of months into
    years and months of the same sign. *)
Definition set_months (months : Z) : Z * Z :=
  if Z.abs months >? 11 then
    let s := Z.sgn months in
    (((months * s) / 12) * s, ((months * s) mod 12) * s)
  else (0, months).

(** [dt + relativedelta(years, months)]: the month is moved and the day
    is clipped to the length of the target month. *)
Definition radd (dt : datetime) (ym : Z * Z) : datetime :=
  let '(years, months) := ym in
  let year := dt_year dt + years in
  let month := dt_month dt + months in
  let '(year, month) :=
    if month >? 12 then (year + 1, month - 12)
    else if month <? 1 then (year - 1, month + 12)
    else (year, month) in
  mkdt year month (Z.min (days_in_month year month) (dt_day dt)) (dt_time dt).

(** The correction loop of the constructor, [while compare(dt1, dtm)],
    run for at most [fuel] passes. *)
Fixpoint adjust (fuel : nat) (backwards : bool) (dt1 dt2 : datetime) (months : Z) : Z :=
  match fuel with
  | O => months
  | S fuel' =>
      let dtm := radd dt2 (set_months months) in
      if (if backwards then dt_ltb dtm dt1 else dt_ltb dt1 dtm)
      then adjust fuel' backwards dt1 dt2 (months + (if backwards then 1 else -1))
      else months
  end.

(** Whether the loop condition still holds for [months]. *)
Definition overshoots (backwards : bool) (dt1 dt2 : datetime) (months : Z) : bool :=
  let dtm := radd dt2 (set_months months) in
  if backwards then dt_ltb dtm dt1 else dt_ltb dt1 dtm.

(** [relativedelta(dt1, dt2)]: the fields [years] and [months]. *)
Definition relativedelta (dt1 dt2 : datetime) : Z * Z :=
  let months := (dt_year dt1 - dt_year dt2) * 12 + (dt_month dt1 - dt_month dt2) in
  set_months (adjust 2 (dt_ltb dt1 dt2) dt1 dt2 months).

End Relativedelta.

(** ** JSON values and Python dictionaries *)

(** What [json.loads] produces.  Numbers are exact rationals; a dictionary
    keeps its keys in insertion order. *)
#[warnings="-register-all"]
Inductive json :=
| JNull
| JBool (b : bool)
| JNum (q : Q)
| JStr (s : string)
| JList (l : list json)
| JDict (d : list (string * json)).

Module Dict.

(** [d.get(k)] *)
Fixpoint get (k : string) (d : list (string * json)) : option json :=
  match d with
  | [] => None
  | (k', v) :: d' => if String.eqb k' k then Some v else get k d'
  end.

(** [d[k] = v]: an existing key keeps its place, a new key goes last. *)
Fixpoint set (k : string) (v : json) (d : list (string * json)) : list (string * json) :=
  match d with
  | [] => [(k, v)]
  | (k', v') :: d' => if String.eqb k' k then (k', v) :: d' else (k', v') :: set k v d'
  end.

End Dict.

(** Python truthiness of a JSON value, as tested by [if not x]. *)
Definition truthy (v : json) : bool :=
  match v with
  | JNull => false
  | JBool b => b
  | JNum q => negb (Qeq_bool q 0)
  | JStr s => negb (String.eqb s EmptyString)
  | JList l => match l with [] => false | _ => true end
  | JDict d => match d with [] => false | _ => true end
  end.

(** ** Rounding to one decimal *)

(** Nearest integer, ties to the even one. *)
Definition round_half_even (q : Q) : Z :=
  let f := Qfloor q in
  match Qcompare (q - inject_Z f) (1 # 2) with
  | Lt => f
  | Gt => f + 1
  | Eq => if Z.even f then f else f + 1
  end.

(** [round(q, 1)] *)
Definition round1 (q : Q) : Q := (inject_Z (round_half_even (q * 10)) / 10)%Q.

(** ** Floating-point arithmetic *)

(** Python's [float] is the binary64 format of IEEE 754: 53 significant
    bits, the unit in the last place being at least [2^-1074].  An
    operation returns the float nearest to the exact result, the one with
    the even significand at a tie.  Floats are kept as the rationals they
    stand for; overflow is left out (no value here comes near [2^1024]). *)
Module Binary64.

(** [2^e] *)
Definition pow2 (e : Z) : Q :=
  if 0 <=? e then inject_Z (2 ^ e) else (/ inject_Z (2 ^ (- e)))%Q.

(** The largest [k] with [2^k <= |q|], for [q] other than zero. *)
Definition ilog2 (q : Q) : Z :=
  let a := Qabs q in
  if Qle_bool 1 a then Z.log2 (Qfloor a) else - Z.log2_up (Qceiling (/ a)).

(** Exponent of the unit in the last place of the floats around [q]. *)
Definition ulp_exponent (q : Q) : Z := Z.max (ilog2 q - 52) (-1074).

(** The float nearest to [q], ties to even. *)
Definition RN (q : Q) : Q :=
  (inject_Z (round_half_even (q / pow2 (ulp_exponent q))) * pow2 (ulp_exponent q))%Q.

(** [a + b] and [a / b] on floats. *)
Definition fadd (a b : Q) : Q := RN (a + b).
Definition fdiv (a b : Q) : Q := RN (a / b).

End Binary64.

(** ** experience_calculator.py *)

(** The end of an employment range as written: a month, or still running. *)
Inductive range_end :=
| Until (d : datetime)
| Ongoing.

(** Exceptions that [calculate_experience] does not catch. *)
Inductive exn :=
| AttributeError
| TypeError.

Inductive result (A : Type) :=
| Returned (a : A)
| Raised (e : exn).
Arguments Returned {A} a.
Arguments Raised {A} e.

Module Experience.
Import Text Strptime Relativedelta Binary64.

(** Lines 17-19 without the clock: [None] is the [ValueError] of the
    unpacking of [split(" - ")] or of [strptime].  The start is converted
    before the end is looked at. *)
Definition parse_employment_dates (employment_dates : string)
  : option (datetime * range_end) :=
  match split_dash employment_dates with
  | [start_date_str; end_date_str] =>
      match strptime start_date_str with
      | None => None
      | Some start_date =>
          if String.eqb (lower end_date_str) "present"
             || String.eqb (lower end_date_str) "current"
          then Some (start_date, Ongoing)
          else match strptime end_date_str with
               | None => None
               | Some end_date => Some (start_date, Until end_date)
               end
      end
  | _ => None
  end.

(** [years + months / 12] for the years and months of
    [relativedelta(end_date, start_date)], in exact arithmetic. *)
Definition experience_between (start_date end_date : datetime) : Q :=
  let '(years, months) := relativedelta end_date start_date in
  (inject_Z years + inject_Z months / 12)%Q.

(** Lines 22-23: [job_experience.years + (job_experience.months / 12)],
    as Python computes it: the quotient of the two integers is a float,
    to which the integer [years] is added as a float. *)
Definition experience_years (start_date end_date : datetime) : Q :=
  let '(years, months) := relativedelta end_date start_date in
  fadd (inject_Z years) (fdiv (inject_Z months) 12).

(** The loop of [calculate_experience].  [clock n] is what the [n]-th call
    of [datetime.now()] of this run returns; [tick] counts the calls made
    so far.  The running total is a float from the first addition on.  A
    job that is not a dictionary, or whose [employment_dates] is not
    text, raises [AttributeError], which the handler for [ValueError]
    does not catch. *)
Fixpoint experience_loop (clock : nat -> datetime) (tick : nat)
    (work_experience : list json) (total_years : Q)
    (modified_work_experience : list json) : result (Q * list json) :=
  match work_experience with
  | [] => Returned (round1 total_years, modified_work_experience)
  | JDict job :: rest =>
      match default (JStr EmptyString) (Dict.get "employment_dates" job) with
      | JStr employment_dates =>
          match parse_employment_dates employment_dates with
          | None =>
              experience_loop clock tick rest total_years modified_work_experience
          | Some (start_date, range_end) =>
              let '(end_date, tick') :=
                match range_end with
                | Ongoing => (clock tick, S tick)
                | Until d => (d, tick)
                end in
              let experience_years := experience_years start_date end_date in
              experience_loop clock tick' rest
                (fadd total_years experience_years)
                (modified_work_experience ++
                 [JDict (Dict.set "experience_years" (JNum (round1 experience_years)) job)])
          end
      | _ => Raised AttributeError
      end
  | _ :: _ => Raised AttributeError
  end.

Definition calculate_experience (clock : nat -> datetime)
    (work_experience : list json) : result (Q * list json) :=
  experience_loop clock 0 work_experience 0%Q [].

End Experience.

(** ** match.py *)

(** Scoring weights. *)
Definition MATCH_SCORES : list (string * Q) :=
  [ ("Full match", 1%Q); ("Partial match", (1 # 2)%Q); ("No match", 0%Q); ("Error", 0%Q) ].

Module Match.

(** Keys of a Python dictionary that JSON values can provide: text,
    numbers (where [True == 1] and [False == 0]) and [None].  Lists and
    dictionaries are unhashable. *)
Definition key : Type := string + Qc + unit.

Definition key_of (v : json) : option key :=
  match v with
  | JStr s => Some (inl (inl s))
  | JNum q => Some (inl (inr (Q2Qc q)))
  | JBool b => Some (inl (inr (Q2Qc (if b then 1 else 0)%Q)))
  | JNull => Some (inr tt)
  | JList _ | JDict _ => None
  end.

(** One call of [match_item]: it returns what the model's reply parses
    to, or raises an [HTTPException] with some detail (every exception
    inside it is turned into one). *)
Inductive reply :=
| Matched (match_data : json)
| Failed (detail : string).

(** Error-level records written by the endpoint. *)
Inductive log_entry :=
| InvalidSubcategories (subcategories : json)
| InvalidItems (subcategory : string) (items : json)
| ErrorMatchingItem (item : json) (detail : string).

(** Detail of an error response: literal text, or the message of an
    exception wrapped by the outermost handler. *)
Inductive detail :=
| Text (s : string)
| ErrorDuringMatching (e : exn).

(** A step that may raise; the log written so far survives. *)
Inductive outcome (A : Type) :=
| Done (a : A)
| Abort (logged : list log_entry) (status : Z) (d : detail).
Arguments Done {A} a.
Arguments Abort {A} logged status d.

(** Variables of the endpoint that live across the loops. *)
Record scoring := mkscoring {
  matching_results : gmap string (gmap string (gmap key json));
  category_scores : gmap string Q;
  total_score : Q;
  total_items : Z;
  calls : nat;
  logged : list log_entry
}.

(** [MATCH_SCORES.get(match_level, 0)] *)
Fixpoint scores_get (table : list (string * Q)) (level : string) : Q :=
  match table with
  | [] => 0%Q
  | (name, score) :: table' => if String.eqb name level then score else scores_get table' level
  end.

Definition item_score_of (match_level : json) : option Q :=
  match match_level with
  | JStr level => Some (scores_get MATCH_SCORES level)
  | JList _ | JDict _ => None
  | _ => Some 0%Q
  end.

(** [matching_results[category][subcategory][item] = value] *)
Definition store (category subcategory : string) (item : key) (value : json)
    (results : gmap string (gmap string (gmap key json)))
  : gmap string (gmap string (gmap key json)) :=
  <[category := <[subcategory := <[item := value]> ((results !!! category) !!! subcategory)]>
                  (results !!! category)]> results.

Definition error_outcome (detail : string) : json :=
  JDict [ ("match_level", JStr "Error");
          ("reason", JStr ("Error during matching: " +:+ detail));
          ("evidence", JStr EmptyString) ].

(** Lines 119-137.  [oracle n item] is the [n]-th call of [match_item]
    of this request. *)
Fixpoint items_loop (oracle : nat -> json -> reply) (category subcategory : string)
    (items : list json) (st : scoring) (category_score : Q) (category_items : Z)
  : outcome (scoring * Q * Z) :=
  match items with
  | [] => Done (st, category_score, category_items)
  | item :: rest =>
      match oracle (calls st) item with
      | Matched match_data =>
          match key_of item with
          | None => Abort (logged st) 500 (ErrorDuringMatching TypeError)
          | Some k =>
              let results := store category subcategory k match_data (matching_results st) in
              match match_data with
              | JDict d =>
                  let match_level := default (JStr "No match") (Dict.get "match_level" d) in
                  match item_score_of match_level with
                  | None => Abort (logged st) 500 (ErrorDuringMatching TypeError)
                  | Some item_score =>
                      items_loop oracle category subcategory rest
                        (mkscoring results (category_scores st)
                           (total_score st + item_score)%Q (total_items st + 1)
                           (S (calls st)) (logged st))
                        (category_score + item_score)%Q (category_items + 1)
                  end
              | _ => Abort (logged st) 500 (ErrorDuringMatching AttributeError)
              end
          end
      | Failed detail =>
          let logged' := logged st ++ [ErrorMatchingItem item detail] in
          match key_of item with
          | None => Abort logged' 500 (ErrorDuringMatching TypeError)
          | Some k =>
              items_loop oracle category subcategory rest
                (mkscoring
                   (store category subcategory k (error_outcome detail) (matching_results st))
                   (category_scores st) (total_score st) (total_items st)
                   (S (calls st)) logged')
                category_score category_items
          end
      end
  end.

(** Lines 113-137: the subcategories of one category. *)
Fixpoint subcategories_loop (oracle : nat -> json -> reply) (category : string)
    (subcategories : list (string * json)) (st : scoring)
    (category_score : Q) (category_items : Z) : outcome (scoring * Q * Z) :=
  match subcategories with
  | [] => Done (st, category_score, category_items)
  | (subcategory, JList items) :: rest =>
      let results :=
        <[category := <[subcategory := ∅]> (matching_results st !!! category)]>
          (matching_results st) in
      match items_loop oracle category subcategory items
              (mkscoring results (category_scores st) (total_score st) (total_items st)
                 (calls st) (logged st))
              category_score category_items with
      | Done (st', category_score', category_items') =>
          subcategories_loop oracle category rest st' category_score' category_items'
      | Abort l status d => Abort l status d
      end
  | (subcategory, items) :: _ =>
      Abort (logged st ++ [InvalidItems subcategory items]) 500
        (Text ("Invalid items format in subcategory '" +:+ subcategory +:+ "'."))
  end.

(** Lines 104-141: the categories. *)
Fixpoint categories_loop (oracle : nat -> json -> reply)
    (categories : list (string * json)) (st : scoring) : outcome scoring :=
  match categories with
  | [] => Done st
  | (category, JDict subcategories) :: rest =>
      let results := <[category := ∅]> (matching_results st) in
      match subcategories_loop oracle category subcategories
              (mkscoring results (category_scores st) (total_score st) (total_items st)
                 (calls st) (logged st))
              0%Q 0 with
      | Done (st', category_score, category_items) =>
          categories_loop oracle rest
            (if 0 <? category_items
             then mkscoring (matching_results st')
                    (<[category := (category_score / inject_Z category_items)%Q]>
                       (category_scores st'))
                    (total_score st') (total_items st') (calls st') (logged st')
             else st')
      | Abort l status d => Abort l status d
      end
  | (category, subcategories) :: rest =>
      categories_loop oracle rest
        (mkscoring (matching_results st) (category_scores st) (total_score st)
           (total_items st) (calls st) (logged st ++ [InvalidSubcategories subcategories]))
  end.

(** Content of the success response (its [message] is constant). *)
Record content := mkcontent {
  c_matching_results : gmap string (gmap string (gmap key json));
  c_category_scores : gmap string Q;
  c_overall_score : Q
}.

Inductive response :=
| JSONResponse (c : content)
| HTTPException (status : Z) (d : detail).

Definition initial : scoring := mkscoring ∅ ∅ 0%Q 0 0%nat [].

(** [unified_match_endpoint], from the two parts of the request body on:
    the response and the error-level log. *)
Definition unified_match_endpoint (oracle : nat -> json -> reply)
    (job_description_details resume_details : json) : response * list log_entry :=
  if negb (truthy job_description_details) || negb (truthy resume_details)
  then (HTTPException 400 (Text "Job description or resume data is missing."), [])
  else
    match job_description_details with
    | JDict categories =>
        match categories_loop oracle categories initial with
        | Done st =>
            let overall_score :=
              if 0 <? total_items st
              then (total_score st / inject_Z (total_items st))%Q else 0%Q in
            (JSONResponse
               (mkcontent (matching_results st) (category_scores st) overall_score),
             logged st)
        | Abort l status d => (HTTPException status d, l)
        end
    | _ =>
        (HTTPException 500 (Text "Job description details must be a dictionary."), [])
    end.

End Match.

(** ** A strict JSON parser

    [json.loads] belongs to the Python standard library.  The two call
    sites below are written against an arbitrary parser; this one follows
    the JSON grammar and is used to evaluate them on concrete text.  Text
    escaped as [\uXXXX] is stored in UTF-8. *)

Module Json.

Definition dquote : ascii := "034"%char.
Definition backslash : ascii := "092"%char.

(** [s] between double quotes. *)
Definition quoted (s : string) : string := String dquote (s +:+ String dquote EmptyString).

Definition is_ws (c : ascii) : bool :=
  let n := N_of_ascii c in ((n =? 32) || (n =? 9) || (n =? 10) || (n =? 13))%N.

Fixpoint skip_ws (s : string) : string :=
  match s with
  | String c s' => if is_ws c then skip_ws s' else s
  | EmptyString => EmptyString
  end.

(** The word [p] at the start of [s]; returns what follows. *)
Fixpoint word (p s : string) : option string :=
  match p with
  | EmptyString => Some s
  | String a p' =>
      match s with
      | String b s' => if Ascii.eqb a b then word p' s' else None
      | EmptyString => None
      end
  end.

(** A maximal run of decimal digits: its value continuing [acc], the
    number of digits read, and the rest. *)
Fixpoint digits (s : string) (acc : Z) (count : nat) : Z * nat * string :=
  match s with
  | String c s' =>
      match Text.digit_value c with
      | Some d => digits s' (10 * acc + d) (S count)
      | None => (acc, count, s)
      end
  | EmptyString => (acc, count, s)
  end.

Definition pow10 (e : Z) : Q :=
  if 0 <=? e then inject_Z (10 ^ e) else (1 / inject_Z (10 ^ (- e)))%Q.

(** The fraction [(\.\d+)?] after the integer part [int]. *)
Definition fraction (int : Z) (s : string) : Q * string :=
  match s with
  | String "." r =>
      match digits r 0 0 with
      | (_, O, _) => (inject_Z int, s)
      | (f, n, rest) => ((inject_Z int + inject_Z f / inject_Z (10 ^ Z.of_nat n))%Q, rest)
      end
  | _ => (inject_Z int, s)
  end.

(** The exponent [([eE][-+]?\d+)?] after the mantissa. *)
Definition exponent (mantissa : Q) (s : string) : Q * string :=
  match s with
  | String e r =>
      if Ascii.eqb e "e" || Ascii.eqb e "E" then
        let '(minus, digits_at) :=
          match r with
          | String "-" t => (true, t)
          | String "+" t => (false, t)
          | _ => (false, r)
          end in
        match digits digits_at 0 0 with
        | (_, O, _) => (mantissa, s)
        | (x, _, rest) => ((mantissa * pow10 (if minus then - x else x))%Q, rest)
        end
      else (mantissa, s)
  | EmptyString => (mantissa, s)
  end.

(** A number: an optional minus sign, an integer part without leading
    zeros, an optional fraction and an optional exponent. *)
Definition parse_number (s : string) : option (Q * string) :=
  let '(negative, unsigned) :=
    match s with
    | String "-" r => (true, r)
    | _ => (false, s)
    end in
  match unsigned with
  | String c r =>
      match Text.digit_value c with
      | None => None
      | Some d =>
          let '(int, _, after_int) := if d =? 0 then (0, 1%nat, r) else digits r d 1 in
          let '(mantissa, after_fraction) := fraction int after_int in
          let '(value, rest) := exponent mantissa after_fraction in
          Some (if negative then (- value)%Q else value, rest)
      end
  | EmptyString => None
  end.

Definition hex_value (c : ascii) : option Z :=
  let n := Z.of_N (N_of_ascii c) in
  if (48 <=? n) && (n <=? 57) then Some (n - 48)
  else if (65 <=? n) && (n <=? 70) then Some (n - 55)
  else if (97 <=? n) && (n <=? 102) then Some (n - 87)
  else None.

Definition byte (n : Z) : ascii := ascii_of_N (Z.to_N n).

Definition utf8 (cp : Z) (tail : string) : string :=
  if cp <? 128 then String (byte cp) tail
  else if cp <? 2048 then String (byte (192 + cp / 64)) (String (byte (128 + cp mod 64)) tail)
  else String (byte (224 + cp / 4096))
         (String (byte (128 + (cp / 64) mod 64)) (String (byte (128 + cp mod 64)) tail)).

(** The character a one-letter escape stands for. *)
Definition escape (e : ascii) : option ascii :=
  if Ascii.eqb e dquote then Some dquote
  else if Ascii.eqb e backslash then Some backslash
  else if Ascii.eqb e "/" then Some "/"%char
  else if Ascii.eqb e "b" then Some "008"%char
  else if Ascii.eqb e "f" then Some "012"%char
  else if Ascii.eqb e "n" then Some "010"%char
  else if Ascii.eqb e "r" then Some "013"%char
  else if Ascii.eqb e "t" then Some "009"%char
  else None.

(** The body of a string after its opening quote, up to the closing one;
    control characters are refused. *)
Fixpoint parse_string (s : string) : option (string * string) :=
  match s with
  | EmptyString => None
  | String c r =>
      if Ascii.eqb c dquote then Some (EmptyString, r)
      else if Ascii.eqb c backslash then
        match r with
        | String e after =>
            if Ascii.eqb e "u" then
              match after with
              | String h1 (String h2 (String h3 (String h4 after4))) =>
                  match hex_value h1, hex_value h2, hex_value h3, hex_value h4,
                        parse_string after4 with
                  | Some a, Some b, Some c, Some d, Some (body, rest) =>
                      Some (utf8 (4096 * a + 256 * b + 16 * c + d) body, rest)
                  | _, _, _, _, _ => None
                  end
              | _ => None
              end
            else
              match escape e, parse_string after with
              | Some x, Some (body, rest) => Some (String x body, rest)
              | _, _ => None
              end
        | EmptyString => None
        end
      else if (N_of_ascii c <? 32)%N then None
      else
        match parse_string r with
        | Some (body, rest) => Some (String c body, rest)
        | None => None
        end
  end.

Fixpoint parse_value (fuel : nat) (s : string) : option (json * string) :=
  match fuel with
  | O => None
  | S fuel' =>
      match s with
      | EmptyString => None
      | String c r =>
          if Ascii.eqb c dquote then
            match parse_string r with
            | Some (body, rest) => Some (JStr body, rest)
            | None => None
            end
          else if Ascii.eqb c "{" then
            match skip_ws r with
            | String "}" rest => Some (JDict [], rest)
            | members => parse_members fuel' members []
            end
          else if Ascii.eqb c "[" then
            match skip_ws r with
            | String "]" rest => Some (JList [], rest)
            | elements => parse_elements fuel' elements []
            end
          else if Ascii.eqb c "n" then
            match word "ull" r with Some rest => Some (JNull, rest) | None => None end
          else if Ascii.eqb c "t" then
            match word "rue" r with Some rest => Some (JBool true, rest) | None => None end
          else if Ascii.eqb c "f" then
            match word "alse" r with Some rest => Some (JBool false, rest) | None => None end
          else
            match parse_number s with
            | Some (q, rest) => Some (JNum q, rest)
            | None => None
            end
      end
  end
with parse_elements (fuel : nat) (s : string) (elements : list json)
  : option (json * string) :=
  match fuel with
  | O => None
  | S fuel' =>
      match parse_value fuel' s with
      | None => None
      | Some (v, rest) =>
          match skip_ws rest with
          | String "," more => parse_elements fuel' (skip_ws more) (elements ++ [v])
          | String "]" after => Some (JList (elements ++ [v]), after)
          | _ => None
          end
      end
  end
with parse_members (fuel : nat) (s : string) (members : list (string * json))
  : option (json * string) :=
  match fuel with
  | O => None
  | S fuel' =>
      match s with
      | String c r =>
          if Ascii.eqb c dquote then
            match parse_string r with
            | None => None
            | Some (name, rest) =>
                match skip_ws rest with
                | String ":" value_at =>
                    match parse_value fuel' (skip_ws value_at) with
                    | None => None
                    | Some (v, after_value) =>
                        match skip_ws after_value with
                        | String "," more =>
                            parse_members fuel' (skip_ws more) (Dict.set name v members)
                        | String "}" after => Some (JDict (Dict.set name v members), after)
                        | _ => None
                        end
                    end
                | _ => None
                end
            end
          else None
      | EmptyString => None
      end
  end.

(** [json.loads(s)]; [None] is [json.JSONDecodeError]. *)
Definition loads (s : string) : option json :=
  match parse_value (2 * String.length s + 2) (skip_ws s) with
  | Some (v, rest) =>
      match skip_ws rest with
      | EmptyString => Some v
      | _ => None
      end
  | None => None
  end.

End Json.

(** ** From raw model output to JSON *)

Module Coerce.
Import Text.

(** Why a call site gives up; each is an [HTTPException] with status 500
    raised by the enclosing function. *)
Inductive failure :=
| InvalidJSONResponse
| ErrorParsingJSON.

Inductive coerced :=
| Parsed (v : json)
| Failure (f : failure).

Section Sites.
Variable json_loads : string -> option json.

(** resume_parser.py, lines 104-113 of [generate_gpt_insights]. *)
Definition gpt_insights (raw : string) : coerced :=
  let content := strip raw in
  if negb (startswith "{" content) || negb (endswith "}" content)
  then Failure InvalidJSONResponse
  else match json_loads content with
       | Some v => Parsed v
       | None => Failure ErrorParsingJSON
       end.

(** app.py, lines 57-59 of [parse_natural_query]. *)
Definition parsed_query (raw : string) : coerced :=
  let parsed_query_str := strip raw in
  let parsed_query_str := replace "'" Json.dquote parsed_query_str in
  match json_loads parsed_query_str with
  | Some v => Parsed v
  | None => Failure ErrorParsingJSON
  end.

(** The coercer as the specification words it: trim, refuse text that
    does not begin with an opening and end with a closing brace,
    replace single by double quotes, parse strictly. *)
Definition response_coercer (raw : string) : coerced :=
  let text := strip raw in
  if negb (startswith "{" text) || negb (endswith "}" text)
  then Failure InvalidJSONResponse
  else match json_loads (replace "'" Json.dquote text) with
       | Some v => Parsed v
       | None => Failure ErrorParsingJSON
       end.

End Sites.

(** The text begins with an opening and ends with a closing brace. *)
Definition in_braces (text : string) : bool :=
  startswith "{" text && endswith "}" text.

Fixpoint no_single_quote (s : string) : bool :=
  match s with
  | EmptyString => true
  | String c s' => negb (Ascii.eqb c "'") && no_single_quote s'
  end.

(** A reply with single quotes around a value and white space around the
    object: two spaces, an opening brace, "a" in double quotes, a colon,
    b in single quotes, a closing brace, two spaces. *)
Definition single_quoted_reply : string :=
  "  {" +:+ Json.quoted "a" +:+ ": 'b'}  ".

End Coerce.

(** * Vocabulary of the statements *)

(** ** Calendar months between two datetimes *)

Definition month_difference (dt1 dt2 : datetime) : Z :=
  (dt_year dt1 - dt_year dt2) * 12 + (dt_month dt1 - dt_month dt2).

Definition first_instant (d : datetime) : bool :=
  (dt_day d =? 1) && (dt_time d =? 0).

(** The months that [relativedelta dt1 dt2] settles on when [dt2] is the
    first instant of a month, as [strptime] returns it: the difference of
    the calendar months, less one month (in absolute value) when [dt1] lies
    before [dt2] and is not itself the first instant of its month. *)
Definition settled_months (dt1 dt2 : datetime) : Z :=
  if dt_ltb dt1 dt2 && negb (first_instant dt1)
  then month_difference dt1 dt2 + 1
  else month_difference dt1 dt2.

(** ** Employment dates as the specification writes them *)

Module Wellformed.
Import Text.

Definition month_titles : list string :=
  [ "January"; "February"; "March"; "April"; "May"; "June"; "July";
    "August"; "September"; "October"; "November"; "December" ].

(** The English name of month [m], from 1 to 12. *)
Definition month_title (m : Z) : string :=
  default EmptyString (month_titles !! Z.to_nat (m - 1)).

Definition digit_char (d : Z) : ascii := ascii_of_N (Z.to_N (48 + d)).

(** A year written with four digits. *)
Definition year_text (y : Z) : string :=
  String (digit_char (y / 1000))
    (String (digit_char (y / 100 mod 10))
       (String (digit_char (y / 10 mod 10))
          (String (digit_char (y mod 10)) EmptyString))).

Definition month_year (m y : Z) : string :=
  month_title m +:+ " " +:+ year_text y.

(** ["<Month> <Year> - <Month> <Year>"] *)
Definition closed_range (m1 y1 m2 y2 : Z) : string :=
  month_year m1 y1 +:+ " - " +:+ month_year m2 y2.

(** ["<Month> <Year> - <word>"] *)
Definition open_range (m y : Z) (word : string) : string :=
  month_year m y +:+ " - " +:+ word.

(** No hyphen occurs in the text. *)
Fixpoint no_dash (s : string) : bool :=
  match s with
  | EmptyString => true
  | String c s' => negb (Ascii.eqb c "-") && no_dash s'
  end.

(** A full English month name in any letter case, then at least one
    white-space character, then four decimal digits and nothing more. *)
Definition month_year_shape (s : string) : Prop :=
  exists name rest spaces year,
    s = name +:+ rest /\
    In (lower name) month_names /\
    Unicode.code_points rest = spaces ++ year /\
    spaces <> [] /\ forallb Unicode.white_space spaces = true /\
    length year = 4%nat /\ forallb Unicode.is_decimal year = true.

(** "present" or "current" in any letter case. *)
Definition ongoing_word (s : string) : Prop :=
  lower s = "present" \/ lower s = "current".

(** The two accepted forms. *)
Definition range_shape (s : string) : Prop :=
  exists a b,
    s = a +:+ " - " +:+ b /\
    month_year_shape a /\ (ongoing_word b \/ month_year_shape b).

End Wellformed.

(** ** Job records and their durations *)

Module Records.
Import Experience.

(** The text under [employment_dates] of a job record; a missing key reads
    as the empty text.  [None] for what is not a job record: a value that
    is not an object, or whose [employment_dates] is not text. *)
Definition dates_of (job : json) : option string :=
  match job with
  | JDict d =>
      match default (JStr EmptyString) (Dict.get "employment_dates" d) with
      | JStr s => Some s
      | _ => None
      end
  | _ => None
  end.

Definition is_job_record (job : json) : bool :=
  match dates_of job with Some _ => true | None => false end.

Definition parsed_range (job : json) : option (datetime * range_end) :=
  match dates_of job with
  | Some s => parse_employment_dates s
  | None => None
  end.

(** The record is well-formed: its dates parse. *)
Definition parses (job : json) : bool :=
  match parsed_range job with Some _ => true | None => false end.

(** Start and end of the ranges of the records that parse, in input
    order.  An ongoing range ends at the clock reading taken when its
    record is processed. *)
Fixpoint valid_ranges (clock : nat -> datetime) (tick : nat) (jobs : list json)
  : list (datetime * datetime) :=
  match jobs with
  | [] => []
  | job :: rest =>
      match parsed_range job with
      | Some (start_date, Until end_date) =>
          (start_date, end_date) :: valid_ranges clock tick rest
      | Some (start_date, Ongoing) =>
          (start_date, clock tick) :: valid_ranges clock (S tick) rest
      | None => valid_ranges clock tick rest
      end
  end.

(** Durations, in fractional years, of the records that parse, as the
    floats that the code computes, and in exact arithmetic. *)
Definition valid_durations (clock : nat -> datetime) (tick : nat) (jobs : list json)
  : list Q :=
  map (fun range => experience_years (fst range) (snd range)) (valid_ranges clock tick jobs).

Definition exact_durations (clock : nat -> datetime) (tick : nat) (jobs : list json)
  : list Q :=
  map (fun range => experience_between (fst range) (snd range))
    (valid_ranges clock tick jobs).

(** A range that the code computes with: its start is the first instant
    of a month, and both ends are dates of the calendar. *)
Definition proper_range (range : datetime * datetime) : Prop :=
  (1 <= dt_year (fst range) <= 9999 /\ 1 <= dt_month (fst range) <= 12
   /\ dt_day (fst range) = 1 /\ dt_time (fst range) = 0)
  /\ valid_datetime (snd range).

(** Settled months of a range, and their total over the ranges. *)
Definition range_months (range : datetime * datetime) : Z :=
  settled_months (snd range) (fst range).

Definition total_months (ranges : list (datetime * datetime)) : Z :=
  fold_left Z.add (map range_months ranges) 0.

(** The record with its [experience_years] set to the rounded duration. *)
Definition with_experience (job : json) (years : Q) : json :=
  match job with
  | JDict d => JDict (Dict.set "experience_years" (JNum (round1 years)) d)
  | _ => job
  end.

Fixpoint zip_experience (jobs : list json) (years : list Q) : list json :=
  match jobs, years with
  | job :: jobs', y :: years' => with_experience job y :: zip_experience jobs' years'
  | _, _ => []
  end.

(** Sum from left to right, starting from zero. *)
Definition sum_years (years : list Q) : Q := fold_left Qplus years 0%Q.

(** The same sum in floating-point arithmetic, as the running total of
    the loop. *)
Definition float_sum (years : list Q) : Q := fold_left Binary64.fadd years 0%Q.

(** The [experience_years] stored in an output record. *)
Definition stored_experience (record : json) : option Q :=
  match record with
  | JDict d =>
      match Dict.get "experience_years" d with
      | Some (JNum q) => Some q
      | _ => None
      end
  | _ => None
  end.

(** The range of the record, if it parses, does not end before it starts;
    an ongoing range is compared with every reading of the clock. *)
Definition in_order (clock : nat -> datetime) (job : json) : Prop :=
  match parsed_range job with
  | Some (start_date, Until end_date) => dt_ltb end_date start_date = false
  | Some (start_date, Ongoing) => forall n, dt_ltb (clock n) start_date = false
  | None => True
  end.

(** A job record with the given employment dates. *)
Definition job (employment_dates : string) : json :=
  JDict [ ("job_title", JStr "Engineer"); ("employment_dates", JStr employment_dates) ].

(** A clock that always reads noon of 3 November 2026. *)
Definition sample_clock : nat -> datetime :=
  fun _ => mkdt 2026 11 3 43200000000.

(** One entry that does not parse (abbreviated months) and two
    two-month jobs. *)
Definition short_jobs : list json :=
  [ job "Jan 2015 - Dec 2020";
    job "January 2015 - March 2015";
    job "January 2016 - March 2016" ].

Definition two_month_jobs : list json :=
  [ job "January 2015 - March 2015"; job "January 2016 - March 2016" ].

(** A range written with its end before its start. *)
Definition reversed_jobs : list json := [ job "January 2017 - January 2015" ].

(** A job of one month and a job of twenty months. *)
Definition uneven_jobs : list json :=
  [ job "January 2015 - February 2015"; job "January 2016 - September 2017" ].

(** An entry whose dates are null, before an entry in order. *)
Definition null_dates_jobs : list json :=
  [ JDict [ ("job_title", JStr "Engineer"); ("employment_dates", JNull) ];
    job "January 2015 - January 2017" ].

End Records.

(** ** The scores of a request *)

Module Scoring.
Import Match.

(** Score of a level: 1.0 for a full match, 0.5 for a partial match, 0.0
    for no match and for an error, and 0 for any other text. *)
Definition level_score (level : string) : Q :=
  if String.eqb level "Full match" then 1%Q
  else if String.eqb level "Partial match" then (1 # 2)%Q
  else if String.eqb level "No match" then 0%Q
  else if String.eqb level "Error" then 0%Q
  else 0%Q.

(** The level an outcome carries; "No match" when it carries none. *)
Definition level_of (match_data : list (string * json)) : json :=
  default (JStr "No match") (Dict.get "match_level" match_data).

(** Score of an outcome that the matcher returned. *)
Definition outcome_score (match_data : json) : Q :=
  match match_data with
  | JDict d =>
      match level_of d with
      | JStr level => level_score level
      | _ => 0%Q
      end
  | _ => 0%Q
  end.

(** The replies to the calls made for [items], the first of them being
    call number [n] of the request. *)
Fixpoint replies (oracle : nat -> json -> reply) (n : nat) (items : list json)
  : list reply :=
  match items with
  | [] => []
  | item :: rest => oracle n item :: replies oracle (S n) rest
  end.

(** Scores of the items that the code counts: those whose call returned
    an outcome. *)
Fixpoint counted_scores (rs : list reply) : list Q :=
  match rs with
  | [] => []
  | Matched match_data :: rest => outcome_score match_data :: counted_scores rest
  | Failed _ :: rest => counted_scores rest
  end.

(** Sum from left to right, starting from zero. *)
Definition sum (scores : list Q) : Q := fold_left Qplus scores 0%Q.

(** Arithmetic mean. *)
Definition mean (scores : list Q) : Q :=
  (sum scores / inject_Z (Z.of_nat (length scores)))%Q.

(** The items of a subcategory value, and of a whole category. *)
Definition items_of (v : json) : list json :=
  match v with
  | JList items => items
  | _ => []
  end.

Definition category_items (subcategories : list (string * json)) : list json :=
  flat_map (fun entry => items_of (snd entry)) subcategories.

Definition subcategories_of (v : json) : list (string * json) :=
  match v with
  | JDict subcategories => subcategories
  | _ => []
  end.

(** All items of the request, in the order in which they are matched. *)
Definition all_items (categories : list (string * json)) : list json :=
  flat_map (fun entry => category_items (subcategories_of (snd entry))) categories.

(** For every category that is a mapping, in order: its name and the
    scores of its counted items.  [n] calls were made before. *)
Fixpoint scored_categories (oracle : nat -> json -> reply) (n : nat)
    (categories : list (string * json)) : list (string * list Q) :=
  match categories with
  | [] => []
  | (name, JDict subcategories) :: rest =>
      (name, counted_scores (replies oracle n (category_items subcategories)))
      :: scored_categories oracle (n + length (category_items subcategories)) rest
  | _ :: rest => scored_categories oracle n rest
  end.

(** A category has a score, the mean of its item scores, when it has at
    least one counted item; otherwise it has no entry. *)
Definition add_category_score (scores : gmap string Q) (entry : string * list Q)
  : gmap string Q :=
  match snd entry with
  | [] => scores
  | _ => <[fst entry := mean (snd entry)]> scores
  end.

Definition reference_category_scores (per_category : list (string * list Q))
  : gmap string Q :=
  fold_left add_category_score per_category ∅.

(** The overall score: the mean over all counted items, 0 without any. *)
Definition reference_overall_score (per_category : list (string * list Q)) : Q :=
  match concat (map snd per_category) with
  | [] => 0%Q
  | scores => mean scores
  end.

(** What the results tree keeps for a call: the outcome as returned, or
    the error outcome made from the failure. *)
Definition kept (r : reply) : json :=
  match r with
  | Matched match_data => match_data
  | Failed detail => error_outcome detail
  end.

(** *** The scores as the specification words them *)





(** The entries of one subcategory: one per item key, a later item with
    the same key replacing the earlier one. *)
Fixpoint subcategory_results (oracle : nat -> json -> reply) (n : nat)
    (items : list json) (entries : gmap key json) : gmap key json :=
  match items with
  | [] => entries
  | item :: rest =>
      match key_of item with
      | Some k => subcategory_results oracle (S n) rest (<[k := kept (oracle n item)]> entries)
      | None => subcategory_results oracle (S n) rest entries
      end
  end.

Fixpoint category_results (oracle : nat -> json -> reply) (n : nat)
    (subcategories : list (string * json)) (entries : gmap string (gmap key json))
  : gmap string (gmap key json) :=
  match subcategories with
  | [] => entries
  | (name, JList items) :: rest =>
      category_results oracle (n + length items) rest
        (<[name := subcategory_results oracle n items ∅]> entries)
  | _ :: rest => category_results oracle n rest entries
  end.

Fixpoint reference_results (oracle : nat -> json -> reply) (n : nat)
    (categories : list (string * json))
    (entries : gmap string (gmap string (gmap key json)))
  : gmap string (gmap string (gmap key json)) :=
  match categories with
  | [] => entries
  | (name, JDict subcategories) :: rest =>
      reference_results oracle (n + length (category_items subcategories)) rest
        (<[name := category_results oracle n subcategories ∅]> entries)
  | _ :: rest => reference_results oracle n rest entries
  end.

(** The error-level records of a request that completes. *)
Fixpoint items_log (oracle : nat -> json -> reply) (n : nat) (items : list json)
  : list log_entry :=
  match items with
  | [] => []
  | item :: rest =>
      match oracle n item with
      | Matched _ => items_log oracle (S n) rest
      | Failed detail => ErrorMatchingItem item detail :: items_log oracle (S n) rest
      end
  end.

Fixpoint reference_log (oracle : nat -> json -> reply) (n : nat)
    (categories : list (string * json)) : list log_entry :=
  match categories with
  | [] => []
  | (name, JDict subcategories) :: rest =>
      items_log oracle n (category_items subcategories)
      ++ reference_log oracle (n + length (category_items subcategories)) rest
  | (name, v) :: rest => InvalidSubcategories v :: reference_log oracle n rest
  end.

(** *** Requests that complete *)

Definition hashable (item : json) : bool :=
  match key_of item with Some _ => true | None => false end.

(** A returned outcome can be scored: it is a dictionary whose level, if
    any, is hashable. *)
Definition reply_ok (r : reply) : bool :=
  match r with
  | Matched (JDict d) =>
      match item_score_of (level_of d) with Some _ => true | None => false end
  | Matched _ => false
  | Failed _ => true
  end.

Definition items_ok (oracle : nat -> json -> reply) (n : nat) (items : list json) : bool :=
  forallb hashable items && forallb reply_ok (replies oracle n items).

Definition is_list (v : json) : bool :=
  match v with JList _ => true | _ => false end.

Definition is_dict (v : json) : bool :=
  match v with JDict _ => true | _ => false end.

Definition subcategories_ok (oracle : nat -> json -> reply) (n : nat)
    (subcategories : list (string * json)) : bool :=
  forallb (fun entry => is_list (snd entry)) subcategories
  && items_ok oracle n (category_items subcategories).

(** Every subcategory of every category that is a mapping holds a list of
    hashable items, and every outcome that the matcher returns can be
    scored.  Calls may fail. *)
Definition request_ok (oracle : nat -> json -> reply) (n : nat)
    (categories : list (string * json)) : bool :=
  forallb (fun entry => forallb (fun sub => is_list (snd sub)) (subcategories_of (snd entry)))
    categories
  && items_ok oracle n (all_items categories).

(** The state in which the loop over the categories ends when the
    request completes. *)
Definition final_state (oracle : nat -> json -> reply)
    (categories : list (string * json)) (st : scoring) : scoring :=
  let per_category := scored_categories oracle (calls st) categories in
  let scores := concat (map snd per_category) in
  mkscoring
    (reference_results oracle (calls st) categories (matching_results st))
    (fold_left add_category_score per_category (category_scores st))
    (fold_left Qplus scores (total_score st))
    (total_items st + Z.of_nat (length scores))
    (calls st + length (all_items categories))
    (logged st ++ reference_log oracle (calls st) categories).

(** The call returned an outcome. *)
Definition returned (r : reply) : bool :=
  match r with Matched _ => true | Failed _ => false end.

(** The key under which the outcome of a text item is stored: the text
    itself. *)
Definition text_key (text : string) : key := inl (inl text).

(** Keys of a list of items. *)
Fixpoint keys_of (items : list json) : list key :=
  match items with
  | [] => []
  | item :: rest =>
      match key_of item with
      | Some k => k :: keys_of rest
      | None => keys_of rest
      end
  end.

(** [item] stands in the list of subcategory [sub] of category [cat],
    followed there by the items [later]; it is the item of call number
    [n] of the request.  ([cat] and [sub] are the last entries of their
    names, as they are in a dictionary.) *)
Definition occurs_at (categories : list (string * json)) (cat sub : string)
    (item : json) (n : nat) (later : list json) : Prop :=
  exists before subcategories after sbefore items safter ibefore,
    categories = before ++ (cat, JDict subcategories) :: after /\
    (cat ∉ (fst <$> after)) /\
    subcategories = sbefore ++ (sub, JList items) :: safter /\
    (sub ∉ (fst <$> safter)) /\
    items = ibefore ++ item :: later /\
    n = (length (all_items before) + length (category_items sbefore) + length ibefore)%nat.

(** *** Sample requests *)

(** An outcome with the given level. *)
Definition outcome_with (level : string) : json :=
  JDict [ ("match_level", JStr level); ("reason", JStr "as stated");
          ("evidence", JStr "resume") ].

(** Two categories of two items each. *)
Definition sample_requirements : list (string * json) :=
  [ ("Skills", JDict [("Core", JList [JStr "Python"; JStr "SQL"])]);
    ("Education", JDict [("Degree", JList [JStr "BSc"; JStr "MSc"])]) ].

(** The matcher finds a full match for the first three items and no match
    for the fourth. *)
Definition sample_oracle : nat -> json -> reply :=
  fun n _ =>
    match n with
    | 3%nat => Matched (outcome_with "No match")
    | _ => Matched (outcome_with "Full match")
    end.

(** The second call fails; the others find a full match. *)
Definition failing_oracle : nat -> json -> reply :=
  fun n _ =>
    match n with
    | 1%nat => Failed "OpenAI API error."
    | _ => Matched (outcome_with "Full match")
    end.

(** The same requirement twice in one subcategory. *)
Definition repeated_requirements : list (string * json) :=
  [ ("Skills", JDict [("Core", JList [JStr "Python"; JStr "Python"])]) ].

(** A partial match at the first call, a full match afterwards. *)
Definition improving_oracle : nat -> json -> reply :=
  fun n _ =>
    match n with
    | 0%nat => Matched (outcome_with "Partial match")
    | _ => Matched (outcome_with "Full match")
    end.

Definition sample_resume : json := JDict [("name", JStr "A. Candidate")].

Definition no_content : content := mkcontent ∅ ∅ 0%Q.

(** A category whose value is text instead of a mapping, after a category
    in order. *)
Definition requirements_with_note : list (string * json) :=
  [ ("Skills", JDict [("Core", JList [JStr "Python"; JStr "SQL"])]);
    ("Notes", JStr "to be completed") ].

(** A subcategory whose value is text instead of a list. *)
Definition requirements_with_text_items : list (string * json) :=
  [ ("Skills", JDict [("Core", JList [JStr "Python"]); ("Tools", JStr "git")]);
    ("Education", JDict [("Degree", JList [JStr "BSc"])]) ].

(** The content of the response to a request, when it succeeds. *)
Definition content_of (r : response * list log_entry) : content :=
  match r with
  | (JSONResponse c, _) => c
  | _ => no_content
  end.

Definition sample_content : content :=
  Eval vm_compute in
    content_of (unified_match_endpoint sample_oracle (JDict sample_requirements)
                  sample_resume).

Definition failing_content : content :=
  Eval vm_compute in
    content_of (unified_match_endpoint failing_oracle (JDict sample_requirements)
                  sample_resume).

(** The state in which the loop over the categories ends, [initial] if
    the request is aborted. *)
Definition state_of (r : outcome scoring) : scoring :=
  match r with
  | Done st => st
  | Abort _ _ _ => initial
  end.

Definition repeated_state : scoring :=
  Eval vm_compute in
    state_of (categories_loop improving_oracle repeated_requirements initial).

Definition repeated_content : content :=
  Eval vm_compute in
    content_of (unified_match_endpoint improving_oracle (JDict repeated_requirements)
                  sample_resume).

End Scoring.

(** * The services around the three computations *)

(** ** Python operations on JSON values *)

Module Py.

Definition bind {A B : Type} (r : result A) (f : A -> result B) : result B :=
  match r with
  | Returned a => f a
  | Raised e => Raised e
  end.

Declare Scope result_scope.
Delimit Scope result_scope with result.
Notation "x <- r ;; k" := (bind r (fun x => k))
  (at level 100, r at next level, right associativity) : result_scope.

(** The one-character texts of a text, in order. *)
Definition chars (s : string) : list json :=
  map (fun c => JStr (String c EmptyString)) (list_ascii_of_string s).

(** [for x in v]: the elements of a list, the characters of a text, the
    keys of a dictionary; anything else is not iterable. *)
Definition iterate (v : json) : result (list json) :=
  match v with
  | JList l => Returned l
  | JStr s => Returned (chars s)
  | JDict d => Returned (map (fun entry => JStr (fst entry)) d)
  | _ => Raised TypeError
  end.

(** [p in s] for two texts: [p] occurs in [s]. *)
Fixpoint occurs (p s : string) : bool :=
  String.prefix p s
  || match s with
     | String _ s' => occurs p s'
     | EmptyString => false
     end.

(** [k == x] for the text [k] and an element [x] of a list. *)
Definition is_text (k : string) (x : json) : bool :=
  match x with
  | JStr s => String.eqb s k
  | _ => false
  end.

(** [k in v] for a text [k]: a key of a dictionary, an element of a list,
    a part of a text; anything else raises [TypeError]. *)
Definition contains (k : string) (v : json) : result bool :=
  match v with
  | JDict d => Returned (match Dict.get k d with Some _ => true | None => false end)
  | JList l => Returned (existsb (is_text k) l)
  | JStr s => Returned (occurs k s)
  | _ => Raised TypeError
  end.

(** [if k in v: ... v[k] ...]: the value under [k] when the test holds and
    [None] when it does not.  Only a dictionary can be subscripted with
    a text: a list or a text that passes the test raises [TypeError]. *)
Definition present (k : string) (v : json) : result (option json) :=
  match v with
  | JDict d => Returned (Dict.get k d)
  | JList _ | JStr _ =>
      match contains k v with
      | Returned true => Raised TypeError
      | Returned false => Returned None
      | Raised e => Raised e
      end
  | _ => Raised TypeError
  end.

(** [s.endswith(suffix)] *)
Fixpoint has_suffix (suffix s : string) : bool :=
  String.eqb s suffix
  || match s with
     | String _ s' => has_suffix suffix s'
     | EmptyString => false
     end.

End Py.

(** ** Error responses *)

Module Http.

(** The detail of an [HTTPException] is a literal text, or a prefix
    followed by [str(e)] for the exception [e] that was caught; [cause]
    tells which exception that was: one raised by a Python operation, a
    [json.JSONDecodeError], a [ValueError] with its message, an exception
    of a call that leaves the program with its message, or an
    [HTTPException] raised further in. *)
Inductive cause :=
| Exn (e : exn)
| JSONDecodeError
| ValueError (message : string)
| External (message : string)
| Http (status : Z) (d : detail)
with detail :=
| Literal (text : string)
| Wrapped (prefix : string) (c : cause).

(** A function that returns, or raises an [HTTPException]. *)
Inductive answer (A : Type) :=
| Ok (a : A)
| HTTPException (status : Z) (d : detail).
Arguments Ok {A} a.
Arguments HTTPException {A} status d.

(** A call of [openai.ChatCompletion.create] followed by the reading of
    the content of its first choice: the content, an
    [openai.error.OpenAIError], or another exception. *)
Inductive completion :=
| Content (text : string)
| OpenAIError (message : string)
| OtherError (message : string).

Definition status_of {A : Type} (r : answer A) : Z :=
  match r with
  | Ok _ => 200
  | HTTPException status _ => status
  end.

End Http.

(** ** app.py *)

Module Query.
Import Py Http.
Local Open Scope result_scope.

(** The answer of Elasticsearch to the request for the keys, as
    [requests.post], [raise_for_status] and [response.json()] give it. *)
Inductive fetched :=
| Keys (keys : json)
| FetchError (message : string).

Definition fetch_json_structure (es : fetched) : answer json :=
  match es with
  | Keys json_structure => Ok json_structure
  | FetchError message =>
      HTTPException 500 (Wrapped "Error fetching JSON structure: " (External message))
  end.

(** Lines 36-62: the model's reply is trimmed, its single quotes are
    replaced and it is parsed; every exception becomes an
    [HTTPException]. *)
Definition parse_natural_query (json_loads : string -> option json)
    (reply : completion) : answer json :=
  match reply with
  | Content text =>
      match Coerce.parsed_query json_loads text with
      | Coerce.Parsed parsed_json => Ok parsed_json
      | Coerce.Failure _ =>
          HTTPException 500 (Wrapped "Error parsing natural query: " JSONDecodeError)
      end
  | OpenAIError message | OtherError message =>
      HTTPException 500 (Wrapped "Error parsing natural query: " (External message))
  end.

(** [{"match": {field: skill}}] *)
Definition match_clause (field : string) (skill : json) : json :=
  JDict [ ("match", JDict [ (field, skill) ]) ].

(** [{"range": {"total_experience": {"gte": v}}}] *)
Definition range_clause (v : json) : json :=
  JDict [ ("range", JDict [ ("total_experience", JDict [ ("gte", v) ]) ]) ].

(** [{"query": {"bool": {"must": must}}}] *)
Definition elastic (must : list json) : json :=
  JDict [ ("query", JDict [ ("bool", JDict [ ("must", JList must) ]) ]) ].

(** One loop of lines 72-75:
    [for skill in parsed_query["skills"].get(name, []): must.append(...)]. *)
Definition skill_clauses (field name : string) (skills : json) : result (list json) :=
  match skills with
  | JDict d =>
      listed <- iterate (default (JList []) (Dict.get name d)) ;;
      Returned (map (match_clause field) listed)
  | _ => Raised AttributeError
  end.

(** Lines 71-80: the clauses appended to [must], in order. *)
Definition must_clauses (parsed_query : json) : result (list json) :=
  skills <- present "skills" parsed_query ;;
  by_skill <-
    match skills with
    | Some skills =>
        technical <- skill_clauses "skills.technical_skills" "technical_skills" skills ;;
        soft <- skill_clauses "skills.soft_skills" "soft_skills" skills ;;
        Returned (technical ++ soft)
    | None => Returned []
    end ;;
  total_experience <- present "total_experience" parsed_query ;;
  Returned (by_skill ++ match total_experience with
                        | Some v => [range_clause v]
                        | None => []
                        end).

Definition generate_elasticsearch_query (parsed_query : json) : answer json :=
  match must_clauses parsed_query with
  | Returned must => Ok (elastic must)
  | Raised e =>
      HTTPException 500 (Wrapped "Error generating Elasticsearch query: " (Exn e))
  end.

(** [n] written with [width] decimal digits. *)
Fixpoint decimal (width : nat) (n : Z) : string :=
  match width with
  | O => EmptyString
  | S w => decimal w (n / 10) +:+ String (Wellformed.digit_char (n mod 10)) EmptyString
  end.

(** [d.isoformat()] for a datetime [d] in UTC: the microseconds are left
    out when they are zero. *)
Definition isoformat (d : datetime) : string :=
  let seconds := dt_time d / 1000000 in
  let microsecond := dt_time d mod 1000000 in
  decimal 4 (dt_year d) +:+ "-" +:+ decimal 2 (dt_month d) +:+ "-"
  +:+ decimal 2 (dt_day d) +:+ "T" +:+ decimal 2 (seconds / 3600) +:+ ":"
  +:+ decimal 2 (seconds / 60 mod 60) +:+ ":" +:+ decimal 2 (seconds mod 60)
  +:+ (if microsecond =? 0 then EmptyString else "." +:+ decimal 6 microsecond)
  +:+ "+00:00".

(** The dictionary that [process_query] returns. *)
Record processed := mkprocessed {
  p_parsed_query : json;
  p_elastic_query : json;
  p_query_sent : string
}.

(** [process_query]: [clock 0] is the reading of [datetime.now] in UTC,
    [es] the answer of Elasticsearch, and [api] the model's reply to the
    prompt made from the structure of the keys and the query. *)
Definition process_query (json_loads : string -> option json)
    (clock : nat -> datetime) (es : fetched)
    (api : json -> string -> completion) (query : string) : answer processed :=
  let sent := clock 0%nat in
  match fetch_json_structure es with
  | HTTPException status d => HTTPException status d
  | Ok json_structure =>
      match parse_natural_query json_loads (api json_structure query) with
      | HTTPException status d => HTTPException status d
      | Ok parsed =>
          match generate_elasticsearch_query parsed with
          | HTTPException status d => HTTPException status d
          | Ok generated => Ok (mkprocessed parsed generated (isoformat sent))
          end
      end
  end.

(** The clause for the experience that a parsed query asks for, if it
    asks for one. *)
Definition experience_clauses (parsed_query : list (string * json)) : list json :=
  match Dict.get "total_experience" parsed_query with
  | Some v => [range_clause v]
  | None => []
  end.

(** A parsed query with two technical skills, one soft skill and five
    years of experience. *)
Definition sample_skills : list (string * json) :=
  [ ("technical_skills", JList [JStr "Python"; JStr "SQL"]);
    ("soft_skills", JList [JStr "teamwork"]) ].

Definition sample_query : list (string * json) :=
  [ ("skills", JDict sample_skills); ("total_experience", JNum 5) ].

(** The same skills as the model may write them: a list in place of the
    object, and one text in place of the list. *)
Definition skills_as_list : list (string * json) :=
  [ ("skills", JList [JStr "Python"; JStr "SQL"]) ].


(** A reply in single quotes. *)
Definition single_quoted_query : string :=
  "{'skills': {'technical_skills': ['Python']}, 'total_experience': 5}".

Definition sample_processed : processed :=
  Eval vm_compute in
    match process_query Json.loads Records.sample_clock (Keys (JDict []))
            (fun _ _ => Content single_quoted_query) "Python, five years" with
    | Ok p => p
    | HTTPException _ _ => mkprocessed JNull JNull EmptyString
    end.

End Query.

(** ** text_extractor.py and resume_parser.py *)

Module Resume.
Import Py Http Experience.

(** What a library makes of an uploaded file: the parts it reads, or the
    exception it raises. *)
Inductive opened (A : Type) :=
| Opened (a : A)
| Unreadable (message : string).
Arguments Opened {A} a.
Arguments Unreadable {A} message.

Inductive attempt (A : Type) :=
| Got (a : A)
| Threw (c : cause).
Arguments Got {A} a.
Arguments Threw {A} c.

(** [text += page.extract_text()] for every page; a page for which
    [extract_text] gives [None] raises [TypeError]. *)
Fixpoint pages_text (pages : list (option string)) (text : string) : result string :=
  match pages with
  | [] => Returned text
  | Some page_text :: rest => pages_text rest (text +:+ page_text)
  | None :: _ => Raised TypeError
  end.

(** The texts of the pages that have one, joined without a separator. *)
Fixpoint joined (pages : list (option string)) : string :=
  match pages with
  | [] => EmptyString
  | Some page_text :: rest => page_text +:+ joined rest
  | None :: rest => joined rest
  end.

Definition has_text (page : option string) : bool :=
  match page with Some _ => true | None => false end.

Definition extract_text_from_pdf (file : opened (list (option string)))
  : attempt string :=
  match file with
  | Opened pages =>
      match pages_text pages EmptyString with
      | Returned text => Got text
      | Raised e => Threw (Exn e)
      end
  | Unreadable message => Threw (External message)
  end.

Definition newline : string := String "010"%char EmptyString.

(** The paragraphs, each followed by a line feed. *)
Fixpoint lines (paragraphs : list string) : string :=
  match paragraphs with
  | [] => EmptyString
  | paragraph :: rest => paragraph +:+ newline +:+ lines rest
  end.

Definition extract_text_from_docx (file : opened (list string)) : attempt string :=
  match file with
  | Opened paragraphs =>
      Got (fold_left (fun text paragraph => text +:+ paragraph +:+ newline)
             paragraphs EmptyString)
  | Unreadable message => Threw (External message)
  end.

(** [generate_gpt_insights]: [api] gives the model's reply to the prompt
    made from the text of the resume.  An [HTTPException] raised inside
    the [try] block is caught by the last handler, as every exception
    other than [json.JSONDecodeError] is. *)
Definition generate_gpt_insights (json_loads : string -> option json)
    (clock : nat -> datetime) (api : string -> completion) (resume_text : string)
  : answer (list (string * json)) :=
  match api resume_text with
  | Content text =>
      match Coerce.gpt_insights json_loads text with
      | Coerce.Failure Coerce.InvalidJSONResponse =>
          HTTPException 500
            (Wrapped "An error occurred: "
               (Http 500 (Literal "Invalid JSON response from OpenAI.")))
      | Coerce.Failure Coerce.ErrorParsingJSON =>
          HTTPException 500 (Literal "Error parsing JSON response from OpenAI.")
      | Coerce.Parsed (JDict gpt_insights) =>
          let work_experience :=
            default (JList []) (Dict.get "work_experience" gpt_insights) in
          match bind (iterate work_experience) (calculate_experience clock) with
          | Returned (total_years, modified_work_experience) =>
              Ok (Dict.set "work_experience" (JList modified_work_experience)
                    (Dict.set "total_experience" (JNum total_years) gpt_insights))
          | Raised e => HTTPException 500 (Wrapped "An error occurred: " (Exn e))
          end
      | Coerce.Parsed _ =>
          HTTPException 500 (Wrapped "An error occurred: " (Exn AttributeError))
      end
  | OpenAIError message | OtherError message =>
      HTTPException 500 (Wrapped "An error occurred: " (External message))
  end.

(** An uploaded file: its name, and what [pdfplumber.open] and
    [docx.Document] make of its content. *)
Record upload := mkupload {
  filename : string;
  as_pdf : opened (list (option string));
  as_docx : opened (list string)
}.

(** [upload_resume]; the answer carries the [gpt_response] of the
    content.  Its one handler catches every exception, the
    [HTTPException]s raised in the block included. *)
Definition upload_resume (json_loads : string -> option json)
    (clock : nat -> datetime) (api : string -> completion) (file : upload)
  : answer (list (string * json)) :=
  let extracted :=
    if has_suffix ".pdf" (filename file) then extract_text_from_pdf (as_pdf file)
    else if has_suffix ".docx" (filename file) then extract_text_from_docx (as_docx file)
    else Threw (Http 400
                  (Literal "Unsupported file format. Please upload a PDF or DOCX file.")) in
  match extracted with
  | Got resume_text =>
      match generate_gpt_insights json_loads clock api resume_text with
      | Ok gpt_insights => Ok gpt_insights
      | HTTPException status d =>
          HTTPException 500 (Wrapped "An error occurred: " (Http status d))
      end
  | Threw c => HTTPException 500 (Wrapped "An error occurred: " c)
  end.

(** The content of the success response of [upload_resume]. *)
Definition upload_content (gpt_insights : list (string * json)) : json :=
  JDict [ ("message", JStr "Resume parsed successfully.");
          ("gpt_response", JDict gpt_insights) ].

(** A reply of the model: an object that reports a total of its own and
    one job of two years. *)
Definition sample_reply : string :=
  "{" +:+ Json.quoted "name" +:+ ": " +:+ Json.quoted "A. Candidate" +:+ ", "
  +:+ Json.quoted "total_experience" +:+ ": " +:+ Json.quoted "ten years" +:+ ", "
  +:+ Json.quoted "work_experience" +:+ ": [{" +:+ Json.quoted "employment_dates"
  +:+ ": " +:+ Json.quoted "January 2015 - January 2017" +:+ "}]}".

Definition sample_api : string -> completion := fun _ => Content sample_reply.

Definition insights_of (r : answer (list (string * json))) : list (string * json) :=
  match r with
  | Ok gpt_insights => gpt_insights
  | HTTPException _ _ => []
  end.

Definition sample_insights : list (string * json) :=
  Eval vm_compute in
    insights_of (generate_gpt_insights Json.loads Records.sample_clock sample_api
                   "Resume of A. Candidate").

(** A file named as a spreadsheet. *)
Definition spreadsheet : upload :=
  mkupload "resume.xlsx" (Unreadable "not a PDF") (Unreadable "not a DOCX").

(** A document of two paragraphs. *)
Definition letter : upload :=
  mkupload "resume.docx" (Unreadable "not a PDF") (Opened ["A. Candidate"; "Engineer"]).

(** A PDF of two pages, the second being a scan without text. *)
Definition scanned : upload :=
  mkupload "resume.pdf" (Opened [Some "A. Candidate"; None]) (Unreadable "not a DOCX").

End Resume.

(** ** match.py, around the loops *)

Module Served.
Import Http Match.

(** [match_item], lines 46-72: what it returns for the model's reply, or
    the detail of the [HTTPException] it raises.  An empty reply raises a
    [ValueError], which the last handler catches. *)
Definition match_item (json_loads : string -> option json) (reply : completion)
  : Match.reply :=
  match reply with
  | Content text =>
      let output := Text.strip text in
      if String.eqb output EmptyString
      then Failed ("An error occurred: " +:+ "Empty response from OpenAI.")
      else match json_loads output with
           | Some match_data => Matched match_data
           | None => Failed "Error parsing JSON response from OpenAI."
           end
  | OpenAIError _ => Failed "OpenAI API error."
  | OtherError message => Failed ("An error occurred: " +:+ message)
  end.

(** The calls of [match_item] of one request, [api n item] being the
    model's reply at call number [n]. *)
Definition matcher (json_loads : string -> option json)
    (api : nat -> json -> completion) : nat -> json -> Match.reply :=
  fun n item => match_item json_loads (api n item).

(** [body.get(outer, {}).get(inner, {})], lines 85 and 86. *)
Definition part (outer inner : string) (body : json) : result json :=
  match body with
  | JDict b =>
      match default (JDict []) (Dict.get outer b) with
      | JDict o => Returned (default (JDict []) (Dict.get inner o))
      | _ => Raised AttributeError
      end
  | _ => Raised AttributeError
  end.

(** [unified_match_endpoint] from the parsed body of the request on; an
    exception of lines 85 and 86 reaches the last handler. *)
Definition match_request (oracle : nat -> json -> Match.reply) (body : json)
  : Match.response * list log_entry :=
  match part "job_description" "parsed_data" body with
  | Raised e => (Match.HTTPException 500 (ErrorDuringMatching e), [])
  | Returned job_description_details =>
      match part "resume" "response" body with
      | Raised e => (Match.HTTPException 500 (ErrorDuringMatching e), [])
      | Returned resume_details =>
          unified_match_endpoint oracle job_description_details resume_details
      end
  end.

(** The HTTP status of a response. *)
Definition status (r : Match.response) : Z :=
  match r with
  | JSONResponse _ => 200
  | Match.HTTPException s _ => s
  end.

(** A reply of the model that is an object, and replies of which the
    second is a text in quotes, which is JSON but not an object. *)
Definition full_match_reply : string :=
  "{" +:+ Json.quoted "match_level" +:+ ": " +:+ Json.quoted "Full match" +:+ "}".

Definition bare_text_api : nat -> json -> completion :=
  fun n _ =>
    match n with
    | 1%nat => Content (Json.quoted "Full match")
    | _ => Content full_match_reply
    end.

(** An API that fails at the second call, replies with blanks at the
    third and with plain words at the fourth. *)
Definition flaky_api : nat -> json -> completion :=
  fun n _ =>
    match n with
    | 1%nat => OpenAIError "rate limit"
    | 2%nat => Content "   "
    | 3%nat => Content "I would say it is a full match."
    | _ => Content full_match_reply
    end.

(** Bodies of requests: one in order, one without a resume, one whose
    resume is null. *)
Definition sample_body : json :=
  JDict [ ("job_description", JDict [ ("parsed_data", JDict Scoring.sample_requirements) ]);
          ("resume", JDict [ ("response", Scoring.sample_resume) ]) ].

(** A body that carries the content of an [upload_resume] response as
    its resume. *)
Definition body_with_upload : list (string * json) :=
  [ ("job_description", JDict [ ("parsed_data", JDict Scoring.sample_requirements) ]);
    ("resume", Resume.upload_content Resume.sample_insights) ].

Definition body_without_resume : list (string * json) :=
  [ ("job_description", JDict [ ("parsed_data", JDict Scoring.sample_requirements) ]) ].

Definition body_with_null_resume : list (string * json) :=
  [ ("job_description", JDict [ ("parsed_data", JDict Scoring.sample_requirements) ]);
    ("resume", JNull) ].

End Served.

(** Case analysis on every match of a hypothesis. *)
Ltac split_match H :=
  repeat match type of H with
         | context [match ?x with _ => _ end] => destruct x eqn:?; try discriminate H
         end.

(** * Properties *)

(** ** Calendar arithmetic *)

Section RelativedeltaFacts.
Import Relativedelta.

Lemma set_months_quot_rem (months : Z) :
  set_months months = (Z.quot months 12, Z.rem months 12).
Proof.
  unfold set_months.
  destruct (Z.gtb_spec (Z.abs months) 11) as [Hbig | Hsmall].
  - destruct (Z.lt_trichotomy months 0) as [Hneg | [Hzero | Hpos]].
    + rewrite (Z.sgn_neg months Hneg).
      replace (months * -1) with (- months) by lia.
      f_equal.
      * rewrite <- (Z.opp_involutive months) at 2.
        rewrite Z.quot_opp_l by lia.
        rewrite Z.quot_div_nonneg by lia. lia.
      * rewrite <- (Z.opp_involutive months) at 2.
        rewrite Z.rem_opp_l by lia.
        rewrite Z.rem_mod_nonneg by lia. lia.
    + lia.
    + rewrite (Z.sgn_pos months Hpos).
      rewrite !Z.mul_1_r.
      rewrite Z.quot_div_nonneg, Z.rem_mod_nonneg by lia. reflexivity.
  - destruct (Z.le_gt_cases 0 months) as [Hpos | Hneg].
    + rewrite Z.quot_small, Z.rem_small by lia. reflexivity.
    + rewrite <- (Z.opp_involutive months) at 2 3.
      rewrite Z.quot_opp_l, Z.rem_opp_l by lia.
      rewrite Z.quot_small, Z.rem_small by lia. f_equal; lia.
Qed.

Lemma set_months_sum (months : Z) :
  12 * fst (set_months months) + snd (set_months months) = months.
Proof.
  rewrite set_months_quot_rem. simpl.
  pose proof (Z.quot_rem' months 12). lia.
Qed.

Lemma set_months_bounds (months : Z) :
  -11 <= snd (set_months months) <= 11 /\
  (0 <= months -> 0 <= fst (set_months months) /\ 0 <= snd (set_months months)) /\
  (months <= 0 -> fst (set_months months) <= 0 /\ snd (set_months months) <= 0).
Proof.
  rewrite set_months_quot_rem. simpl.
  Z.to_euclidean_division_equations. lia.
Qed.

Lemma days_in_month_pos (y m : Z) : 28 <= days_in_month y m.
Proof.
  unfold days_in_month.
  destruct (m =? 2); [destruct (is_leap y); lia |].
  destruct ((m =? 4) || (m =? 6) || (m =? 9) || (m =? 11)); lia.
Qed.

(** Moving the first day of a month by whole months lands on the first
    day of the month that many months away. *)
Lemma radd_first_day (dt : datetime) (months : Z) :
  1 <= dt_month dt <= 12 -> dt_day dt = 1 ->
  exists y m,
    radd dt (set_months months) = mkdt y m 1 (dt_time dt) /\
    1 <= m <= 12 /\
    12 * y + m = 12 * dt_year dt + dt_month dt + months.
Proof.
  intros Hm Hd.
  pose proof (set_months_sum months) as Hsum.
  pose proof (set_months_bounds months) as [Hb _].
  destruct (set_months months) as [ys ms]. simpl in *.
  unfold radd. rewrite Hd.
  destruct (Z.gtb_spec (dt_month dt + ms) 12).
  - eexists _, _. split; [f_equal | split; [|]]; try reflexivity.
    + pose proof (days_in_month_pos (dt_year dt + ys + 1) (dt_month dt + ms - 12)); lia.
    + lia.
    + lia.
  - destruct (Z.ltb_spec (dt_month dt + ms) 1).
    + eexists _, _. split; [f_equal | split; [|]]; try reflexivity.
      * pose proof (days_in_month_pos (dt_year dt + ys - 1) (dt_month dt + ms + 12)); lia.
      * lia.
      * lia.
    + eexists _, _. split; [f_equal | split; [|]]; try reflexivity.
      * pose proof (days_in_month_pos (dt_year dt + ys) (dt_month dt + ms)); lia.
      * lia.
      * lia.
Qed.

Lemma dt_ltb_fields (a b : datetime) :
  dt_ltb a b = true <->
  dt_year a < dt_year b \/
  dt_year a = dt_year b /\
  (dt_month a < dt_month b \/
   dt_month a = dt_month b /\
   (dt_day a < dt_day b \/ dt_day a = dt_day b /\ dt_time a < dt_time b)).
Proof.
  unfold dt_ltb.
  rewrite !orb_true_iff, !andb_true_iff, !orb_true_iff, !andb_true_iff,
    !orb_true_iff, !andb_true_iff.
  rewrite !Z.ltb_lt, !Z.eqb_eq. tauto.
Qed.

Lemma dt_ltb_false_fields (a b : datetime) :
  dt_ltb a b = false <-> ~ (dt_ltb a b = true).
Proof. destruct (dt_ltb a b); split; congruence. Qed.

Lemma adjust_from_first_day (dt1 dt2 : datetime) :
  1 <= dt_month dt1 <= 12 -> 1 <= dt_day dt1 -> 0 <= dt_time dt1 ->
  1 <= dt_month dt2 <= 12 -> dt_day dt2 = 1 -> dt_time dt2 = 0 ->
  adjust 2 (dt_ltb dt1 dt2) dt1 dt2 (month_difference dt1 dt2) = settled_months dt1 dt2
  /\ overshoots (dt_ltb dt1 dt2) dt1 dt2 (settled_months dt1 dt2) = false.
Proof.
  intros Hm1 Hd1 Ht1 Hm2 Hd2 Ht2.
  unfold settled_months, overshoots, adjust, month_difference, first_instant.
  destruct (radd_first_day dt2 ((dt_year dt1 - dt_year dt2) * 12 + (dt_month dt1 - dt_month dt2)) Hm2 Hd2)
    as (y0 & m0 & E0 & Hm0 & Hs0).
  destruct (radd_first_day dt2 ((dt_year dt1 - dt_year dt2) * 12 + (dt_month dt1 - dt_month dt2) + 1) Hm2 Hd2)
    as (y1 & m1 & E1 & Hm1' & Hs1).
  rewrite Ht2 in E0, E1.
  assert (y0 = dt_year dt1 /\ m0 = dt_month dt1) as [-> ->] by lia.
  destruct (dt_ltb dt1 dt2) eqn:Hback; simpl.
  - rewrite E0.
    destruct (dt_ltb (mkdt (dt_year dt1) (dt_month dt1) 1 0) dt1) eqn:Hover.
    + assert (Hni : (dt_day dt1 =? 1) && (dt_time dt1 =? 0) = false).
      { apply dt_ltb_fields in Hover. simpl in Hover.
        apply andb_false_iff. rewrite Z.eqb_neq, Z.eqb_neq. lia. }
      rewrite Hni. simpl. rewrite E1.
      assert (Hno : dt_ltb (mkdt y1 m1 1 0) dt1 = false).
      { apply dt_ltb_false_fields. rewrite dt_ltb_fields. simpl. lia. }
      rewrite Hno. split; reflexivity.
    + assert (Hi : (dt_day dt1 =? 1) && (dt_time dt1 =? 0) = true).
      { apply dt_ltb_false_fields in Hover. rewrite dt_ltb_fields in Hover. simpl in Hover.
        apply andb_true_iff. rewrite !Z.eqb_eq. lia. }
      rewrite Hi. simpl. rewrite E0, Hover. split; reflexivity.
  - rewrite E0.
    assert (Hno : dt_ltb dt1 (mkdt (dt_year dt1) (dt_month dt1) 1 0) = false).
    { apply dt_ltb_false_fields. rewrite dt_ltb_fields. simpl. lia. }
    rewrite Hno. split; reflexivity.
Qed.

Lemma relativedelta_from_first_day (dt1 dt2 : datetime) :
  1 <= dt_month dt1 <= 12 -> 1 <= dt_day dt1 -> 0 <= dt_time dt1 ->
  1 <= dt_month dt2 <= 12 -> dt_day dt2 = 1 -> dt_time dt2 = 0 ->
  relativedelta dt1 dt2 = set_months (settled_months dt1 dt2).
Proof.
  intros. unfold relativedelta.
  fold (month_difference dt1 dt2).
  destruct (adjust_from_first_day dt1 dt2) as [-> _]; auto.
Qed.

End RelativedeltaFacts.

(** ** Text *)

#[local] Arguments String.append !s1 s2 : simpl nomatch.

Section TextFacts.
Import Text Strptime Wellformed.

Lemma lower_app (a b : string) : lower (a +:+ b) = lower a +:+ lower b.
Proof. induction a as [| c a IH]; simpl; [reflexivity | now rewrite IH]. Qed.

Lemma string_app_assoc (a b c : string) : (a +:+ b) +:+ c = a +:+ (b +:+ c).
Proof. induction a as [| x a IH]; simpl; [reflexivity | now rewrite IH]. Qed.

Lemma string_app_nil_r (a : string) : a +:+ EmptyString = a.
Proof. induction a as [| x a IH]; simpl; [reflexivity | now rewrite IH]. Qed.

(** *** Case-insensitive prefixes *)

Lemma iprefix_shape (p s rest : string) :
  iprefix p s = Some rest ->
  exists name, s = name +:+ rest /\ lower name = p.
Proof.
  revert s. induction p as [| a p IH]; intros s H; simpl in H.
  - exists EmptyString. inversion H. split; reflexivity.
  - destruct s as [| b s]; [discriminate |].
    destruct (Ascii.eqb_spec a (lower_char b)) as [-> | _]; [| discriminate].
    destruct (IH _ H) as (name & -> & <-).
    exists (String b name). split; reflexivity.
Qed.

Lemma iprefix_app (name rest : string) :
  iprefix (lower name) (name +:+ rest) = Some rest.
Proof.
  induction name as [| c name IH]; simpl; [reflexivity |].
  rewrite Ascii.eqb_refl. exact IH.
Qed.

Lemma match_month_shape (names : list string) (number : Z) (s : string) (m : Z) (rest : string) :
  match_month names number s = Some (m, rest) ->
  number <= m < number + Z.of_nat (length names) /\
  exists name, s = name +:+ rest /\ In (lower name) names.
Proof.
  revert number. induction names as [| n names IH]; intros number H; simpl in H.
  - discriminate.
  - destruct (iprefix n s) as [r |] eqn:E.
    + inversion H; subst. split.
      * simpl length. lia.
      * destruct (iprefix_shape _ _ _ E) as (name & -> & <-).
        exists name. split; [reflexivity | now left].
    + destruct (IH _ H) as (Hr & name & -> & Hin). split.
      * simpl length. lia.
      * exists name. split; [reflexivity | now right].
Qed.

(** *** White space and digits *)

Lemma skip_spaces_shape (l : list N) :
  exists spaces,
    l = spaces ++ Unicode.skip_spaces l /\ forallb Unicode.white_space spaces = true.
Proof.
  induction l as [| cp l (spaces & E & Hs)]; simpl.
  - exists []. split; reflexivity.
  - destruct (Unicode.white_space cp) eqn:Hc.
    + exists (cp :: spaces). simpl. rewrite Hc, Hs. split; [congruence | reflexivity].
    + exists []. split; reflexivity.
Qed.

Lemma spaces1_shape (l rest : list N) :
  spaces1 l = Some rest ->
  exists spaces,
    l = spaces ++ rest /\ spaces <> [] /\ forallb Unicode.white_space spaces = true.
Proof.
  destruct l as [| cp l]; simpl; [discriminate |].
  destruct (Unicode.white_space cp) eqn:Hc; [| discriminate].
  intros H. inversion H; subst.
  destruct (skip_spaces_shape l) as (spaces & E & Hs).
  exists (cp :: spaces). simpl. rewrite Hc, Hs.
  split; [congruence | split; [discriminate | reflexivity]].
Qed.

Lemma decimal_in_range (zeros : list N) (cp : N) (d : Z) :
  Unicode.decimal_in zeros cp = Some d -> 0 <= d <= 9.
Proof.
  induction zeros as [| zero zeros IH]; simpl; [discriminate |].
  destruct (N.leb_spec zero cp) as [Hlo | Hlo];
    destruct (N.leb_spec cp (zero + 9)) as [Hhi | Hhi]; simpl; try exact IH.
  intros E. inversion E. lia.
Qed.

Lemma decimal_value_range (cp : N) (d : Z) :
  Unicode.decimal_value cp = Some d -> 0 <= d <= 9.
Proof. apply decimal_in_range. Qed.

Lemma year4_shape (l : list N) (y : Z) :
  year4 l = Some y ->
  0 <= y <= 9999 /\ length l = 4%nat /\ forallb Unicode.is_decimal l = true.
Proof.
  destruct l as [| a [| b [| c [| d [| e l]]]]]; simpl; try discriminate.
  unfold Unicode.is_decimal.
  destruct (Unicode.decimal_value a) as [va |] eqn:Ea; [| discriminate].
  destruct (Unicode.decimal_value b) as [vb |] eqn:Eb; [| discriminate].
  destruct (Unicode.decimal_value c) as [vc |] eqn:Ec; [| discriminate].
  destruct (Unicode.decimal_value d) as [vd |] eqn:Ed; [| discriminate].
  intros H. inversion H; subst.
  apply decimal_value_range in Ea, Eb, Ec, Ed.
  repeat split; lia.
Qed.

(** An ASCII digit is one byte, one code point, one decimal digit and no
    white space. *)
Lemma digit_char_point (d : Z) (s : string) :
  0 <= d <= 9 ->
  Unicode.code_points (String (digit_char d) s)
  = Z.to_N (48 + d) :: Unicode.code_points s
  /\ Unicode.decimal_value (Z.to_N (48 + d)) = Some d
  /\ Unicode.white_space (Z.to_N (48 + d)) = false.
Proof.
  intros Hd.
  assert (Hcases : d = 0 \/ d = 1 \/ d = 2 \/ d = 3 \/ d = 4 \/ d = 5 \/ d = 6
                   \/ d = 7 \/ d = 8 \/ d = 9) by lia.
  repeat (destruct Hcases as [-> | Hcases]; [repeat split |]).
  subst. repeat split.
Qed.

Lemma year_text_points (y : Z) :
  0 <= y <= 9999 ->
  Unicode.code_points (year_text y)
  = [ Z.to_N (48 + y / 1000); Z.to_N (48 + y / 100 mod 10);
      Z.to_N (48 + y / 10 mod 10); Z.to_N (48 + y mod 10) ].
Proof.
  intros Hy. unfold year_text.
  assert (Hd : forall d s, 0 <= d <= 9 ->
               Unicode.code_points (String (digit_char d) s)
               = Z.to_N (48 + d) :: Unicode.code_points s)
    by (intros d s Hr; apply (digit_char_point d s Hr)).
  rewrite !Hd by (Z.to_euclidean_division_equations; lia).
  reflexivity.
Qed.

Lemma year4_text (y : Z) :
  0 <= y <= 9999 -> year4 (Unicode.code_points (year_text y)) = Some y.
Proof.
  intros Hy. rewrite year_text_points by assumption. unfold year4.
  assert (Hd : forall d, 0 <= d <= 9 -> Unicode.decimal_value (Z.to_N (48 + d)) = Some d)
    by (intros d Hr; apply (digit_char_point d EmptyString Hr)).
  rewrite !Hd by (Z.to_euclidean_division_equations; lia).
  f_equal. Z.to_euclidean_division_equations. lia.
Qed.

Lemma spaces1_year_text (y : Z) :
  0 <= y <= 9999 ->
  spaces1 (Unicode.code_points (" " +:+ year_text y))
  = Some (Unicode.code_points (year_text y)).
Proof.
  intros Hy.
  change (Unicode.code_points (" " +:+ year_text y))
    with (32%N :: Unicode.code_points (year_text y)).
  rewrite year_text_points by assumption.
  cbn [spaces1 Unicode.skip_spaces].
  change (Unicode.white_space 32) with true. cbv iota.
  assert (Hd : 0 <= y / 1000 <= 9) by (Z.to_euclidean_division_equations; lia).
  rewrite (proj2 (proj2 (digit_char_point (y / 1000) EmptyString Hd))).
  reflexivity.
Qed.

(** *** [strptime] *)

Lemma strptime_first_instant (s : string) (d : datetime) :
  strptime s = Some d ->
  1 <= dt_year d <= 9999 /\ 1 <= dt_month d <= 12 /\ dt_day d = 1 /\ dt_time d = 0.
Proof.
  unfold strptime.
  destruct (match_month month_names 1 s) as [[m rest] |] eqn:Em; [| discriminate].
  destruct (spaces1 (Unicode.code_points rest)) as [digits |]; [| discriminate].
  destruct (year4 digits) as [y |] eqn:Ey; [| discriminate].
  destruct (Z.ltb_spec y 1) as [Hlow | Hlow]; [discriminate |].
  intros Hd. inversion Hd; subst. simpl.
  apply match_month_shape in Em. destruct Em as [Hm _]. simpl in Hm.
  apply year4_shape in Ey. lia.
Qed.

Lemma strptime_shape (s : string) (d : datetime) :
  strptime s = Some d -> month_year_shape s.
Proof.
  unfold strptime.
  destruct (match_month month_names 1 s) as [[m rest] |] eqn:Em; [| discriminate].
  destruct (spaces1 (Unicode.code_points rest)) as [digits |] eqn:Es; [| discriminate].
  destruct (year4 digits) as [y |] eqn:Ey; [| discriminate].
  intros _.
  apply match_month_shape in Em. destruct Em as (_ & name & -> & Hin).
  apply spaces1_shape in Es. destruct Es as (spaces & E & Hne & Hsp).
  apply year4_shape in Ey. destruct Ey as (_ & Hlen & Hdig).
  exists name, rest, spaces, digits. repeat split; assumption.
Qed.

Lemma match_month_title (m : Z) (rest : string) :
  1 <= m <= 12 ->
  match_month month_names 1 (month_title m +:+ rest) = Some (m, rest).
Proof.
  intros Hm.
  assert (Hcases : m = 1 \/ m = 2 \/ m = 3 \/ m = 4 \/ m = 5 \/ m = 6 \/ m = 7
                   \/ m = 8 \/ m = 9 \/ m = 10 \/ m = 11 \/ m = 12) by lia.
  repeat (destruct Hcases as [-> | Hcases]; [vm_compute; reflexivity |]).
  subst. vm_compute. reflexivity.
Qed.

Lemma strptime_month_year (m y : Z) :
  1 <= m <= 12 -> 1 <= y <= 9999 ->
  strptime (month_year m y) = Some (mkdt y m 1 0).
Proof.
  intros Hm Hy. unfold strptime, month_year.
  rewrite match_month_title by assumption.
  rewrite spaces1_year_text by lia.
  rewrite year4_text by lia.
  destruct (Z.ltb_spec y 1); [lia | reflexivity].
Qed.

(** *** Splitting at the separator *)

Lemma split_dash_cons_other (c : ascii) (s : string) :
  (forall rest, ~ (c = " "%char /\ exists c3, s = String "-" (String c3 rest) /\ c3 = " "%char)) ->
  split_dash (String c s) =
  match split_dash s with
  | piece :: pieces => String c piece :: pieces
  | [] => [String c EmptyString]
  end.
Proof.
  intros H. simpl.
  destruct s as [| c2 [| c3 rest]]; try reflexivity.
  destruct (Ascii.eqb_spec c " "); [| reflexivity].
  destruct (Ascii.eqb_spec c2 "-"); [| reflexivity].
  destruct (Ascii.eqb_spec c3 " "); [| reflexivity].
  subst. exfalso. apply (H rest). split; [reflexivity |]. eauto.
Qed.

Lemma split_dash_no_dash (s : string) : no_dash s = true -> split_dash s = [s].
Proof.
  induction s as [| c s IH]; [reflexivity |].
  simpl no_dash. rewrite andb_true_iff. intros [Hc Hs].
  rewrite split_dash_cons_other.
  - now rewrite (IH Hs).
  - intros rest (_ & c3 & -> & _). simpl in Hs. discriminate.
Qed.

Lemma split_dash_app (a b : string) :
  no_dash a = true ->
  split_dash (a +:+ " - " +:+ b) = a :: split_dash b.
Proof.
  induction a as [| c a IH]; intros Ha.
  - simpl. reflexivity.
  - simpl no_dash in Ha. rewrite andb_true_iff in Ha. destruct Ha as [Hc Ha].
    change (String c a +:+ " - " +:+ b) with (String c (a +:+ " - " +:+ b)).
    rewrite split_dash_cons_other.
    + now rewrite (IH Ha).
    + intros rest (-> & c3 & E & ->).
      destruct a as [| x a]; simpl in E.
      * discriminate.
      * inversion E; subst. simpl in Ha. discriminate.
Qed.

Lemma split_dash_step (c : ascii) (s : string) :
  (exists rest, c = " "%char /\ s = String "-" (String " " rest) /\
                split_dash (String c s) = EmptyString :: split_dash rest)
  \/ split_dash (String c s) =
     match split_dash s with
     | piece :: pieces => String c piece :: pieces
     | [] => [String c EmptyString]
     end.
Proof.
  simpl.
  destruct s as [| c2 [| c3 rest]]; try (right; reflexivity).
  destruct (Ascii.eqb_spec c " "); [| right; reflexivity].
  destruct (Ascii.eqb_spec c2 "-"); [| right; reflexivity].
  destruct (Ascii.eqb_spec c3 " "); [| right; reflexivity].
  subst. left. exists rest. repeat split.
Qed.

Lemma split_dash_nonempty (s : string) : split_dash s <> [].
Proof.
  destruct s as [| c s]; [discriminate |].
  destruct (split_dash_step c s) as [(rest & _ & _ & ->) | ->]; [discriminate |].
  destruct (split_dash s) as [| piece pieces]; discriminate.
Qed.

Lemma split_dash_one (s b : string) : split_dash s = [b] -> s = b.
Proof.
  revert b. induction s as [| c s IH]; intros b H.
  - simpl in H. now inversion H.
  - destruct (split_dash_step c s) as [(rest & _ & _ & E) | E]; rewrite E in H.
    + inversion H as [[Hb Hrest]]. now apply split_dash_nonempty in Hrest.
    + destruct (split_dash s) as [| piece [| ? ?]] eqn:Es; try discriminate.
      * now apply split_dash_nonempty in Es.
      * inversion H; subst. f_equal. now apply IH.
Qed.

Lemma split_dash_two (s a b : string) :
  split_dash s = [a; b] -> s = a +:+ " - " +:+ b.
Proof.
  revert a b. induction s as [| c s IH]; intros a b H.
  - simpl in H. discriminate.
  - destruct (split_dash_step c s) as [(rest & -> & -> & E) | E]; rewrite E in H.
    + inversion H as [[Ha Hrest]]. apply split_dash_one in Hrest. now subst.
    + destruct (split_dash s) as [| piece [| piece2 [| ? ?]]] eqn:Es; try discriminate.
      inversion H; subst. simpl. f_equal. now apply IH.
Qed.

Lemma no_dash_app (a b : string) :
  no_dash (a +:+ b) = no_dash a && no_dash b.
Proof.
  induction a as [| c a IH]; simpl; [reflexivity |].
  rewrite IH. now rewrite andb_assoc.
Qed.

Lemma no_dash_month_year (m y : Z) :
  1 <= m <= 12 -> 0 <= y <= 9999 -> no_dash (month_year m y) = true.
Proof.
  intros Hm Hy. unfold month_year.
  rewrite !no_dash_app.
  assert (Hyear : no_dash (year_text y) = true).
  { unfold year_text, no_dash.
    assert (Hd : forall d, 0 <= d <= 9 -> Ascii.eqb (digit_char d) "-" = false).
    { intros d Hd.
      assert (Hcases : d = 0 \/ d = 1 \/ d = 2 \/ d = 3 \/ d = 4 \/ d = 5 \/ d = 6
                       \/ d = 7 \/ d = 8 \/ d = 9) by lia.
      repeat (destruct Hcases as [-> | Hcases]; [reflexivity |]).
      subst. reflexivity. }
    rewrite !Hd by (Z.to_euclidean_division_equations; lia). reflexivity. }
  rewrite Hyear.
  assert (Hcases : m = 1 \/ m = 2 \/ m = 3 \/ m = 4 \/ m = 5 \/ m = 6 \/ m = 7
                   \/ m = 8 \/ m = 9 \/ m = 10 \/ m = 11 \/ m = 12) by lia.
  repeat (destruct Hcases as [-> | Hcases]; [reflexivity |]).
  subst. reflexivity.
Qed.

End TextFacts.

(** ** Rounding *)

Section RoundingFacts.

Lemma round_half_even_choice (q : Q) :
  round_half_even q = Qfloor q \/ round_half_even q = Qfloor q + 1.
Proof.
  unfold round_half_even.
  destruct (Qcompare (q - inject_Z (Qfloor q)) (1 # 2)); auto.
  destruct (Z.even (Qfloor q)); auto.
Qed.

Lemma round_half_even_comp (p q : Q) :
  (p == q)%Q -> round_half_even p = round_half_even q.
Proof.
  intros H. unfold round_half_even.
  rewrite (Qfloor_comp _ _ H).
  assert (Hc : Qcompare (p - inject_Z (Qfloor q)) (1 # 2)
               = Qcompare (q - inject_Z (Qfloor q)) (1 # 2)).
  { apply Qcompare_comp; [rewrite H |]; reflexivity. }
  rewrite Hc. reflexivity.
Qed.

(** The rounded value is within one half of the argument. *)
Lemma round_half_even_close (q : Q) :
  (inject_Z (round_half_even q) - (1 # 2) <= q)%Q /\
  (q <= inject_Z (round_half_even q) + (1 # 2))%Q.
Proof.
  pose proof (Qfloor_le q) as Hlo.
  pose proof (Qlt_floor q) as Hhi.
  rewrite inject_Z_plus in Hhi. change (inject_Z 1) with 1%Q in Hhi.
  unfold round_half_even.
  destruct (Qcompare (q - inject_Z (Qfloor q)) (1 # 2)) eqn:Hc.
  - apply Qeq_alt in Hc.
    destruct (Z.even (Qfloor q));
      [| rewrite inject_Z_plus; change (inject_Z 1) with 1%Q]; split; lra.
  - apply Qlt_alt in Hc. split; lra.
  - apply Qgt_alt in Hc. rewrite inject_Z_plus. change (inject_Z 1) with 1%Q.
    split; lra.
Qed.

Lemma round_half_even_nonneg (q : Q) : (0 <= q)%Q -> 0 <= round_half_even q.
Proof.
  intros Hq.
  pose proof (Qfloor_resp_le _ _ Hq) as Hf. change (Qfloor 0) with 0 in Hf.
  destruct (round_half_even_choice q) as [-> | ->]; lia.
Qed.

Lemma round_half_even_nonpos (q : Q) : (q <= 0)%Q -> round_half_even q <= 0.
Proof.
  intros Hq.
  pose proof (Qfloor_resp_le _ _ Hq) as Hf. change (Qfloor 0) with 0 in Hf.
  pose proof (Qfloor_le q) as Hlo.
  unfold round_half_even.
  destruct (Qcompare (q - inject_Z (Qfloor q)) (1 # 2)) eqn:Hc.
  - destruct (Z.even (Qfloor q)) eqn:He; [lia |].
    assert (Qfloor q <> 0) by (intros E; rewrite E in He; discriminate). lia.
  - lia.
  - apply Qgt_alt in Hc.
    assert (Qfloor q <> 0).
    { intros E. rewrite E in Hc. change (inject_Z 0) with 0%Q in Hc. lra. }
    lia.
Qed.

Lemma tenths (z : Z) : (inject_Z z / 10 == z # 10)%Q.
Proof. unfold Qeq, Qdiv, Qmult, Qinv, inject_Z. simpl. lia. Qed.

Lemma round1_comp (p q : Q) : (p == q)%Q -> round1 p = round1 q.
Proof.
  intros H. unfold round1.
  rewrite (round_half_even_comp (p * 10) (q * 10)); [reflexivity |].
  rewrite H. reflexivity.
Qed.

Lemma round1_nonneg (q : Q) : (0 <= q)%Q -> (0 <= round1 q)%Q.
Proof.
  intros Hq. unfold round1. rewrite tenths.
  assert (0 <= round_half_even (q * 10)) by (apply round_half_even_nonneg; lra).
  unfold Qle. simpl. lia.
Qed.

Lemma round1_nonpos (q : Q) : (q <= 0)%Q -> (round1 q <= 0)%Q.
Proof.
  intros Hq. unfold round1. rewrite tenths.
  assert (round_half_even (q * 10) <= 0) by (apply round_half_even_nonpos; lra).
  unfold Qle. simpl. lia.
Qed.

(** One-decimal rounding moves a value by at most one twentieth. *)
Lemma round1_close (q : Q) :
  (round1 q - (1 # 20) <= q)%Q /\ (q <= round1 q + (1 # 20))%Q.
Proof.
  destruct (round_half_even_close (q * 10)) as [Hlo Hhi].
  unfold round1.
  set (z := inject_Z (round_half_even (q * 10))) in *.
  unfold Qdiv. change (/ 10)%Q with (1 # 10)%Q.
  split; lra.
Qed.

End RoundingFacts.

(** ** Durations *)

Section DurationFacts.
Import Relativedelta Experience.

(** A duration is the settled number of months, in twelfths of a year. *)
Lemma experience_between_months (start_date end_date : datetime) :
  1 <= dt_month end_date <= 12 -> 1 <= dt_day end_date -> 0 <= dt_time end_date ->
  1 <= dt_month start_date <= 12 -> dt_day start_date = 1 -> dt_time start_date = 0 ->
  experience_between start_date end_date =
    (inject_Z (Z.quot (settled_months end_date start_date) 12)
     + inject_Z (Z.rem (settled_months end_date start_date) 12) / 12)%Q
  /\ (experience_between start_date end_date
      == inject_Z (settled_months end_date start_date) / 12)%Q.
Proof.
  intros. unfold experience_between.
  rewrite relativedelta_from_first_day by assumption.
  rewrite set_months_quot_rem.
  split; [reflexivity |].
  pose proof (Z.quot_rem' (settled_months end_date start_date) 12) as Hsum.
  rewrite Hsum at 3.
  rewrite inject_Z_plus, inject_Z_mult. field.
Qed.

Lemma twelfths_sign (months : Z) :
  ((0 <= inject_Z months / 12)%Q <-> 0 <= months) /\
  ((inject_Z months / 12 < 0)%Q <-> months < 0).
Proof.
  assert (E : (inject_Z months / 12 == months # 12)%Q).
  { unfold Qeq, Qdiv, Qmult, Qinv, inject_Z. simpl. lia. }
  rewrite E. unfold Qle, Qlt. simpl. lia.
Qed.

Lemma settled_months_in_order (start_date end_date : datetime) :
  1 <= dt_month end_date <= 12 -> 1 <= dt_month start_date <= 12 ->
  dt_ltb end_date start_date = false ->
  settled_months end_date start_date = month_difference end_date start_date
  /\ 0 <= month_difference end_date start_date.
Proof.
  intros Hme Hms Hlt. unfold settled_months. rewrite Hlt. simpl.
  split; [reflexivity |].
  apply dt_ltb_false_fields in Hlt. rewrite dt_ltb_fields in Hlt.
  unfold month_difference. lia.
Qed.

Lemma settled_months_first_instants (start_date end_date : datetime) :
  dt_day end_date = 1 -> dt_time end_date = 0 ->
  settled_months end_date start_date = month_difference end_date start_date.
Proof.
  intros Hd Ht. unfold settled_months, first_instant.
  rewrite Hd, Ht. simpl. rewrite andb_false_r. reflexivity.
Qed.

End DurationFacts.

(** ** Floating-point arithmetic *)

Section Binary64Facts.
Import Binary64.

Lemma pow2_pos (e : Z) : (0 < pow2 e)%Q.
Proof.
  unfold pow2. destruct (Z.leb_spec 0 e) as [He | He].
  - rewrite <- (Zlt_Qlt 0). apply Z.pow_pos_nonneg; lia.
  - apply Qinv_lt_0_compat. rewrite <- (Zlt_Qlt 0). apply Z.pow_pos_nonneg; lia.
Qed.

Lemma pow2_le (a b : Z) : a <= b -> (pow2 a <= pow2 b)%Q.
Proof.
  intros Hab. unfold pow2.
  assert (Hpos : forall k, 0 <= k -> (1 <= inject_Z (2 ^ k))%Q).
  { intros k Hk. rewrite <- (Zle_Qle 1). pose proof (Z.pow_pos_nonneg 2 k). lia. }
  destruct (Z.leb_spec 0 a) as [Ha | Ha]; destruct (Z.leb_spec 0 b) as [Hb | Hb]; try lia.
  - rewrite <- Zle_Qle. apply Z.pow_le_mono_r; lia.
  - pose proof (Hpos (- a) ltac:(lia)) as H1. pose proof (Hpos b Hb) as H2.
    apply Qle_trans with 1%Q; [| exact H2].
    apply Qle_shift_inv_r; lra.
  - pose proof (Hpos (- a) ltac:(lia)) as H1. pose proof (Hpos (- b) ltac:(lia)) as H2.
    assert (H3 : (inject_Z (2 ^ (- b)) <= inject_Z (2 ^ (- a)))%Q)
      by (rewrite <- Zle_Qle; apply Z.pow_le_mono_r; lia).
    apply Qle_shift_inv_r; [lra |].
    apply Qle_trans with (/ inject_Z (2 ^ (- b)) * inject_Z (2 ^ (- b)))%Q.
    + rewrite Qmult_comm, Qmult_inv_r; lra.
    + apply Qmult_le_l; [apply Qinv_lt_0_compat; lra | exact H3].
Qed.

(** The exponent of the unit in the last place, from a bound on the
    magnitude. *)
Lemma ulp_exponent_le (q : Q) (K : Z) :
  1 <= K -> (Qabs q < inject_Z (2 ^ K))%Q -> ulp_exponent q <= K - 53.
Proof.
  intros HK Hq. unfold ulp_exponent, ilog2.
  destruct (Qle_bool 1 (Qabs q)) eqn:Hone.
  - apply Qle_bool_iff in Hone.
    assert (Hf : 0 < Qfloor (Qabs q) < 2 ^ K).
    { split.
      - pose proof (Qfloor_resp_le _ _ Hone) as H. change (Qfloor 1) with 1 in H. lia.
      - rewrite Zlt_Qlt. eapply Qle_lt_trans; [apply Qfloor_le | exact Hq]. }
    assert (Z.log2 (Qfloor (Qabs q)) < K) by (apply Z.log2_lt_pow2; lia).
    lia.
  - pose proof (Z.log2_up_nonneg (Qceiling (/ Qabs q))). lia.
Qed.

Lemma RN_close (q : Q) :
  (Qabs (RN q - q) <= pow2 (ulp_exponent q) / 2)%Q.
Proof.
  unfold RN. set (p := pow2 (ulp_exponent q)).
  assert (Hp : (0 < p)%Q) by apply pow2_pos.
  destruct (round_half_even_close (q / p)) as [Hlo Hhi].
  set (z := inject_Z (round_half_even (q / p))) in *.
  assert (E : (q == q / p * p)%Q) by (field; lra).
  apply Qabs_Qle_condition.
  assert (H1 : ((z - (1 # 2)) * p <= q / p * p)%Q)
    by (apply Qmult_le_compat_r; lra).
  assert (H2 : (q / p * p <= (z + (1 # 2)) * p)%Q)
    by (apply Qmult_le_compat_r; lra).
  rewrite <- E in H1, H2.
  assert (Eh : (p / 2 == p * (1 # 2))%Q) by reflexivity.
  rewrite Eh. split; lra.
Qed.

(** The rounding error of an operation whose exact result is below
    [2^K] in magnitude. *)
Lemma RN_error (q : Q) (K : Z) :
  1 <= K -> (Qabs q < inject_Z (2 ^ K))%Q ->
  (Qabs (RN q - q) <= pow2 (K - 53) / 2)%Q.
Proof.
  intros HK Hq.
  eapply Qle_trans; [apply RN_close |].
  pose proof (pow2_le _ _ (ulp_exponent_le q K HK Hq)) as H.
  unfold Qdiv. change (/ 2)%Q with (1 # 2)%Q. lra.
Qed.

Lemma RN_nonneg (q : Q) : (0 <= q)%Q -> (0 <= RN q)%Q.
Proof.
  intros Hq. unfold RN.
  pose proof (pow2_pos (ulp_exponent q)) as Hp.
  apply Qmult_le_0_compat; [| lra].
  rewrite <- (Zle_Qle 0). apply round_half_even_nonneg.
  apply Qle_shift_div_l; [exact Hp | lra].
Qed.

Lemma round_half_even_Z (z : Z) : round_half_even (inject_Z z) = z.
Proof.
  unfold round_half_even. rewrite Qfloor_Z.
  destruct (Qcompare (inject_Z z - inject_Z z) (1 # 2)) eqn:Hc; [| reflexivity |].
  - apply Qeq_alt in Hc. lra.
  - apply Qgt_alt in Hc. lra.
Qed.

(** A multiple of one quarter below [2^48] in magnitude is a float. *)
Lemma RN_quarters (q : Q) (n : Z) :
  (q == inject_Z n / 4)%Q -> (Qabs q < inject_Z (2 ^ 48))%Q -> (RN q == q)%Q.
Proof.
  intros Eq Hq.
  pose proof (ulp_exponent_le q 48 ltac:(lia) Hq) as He.
  unfold RN. set (e := ulp_exponent q) in *.
  unfold pow2. destruct (Z.leb_spec 0 e) as [H | _]; [lia |].
  replace (- e) with ((- e - 2) + 2) by lia.
  rewrite Z.pow_add_r by lia. change (2 ^ 2) with 4.
  set (P := 2 ^ (- e - 2)).
  assert (HP : 0 < P) by (apply Z.pow_pos_nonneg; lia).
  assert (HPq : (0 < inject_Z P)%Q) by (now rewrite <- (Zlt_Qlt 0)).
  rewrite inject_Z_mult. change (inject_Z 4) with 4%Q.
  assert (Ex : (q / / (inject_Z P * 4) == inject_Z (n * P))%Q).
  { rewrite Eq, inject_Z_mult. field. lra. }
  rewrite (round_half_even_comp _ _ Ex), round_half_even_Z.
  rewrite Eq, inject_Z_mult. field. lra.
Qed.

(** The integer within less than one half of a number is what the
    number rounds to. *)
Lemma round_half_even_unique (v : Q) (z : Z) :
  (Qabs (v - inject_Z z) < 1 # 2)%Q -> round_half_even v = z.
Proof.
  intros Hv.
  destruct (round_half_even_close v) as [Hlo Hhi].
  assert (Hz : (- (1 # 2) < v - inject_Z z)%Q /\ (v - inject_Z z < 1 # 2)%Q).
  { destruct (Qabs_Qle_condition (v - inject_Z z) (Qabs (v - inject_Z z))) as [H _].
    specialize (H (Qle_refl _)). split; lra. }
  destruct Hz as [Hz1 Hz2].
  assert (H1 : (inject_Z (round_half_even v) < inject_Z (z + 1))%Q)
    by (rewrite inject_Z_plus; change (inject_Z 1) with 1%Q; lra).
  assert (H2 : (inject_Z (z - 1) < inject_Z (round_half_even v))%Q).
  { unfold Z.sub. rewrite inject_Z_plus. change (inject_Z (- (1))) with (- (1))%Q. lra. }
  rewrite <- Zlt_Qlt in H1, H2. lia.
Qed.

(** [years + months / 12] in floating point: the result is within
    [2^-39] of the exact value, and is the exact value when that is a
    multiple of one quarter. *)
Lemma float_years_close (y r : Z) :
  -9999 <= y <= 9999 -> -11 <= r <= 11 ->
  let f := fadd (inject_Z y) (fdiv (inject_Z r) 12) in
  let d := (inject_Z y + inject_Z r / 12)%Q in
  (Qabs (f - d) <= 1 # 549755813888)%Q
  /\ (r mod 3 = 0 -> (f == d)%Q).
Proof.
  intros Hy Hr f d. unfold fadd, fdiv in f.
  set (q := (inject_Z r / 12)%Q) in *.
  assert (Hq : (- (11 # 12) <= q)%Q /\ (q <= 11 # 12)%Q).
  { unfold q. unfold Qdiv. change (/ 12)%Q with (1 # 12)%Q.
    assert (H1 : (inject_Z (-11) <= inject_Z r)%Q) by (rewrite <- Zle_Qle; lia).
    assert (H2 : (inject_Z r <= inject_Z 11)%Q) by (rewrite <- Zle_Qle; lia).
    change (inject_Z (-11)) with (- (11))%Q in H1. change (inject_Z 11) with 11%Q in H2.
    split; lra. }
  assert (HY : (- (9999) <= inject_Z y)%Q /\ (inject_Z y <= 9999)%Q).
  { assert (H1 : (inject_Z (-9999) <= inject_Z y)%Q) by (rewrite <- Zle_Qle; lia).
    assert (H2 : (inject_Z y <= inject_Z 9999)%Q) by (rewrite <- Zle_Qle; lia).
    change (inject_Z (-9999)) with (- (9999))%Q in H1.
    change (inject_Z 9999) with 9999%Q in H2. split; lra. }
  assert (E1 : (Qabs (RN q - q) <= 1 # 9007199254740992)%Q).
  { eapply Qle_trans; [apply (RN_error q 1); [lia |] | ].
    - apply Qabs_case; intros; change (inject_Z (2 ^ 1)) with 2%Q; lra.
    - apply Qle_lteq. right. reflexivity. }
  apply Qabs_Qle_condition in E1.
  assert (E2 : (Qabs (f - (inject_Z y + RN q)) <= 1 # 1099511627776)%Q).
  { eapply Qle_trans; [apply (RN_error (inject_Z y + RN q) 14); [lia |] | ].
    - apply Qabs_case; intros; change (inject_Z (2 ^ 14)) with 16384%Q; lra.
    - apply Qle_lteq. right. reflexivity. }
  apply Qabs_Qle_condition in E2.
  split.
  - apply Qabs_Qle_condition. unfold d. fold q. split; lra.
  - intros H3.
    assert (Er : r = 3 * (r / 3)) by (Z.to_euclidean_division_equations; lia).
    assert (Eq : (q == inject_Z (r / 3) / 4)%Q).
    { unfold q. rewrite Er at 1. rewrite inject_Z_mult. field. }
    assert (Hfq : (RN q == q)%Q).
    { apply (RN_quarters q (r / 3) Eq).
      apply Qabs_case; intros; change (inject_Z (2 ^ 48)) with 281474976710656%Q; lra. }
    assert (Es : (inject_Z y + RN q == inject_Z (4 * y + r / 3) / 4)%Q).
    { rewrite Hfq, Eq, inject_Z_plus, inject_Z_mult. field. }
    unfold f, d. fold q.
    rewrite (RN_quarters _ _ Es); [now rewrite Hfq |].
    apply Qabs_case; intros; change (inject_Z (2 ^ 48)) with 281474976710656%Q; lra.
Qed.

(** Rounding to one decimal near a number of twelfths: a value close to
    [months / 12] rounds as [months / 12] does, unless that lies halfway
    between two one-decimal numbers. *)
Lemma round1_twelfths (months : Z) (f : Q) :
  (Qabs (f - inject_Z months / 12) <= 1 # 100)%Q ->
  months mod 6 <> 3 ->
  round1 f = round1 (inject_Z months / 12).
Proof.
  intros Hf Hm. unfold round1.
  set (z := (5 * months + 3) / 6).
  assert (Hz : -2 <= 5 * months - 6 * z <= 2)
    by (unfold z; Z.to_euclidean_division_equations; lia).
  assert (Ez : (inject_Z months / 12 * 10 - inject_Z z
                == inject_Z (5 * months - 6 * z) / 6)%Q).
  { unfold Z.sub. rewrite inject_Z_plus, inject_Z_opp, !inject_Z_mult. field. }
  assert (Hd : (- (1 # 3) <= inject_Z months / 12 * 10 - inject_Z z)%Q
               /\ (inject_Z months / 12 * 10 - inject_Z z <= 1 # 3)%Q).
  { rewrite Ez. unfold Qdiv. change (/ 6)%Q with (1 # 6)%Q.
    assert (H1 : (inject_Z (-2) <= inject_Z (5 * months - 6 * z))%Q)
      by (rewrite <- Zle_Qle; lia).
    assert (H2 : (inject_Z (5 * months - 6 * z) <= inject_Z 2)%Q)
      by (rewrite <- Zle_Qle; lia).
    change (inject_Z (-2)) with (- (2))%Q in H1. change (inject_Z 2) with 2%Q in H2.
    split; lra. }
  apply Qabs_Qle_condition in Hf.
  rewrite (round_half_even_unique (f * 10) z),
    (round_half_even_unique (inject_Z months / 12 * 10) z); [reflexivity | |].
  - apply Qabs_case; intros; lra.
  - apply Qabs_case; intros; lra.
Qed.

(** In every case the rounded value is within one twentieth of
    [months / 12]. *)
Lemma round1_near_twelfths (months : Z) (f : Q) :
  (Qabs (f - inject_Z months / 12) <= 1 # 100)%Q ->
  (Qabs (round1 f - inject_Z months / 12) <= 1 # 20)%Q.
Proof.
  intros Hf.
  destruct (Z.eq_dec (months mod 6) 3) as [Hm | Hm].
  - set (z := (5 * months - 3) / 6).
    assert (Hz : 5 * months = 6 * z + 3)
      by (unfold z; Z.to_euclidean_division_equations; lia).
    assert (Ez : (inject_Z months / 12 * 10 == inject_Z z + (1 # 2))%Q).
    { assert (E5 : (inject_Z (5 * months) == inject_Z (6 * z + 3))%Q) by now rewrite Hz.
      rewrite inject_Z_plus, !inject_Z_mult in E5.
      change (inject_Z 5) with 5%Q in E5. change (inject_Z 6) with 6%Q in E5.
      change (inject_Z 3) with 3%Q in E5.
      unfold Qdiv. change (/ 12)%Q with (1 # 12)%Q. lra. }
    apply Qabs_Qle_condition in Hf.
    destruct (round_half_even_close (f * 10)) as [Hlo Hhi].
    unfold round1. apply Qabs_Qle_condition.
    unfold Qdiv in *. change (/ 12)%Q with (1 # 12)%Q in *.
    change (/ 10)%Q with (1 # 10)%Q.
    assert (Hc : round_half_even (f * 10) = z \/ round_half_even (f * 10) = z + 1).
    { assert (H1 : (inject_Z (z - 1) < inject_Z (round_half_even (f * 10)))%Q).
      { unfold Z.sub. rewrite inject_Z_plus. change (inject_Z (- (1))) with (- (1))%Q.
        lra. }
      assert (H2 : (inject_Z (round_half_even (f * 10)) < inject_Z (z + 2))%Q).
      { rewrite inject_Z_plus. change (inject_Z 2) with 2%Q. lra. }
      rewrite <- Zlt_Qlt in H1, H2. lia. }
    destruct Hc as [-> | ->];
      [| rewrite inject_Z_plus; change (inject_Z 1) with 1%Q]; split; lra.
  - rewrite (round1_twelfths months f Hf Hm).
    destruct (round1_close (inject_Z months / 12)) as [H1 H2].
    apply Qabs_Qle_condition. split; lra.
Qed.

End Binary64Facts.

(** ** Durations as floats *)

Section FloatDurationFacts.
Import Relativedelta Experience Binary64.

(** The duration that the code computes for a range that starts at the
    first instant of a month, as [strptime] returns it, against the
    settled number of months. *)
Lemma experience_years_months (start_date end_date : datetime) :
  1 <= dt_year end_date <= 9999 -> 1 <= dt_month end_date <= 12 ->
  1 <= dt_day end_date -> 0 <= dt_time end_date ->
  1 <= dt_year start_date <= 9999 -> 1 <= dt_month start_date <= 12 ->
  dt_day start_date = 1 -> dt_time start_date = 0 ->
  let months := settled_months end_date start_date in
  -119988 <= months <= 119988
  /\ (experience_between start_date end_date == inject_Z months / 12)%Q
  /\ (Qabs (experience_years start_date end_date - inject_Z months / 12)
      <= 1 # 549755813888)%Q
  /\ (months mod 3 = 0 ->
      (experience_years start_date end_date == inject_Z months / 12)%Q)
  /\ round1 (experience_years start_date end_date) = round1 (inject_Z months / 12)
  /\ (0 <= months -> (0 <= experience_years start_date end_date)%Q).
Proof.
  intros Hye Hme Hde Hte Hys Hms Hds Hts months.
  assert (Hrange : -119988 <= months <= 119988).
  { unfold months, settled_months, month_difference.
    destruct (dt_ltb end_date start_date && negb (first_instant end_date)); lia. }
  destruct (experience_between_months start_date end_date) as [_ He]; try assumption.
  fold months in He.
  unfold experience_years.
  rewrite relativedelta_from_first_day by assumption.
  rewrite set_months_quot_rem. fold months.
  pose proof (Z.quot_rem' months 12) as Hsum.
  assert (Hq : -9999 <= Z.quot months 12 <= 9999)
    by (Z.to_euclidean_division_equations; lia).
  assert (Hr : -11 <= Z.rem months 12 <= 11)
    by (Z.to_euclidean_division_equations; lia).
  destruct (float_years_close _ _ Hq Hr) as [Hclose Hexact]. cbv zeta in Hclose, Hexact.
  assert (Ed : (inject_Z (Z.quot months 12) + inject_Z (Z.rem months 12) / 12
                == inject_Z months / 12)%Q).
  { rewrite Hsum at 3. rewrite inject_Z_plus, inject_Z_mult. field. }
  rewrite Ed in Hclose.
  assert (Hthree : months mod 3 = 0 ->
                   (fadd (inject_Z (Z.quot months 12))
                      (fdiv (inject_Z (Z.rem months 12)) 12)
                    == inject_Z months / 12)%Q).
  { intros H3. rewrite <- Ed. apply Hexact.
    Z.to_euclidean_division_equations. lia. }
  split; [exact Hrange |].
  split; [exact He |].
  split; [exact Hclose |].
  split; [exact Hthree |].
  split.
  - destruct (Z.eq_dec (months mod 6) 3) as [H6 | H6].
    + apply round1_comp, Hthree. Z.to_euclidean_division_equations. lia.
    + apply round1_twelfths; [| exact H6].
      eapply Qle_trans; [exact Hclose |]. unfold Qle. simpl. lia.
  - intros Hpos. unfold fadd, fdiv.
    assert (H0 : 0 <= Z.quot months 12 /\ 0 <= Z.rem months 12)
      by (Z.to_euclidean_division_equations; lia).
    destruct H0 as [Hq0 Hr0].
    rewrite (Zle_Qle 0) in Hq0, Hr0. change (inject_Z 0) with 0%Q in Hq0, Hr0.
    assert (Hf : (0 <= RN (inject_Z (Z.rem months 12) / 12))%Q).
    { apply RN_nonneg. unfold Qdiv. change (/ 12)%Q with (1 # 12)%Q. lra. }
    apply RN_nonneg. lra.
Qed.

End FloatDurationFacts.

(** ** The experience aggregator *)

Section ExperienceFacts.
Import Text Strptime Experience Records Wellformed.

Lemma dict_get_set (k : string) (v : json) (d : list (string * json)) :
  Dict.get k (Dict.set k v d) = Some v.
Proof.
  induction d as [| [k' v'] d IH]; simpl.
  - now rewrite String.eqb_refl.
  - destruct (String.eqb k' k) eqn:E; simpl; rewrite E; [reflexivity | exact IH].
Qed.

Lemma parse_employment_dates_first_instants (s : string) (start_date : datetime)
    (e : range_end) :
  parse_employment_dates s = Some (start_date, e) ->
  (1 <= dt_year start_date <= 9999 /\ 1 <= dt_month start_date <= 12
   /\ dt_day start_date = 1 /\ dt_time start_date = 0) /\
  match e with
  | Until d => 1 <= dt_year d <= 9999 /\ 1 <= dt_month d <= 12
               /\ dt_day d = 1 /\ dt_time d = 0
  | Ongoing => True
  end.
Proof.
  unfold parse_employment_dates.
  destruct (split_dash s) as [| a [| b [| ? ?]]]; try discriminate.
  destruct (strptime a) as [sd |] eqn:Ea; [| discriminate].
  destruct (String.eqb (lower b) "present" || String.eqb (lower b) "current").
  - intros H. inversion H; subst. split; [| exact I].
    now apply strptime_first_instant in Ea.
  - destruct (strptime b) as [ed |] eqn:Eb; [| discriminate].
    intros H. inversion H; subst.
    split; [now apply strptime_first_instant in Ea | now apply strptime_first_instant in Eb].
Qed.

Lemma parse_employment_dates_shape (s : string) (r : datetime * range_end) :
  parse_employment_dates s = Some r -> range_shape s.
Proof.
  unfold parse_employment_dates.
  destruct (split_dash s) as [| a [| b [| ? ?]]] eqn:Es; try discriminate.
  apply split_dash_two in Es. subst s.
  destruct (strptime a) as [sd |] eqn:Ea; [| discriminate].
  apply strptime_shape in Ea.
  destruct (String.eqb (lower b) "present" || String.eqb (lower b) "current") eqn:Ew.
  - intros _. exists a, b. split; [reflexivity | split; [assumption | left]].
    apply orb_true_iff in Ew. unfold ongoing_word.
    destruct Ew as [Ew | Ew]; apply String.eqb_eq in Ew; auto.
  - destruct (strptime b) as [ed |] eqn:Eb; [| discriminate].
    apply strptime_shape in Eb.
    intros _. exists a, b. split; [reflexivity | split; [assumption | right; assumption]].
Qed.

Lemma parsed_range_dict (d : list (string * json)) (s : string) :
  default (JStr EmptyString) (Dict.get "employment_dates" d) = JStr s ->
  parsed_range (JDict d) = parse_employment_dates s.
Proof. intros E. unfold parsed_range, dates_of. now rewrite E. Qed.

Lemma valid_durations_step (clock : nat -> datetime) (tick : nat) (job : json)
    (rest : list json) :
  valid_durations clock tick (job :: rest) =
  match parsed_range job with
  | Some (start_date, Until end_date) =>
      experience_years start_date end_date :: valid_durations clock tick rest
  | Some (start_date, Ongoing) =>
      experience_years start_date (clock tick) :: valid_durations clock (S tick) rest
  | None => valid_durations clock tick rest
  end.
Proof.
  unfold valid_durations. cbn [valid_ranges].
  destruct (parsed_range job) as [[start_date [end_date |]] |]; reflexivity.
Qed.

(** The loop, for job records: it keeps the records that parse, updated,
    and accumulates their durations. *)
Lemma experience_loop_records (clock : nat -> datetime) (jobs : list json) :
  forall (tick : nat) (total : Q) (acc : list json),
    forallb is_job_record jobs = true ->
    experience_loop clock tick jobs total acc =
    Returned (round1 (fold_left Binary64.fadd (valid_durations clock tick jobs) total),
              acc ++ zip_experience (List.filter parses jobs)
                       (valid_durations clock tick jobs)).
Proof.
  induction jobs as [| job jobs IH]; intros tick total acc Hrec.
  - simpl. now rewrite app_nil_r.
  - simpl in Hrec. apply andb_true_iff in Hrec. destruct Hrec as [Hjob Hrest].
    destruct job as [| | | | | d]; try discriminate.
    unfold is_job_record, dates_of in Hjob.
    destruct (default (JStr EmptyString) (Dict.get "employment_dates" d)) as [| | | s | |] eqn:Ed;
      try discriminate.
    simpl experience_loop. rewrite Ed.
    rewrite valid_durations_step. simpl List.filter. unfold parses.
    rewrite (parsed_range_dict d s Ed).
    destruct (parse_employment_dates s) as [[start_date [end_date |]] |].
    + rewrite IH by assumption. simpl. now rewrite <- app_assoc.
    + rewrite IH by assumption. simpl. now rewrite <- app_assoc.
    + now rewrite IH by assumption.
Qed.

Lemma experience_loop_returned (clock : nat -> datetime) (jobs : list json) :
  forall (tick : nat) (total : Q) (acc : list json) (r : Q * list json),
    experience_loop clock tick jobs total acc = Returned r ->
    forallb is_job_record jobs = true.
Proof.
  induction jobs as [| job jobs IH]; intros tick total acc r H; [reflexivity |].
  destruct job as [| | | | | d]; try discriminate.
  simpl in H. simpl. unfold is_job_record, dates_of.
  destruct (default (JStr EmptyString) (Dict.get "employment_dates" d)) as [| | | s | |];
    try discriminate.
  simpl.
  destruct (parse_employment_dates s) as [[start_date [end_date |]] |];
    eapply IH; exact H.
Qed.

(** A record that is not a job record stops the loop, whatever follows
    it, when the records before it are job records. *)
Lemma experience_loop_raises (clock : nat -> datetime) (before : list json)
    (entry : json) (after : list json) :
  forall (tick : nat) (total : Q) (acc : list json),
    forallb is_job_record before = true -> is_job_record entry = false ->
    experience_loop clock tick (before ++ entry :: after) total acc
    = Raised AttributeError.
Proof.
  induction before as [| job before IH]; intros tick total acc Hrec Hentry.
  - cbn [app experience_loop]. unfold is_job_record, dates_of in Hentry.
    destruct entry as [| | | | | d]; try reflexivity.
    destruct (default (JStr EmptyString) (Dict.get "employment_dates" d));
      try reflexivity; discriminate Hentry.
  - simpl in Hrec. apply andb_true_iff in Hrec. destruct Hrec as [Hjob Hrest].
    destruct job as [| | | | | d]; try discriminate.
    unfold is_job_record, dates_of in Hjob.
    destruct (default (JStr EmptyString) (Dict.get "employment_dates" d)) as [| | | s | |] eqn:Ed;
      try discriminate.
    cbn [app experience_loop]. rewrite Ed.
    destruct (parse_employment_dates s) as [[start_date [end_date |]] |];
      now apply IH.
Qed.

Lemma valid_durations_length (clock : nat -> datetime) (jobs : list json) :
  forall tick,
    length (valid_durations clock tick jobs) = length (List.filter parses jobs).
Proof.
  induction jobs as [| job jobs IH]; intros tick; [reflexivity |].
  rewrite valid_durations_step. simpl. unfold parses.
  destruct (parsed_range job) as [[start_date [end_date |]] |]; simpl; now rewrite IH.
Qed.

Lemma stored_after_zip (clock : nat -> datetime) (jobs : list json) :
  forall tick,
    forallb is_job_record jobs = true ->
    map stored_experience
      (zip_experience (List.filter parses jobs) (valid_durations clock tick jobs))
    = map (fun d => Some (round1 d)) (valid_durations clock tick jobs).
Proof.
  induction jobs as [| job jobs IH]; intros tick Hrec; [reflexivity |].
  simpl in Hrec. apply andb_true_iff in Hrec. destruct Hrec as [Hjob Hrest].
  destruct job as [| | | | | d]; try discriminate.
  rewrite valid_durations_step. simpl. unfold parses.
  destruct (parsed_range (JDict d)) as [[start_date [end_date |]] |]; simpl.
  - rewrite dict_get_set. now rewrite IH.
  - rewrite dict_get_set. now rewrite IH.
  - now apply IH.
Qed.

(** What a run that returns has computed. *)
Lemma calculate_experience_returned (clock : nat -> datetime) (jobs : list json)
    (total_years : Q) (records : list json) :
  calculate_experience clock jobs = Returned (total_years, records) ->
  total_years = round1 (float_sum (valid_durations clock 0 jobs))
  /\ records = zip_experience (List.filter parses jobs) (valid_durations clock 0 jobs)
  /\ map stored_experience records
     = map (fun d => Some (round1 d)) (valid_durations clock 0 jobs).
Proof.
  intros H.
  assert (Hrec : forallb is_job_record jobs = true)
    by (eapply experience_loop_returned; exact H).
  unfold calculate_experience in H.
  rewrite experience_loop_records in H by assumption.
  inversion H; subst. split; [reflexivity | split; [reflexivity |]].
  simpl. now apply stored_after_zip.
Qed.

(** *** The ranges of a run *)

Lemma valid_ranges_proper (clock : nat -> datetime) (jobs : list json) :
  (forall n, valid_datetime (clock n)) ->
  forall tick, Forall proper_range (valid_ranges clock tick jobs).
Proof.
  intros Hclock.
  induction jobs as [| job jobs IH]; intros tick; [constructor |].
  cbn [valid_ranges]. unfold parsed_range.
  destruct (dates_of job) as [s |]; [| apply IH].
  destruct (parse_employment_dates s) as [[start_date e] |] eqn:Ep; [| apply IH].
  apply parse_employment_dates_first_instants in Ep. destruct Ep as [Hs He].
  destruct e as [end_date |]; (constructor; [| apply IH]); split; try exact Hs.
  - unfold valid_datetime. cbn [snd]. lia.
  - apply Hclock.
Qed.

Lemma valid_ranges_length (clock : nat -> datetime) (jobs : list json) :
  forall tick, (length (valid_ranges clock tick jobs) <= length jobs)%nat.
Proof.
  induction jobs as [| job jobs IH]; intros tick; [reflexivity |].
  cbn [valid_ranges length].
  destruct (parsed_range job) as [[start_date [end_date |]] |]; cbn [length].
  - specialize (IH tick). lia.
  - specialize (IH (S tick)). lia.
  - specialize (IH tick). lia.
Qed.

Lemma proper_range_years (range : datetime * datetime) :
  proper_range range ->
  -119988 <= range_months range <= 119988
  /\ (experience_between (fst range) (snd range) == inject_Z (range_months range) / 12)%Q
  /\ (Qabs (experience_years (fst range) (snd range) - inject_Z (range_months range) / 12)
      <= 1 # 549755813888)%Q
  /\ round1 (experience_years (fst range) (snd range))
     = round1 (inject_Z (range_months range) / 12)
  /\ (0 <= range_months range -> (0 <= experience_years (fst range) (snd range))%Q)
  /\ (range_months range mod 3 = 0 ->
      (experience_years (fst range) (snd range) == inject_Z (range_months range) / 12)%Q).
Proof.
  intros [(Hys & Hms & Hds & Hts) (Hye & Hme & Hde & Hte)].
  destruct (experience_years_months (fst range) (snd range))
    as (H1 & H2 & H3 & H4 & H5 & H6); try assumption.
  auto 7.
Qed.

(** The total of a run on one record: the first addition, to the integer
    zero, changes nothing. *)
Lemma single_total (range : datetime * datetime) :
  proper_range range ->
  round1 (Binary64.fadd 0 (experience_years (fst range) (snd range)))
  = round1 (inject_Z (range_months range) / 12).
Proof.
  intros Hrange.
  destruct (proper_range_years range Hrange) as (Hm & _ & Hf & _ & _ & Hexact).
  set (f := experience_years (fst range) (snd range)) in *.
  set (m := range_months range) in *.
  assert (Hmq : (- (119988) <= inject_Z m)%Q /\ (inject_Z m <= 119988)%Q).
  { assert (H1 : (inject_Z (-119988) <= inject_Z m)%Q) by (rewrite <- Zle_Qle; lia).
    assert (H2 : (inject_Z m <= inject_Z 119988)%Q) by (rewrite <- Zle_Qle; lia).
    change (inject_Z (-119988)) with (- (119988))%Q in H1.
    change (inject_Z 119988) with 119988%Q in H2. split; lra. }
  apply Qabs_Qle_condition in Hf.
  destruct (Z.eq_dec (m mod 6) 3) as [H6 | H6].
  - assert (H3 : m mod 3 = 0) by (Z.to_euclidean_division_equations; lia).
    specialize (Hexact H3).
    assert (Er : m = 3 * (m / 3)) by (Z.to_euclidean_division_equations; lia).
    assert (Eq : (0 + f == inject_Z (m / 3) / 4)%Q).
    { rewrite Hexact. rewrite Er at 1. rewrite inject_Z_mult. field. }
    apply round1_comp. unfold Binary64.fadd.
    rewrite (RN_quarters _ _ Eq); [rewrite Hexact; ring |].
    unfold Qdiv in Hf. change (/ 12)%Q with (1 # 12)%Q in Hf.
    apply Qabs_case; intros; change (inject_Z (2 ^ 48)) with 281474976710656%Q; lra.
  - apply round1_twelfths; [| exact H6].
    assert (He : (Qabs (Binary64.RN (0 + f) - (0 + f)) <= 1 # 1099511627776)%Q).
    { eapply Qle_trans; [apply (RN_error (0 + f) 14); [lia |] |].
      - unfold Qdiv in Hf. change (/ 12)%Q with (1 # 12)%Q in Hf.
        apply Qabs_case; intros; change (inject_Z (2 ^ 14)) with 16384%Q; lra.
      - apply Qle_lteq. right. reflexivity. }
    apply Qabs_Qle_condition in He.
    unfold Binary64.fadd. apply Qabs_Qle_condition.
    unfold Qdiv in *. change (/ 12)%Q with (1 # 12)%Q in *. split; lra.
Qed.

(** A negative number of twelfths rounds to minus one tenth or less. *)
Lemma round1_negative_twelfths (months : Z) :
  months < 0 -> (round1 (inject_Z months / 12) <= - (1 # 10))%Q.
Proof.
  intros Hm.
  destruct (round_half_even_close (inject_Z months / 12 * 10)) as [Hlo _].
  assert (Hq : (inject_Z months <= - (1))%Q).
  { change (- (1))%Q with (inject_Z (-1)). rewrite <- Zle_Qle. lia. }
  unfold round1. rewrite tenths.
  set (z := round_half_even (inject_Z months / 12 * 10)) in *.
  assert (Hz : z <= -1).
  { assert (H : (inject_Z z < inject_Z 0)%Q).
    { change (inject_Z 0) with 0%Q.
      unfold Qdiv in Hlo. change (/ 12)%Q with (1 # 12)%Q in Hlo. lra. }
    rewrite <- Zlt_Qlt in H. lia. }
  unfold Qle. simpl. lia.
Qed.

Lemma fold_fadd_nonneg (l : list Q) :
  forall total, (0 <= total)%Q -> Forall (fun d => (0 <= d)%Q) l ->
                (0 <= fold_left Binary64.fadd l total)%Q.
Proof.
  induction l as [| d l IH]; intros total Ht Hl; [exact Ht |].
  inversion Hl; subst. simpl. apply IH; [| assumption].
  apply RN_nonneg. lra.
Qed.

Lemma valid_durations_nonneg (clock : nat -> datetime) (jobs : list json) :
  (forall n, valid_datetime (clock n)) ->
  Forall (in_order clock) jobs ->
  forall tick, Forall (fun d => (0 <= d)%Q) (valid_durations clock tick jobs).
Proof.
  intros Hclock Hord.
  induction Hord as [| job jobs Hjob _ IH]; intros tick; [constructor |].
  rewrite valid_durations_step. unfold in_order in Hjob. unfold parsed_range in *.
  destruct (dates_of job) as [s |]; [| apply IH].
  destruct (parse_employment_dates s) as [[start_date e] |] eqn:Ep; [| apply IH].
  apply parse_employment_dates_first_instants in Ep.
  destruct Ep as [(Hys & Hms & Hds & Hts) He].
  destruct e as [end_date |].
  - destruct He as (Hye & Hme & Hde & Hte).
    constructor; [| apply IH].
    destruct (experience_years_months start_date end_date)
      as (_ & _ & _ & _ & _ & Hpos); try lia.
    apply Hpos.
    destruct (settled_months_in_order start_date end_date) as [-> H0]; auto.
  - constructor; [| apply IH].
    destruct (Hclock tick) as (Hyc & Hmc & Hdc & Htc).
    destruct (experience_years_months start_date (clock tick))
      as (_ & _ & _ & _ & _ & Hpos); try lia.
    apply Hpos.
    destruct (settled_months_in_order start_date (clock tick)) as [-> H0]; auto.
Qed.

Lemma lower_no_dash (w p : string) :
  lower w = p -> no_dash p = true -> no_dash w = true.
Proof.
  revert p. induction w as [| c w IH]; intros p E Hp; [reflexivity |].
  simpl in E. subst p. simpl in Hp. apply andb_true_iff in Hp. destruct Hp as [Hc Hw].
  simpl. rewrite (IH _ eq_refl Hw), andb_true_r.
  destruct (Ascii.eqb_spec c "-") as [-> | _]; [| reflexivity].
  discriminate Hc.
Qed.

Lemma ongoing_word_no_dash (w : string) : ongoing_word w -> no_dash w = true.
Proof.
  intros [E | E]; apply (lower_no_dash _ _ E); reflexivity.
Qed.

Lemma month_year_not_ongoing (m y : Z) :
  1 <= m <= 12 ->
  String.eqb (lower (month_year m y)) "present"
  || String.eqb (lower (month_year m y)) "current" = false.
Proof.
  intros Hm. unfold month_year. rewrite lower_app.
  assert (Hcases : m = 1 \/ m = 2 \/ m = 3 \/ m = 4 \/ m = 5 \/ m = 6 \/ m = 7
                   \/ m = 8 \/ m = 9 \/ m = 10 \/ m = 11 \/ m = 12) by lia.
  repeat (destruct Hcases as [-> | Hcases]; [reflexivity |]).
  subst. reflexivity.
Qed.

Lemma parse_closed_range (m1 y1 m2 y2 : Z) :
  1 <= m1 <= 12 -> 1 <= y1 <= 9999 -> 1 <= m2 <= 12 -> 1 <= y2 <= 9999 ->
  parse_employment_dates (closed_range m1 y1 m2 y2)
  = Some (mkdt y1 m1 1 0, Until (mkdt y2 m2 1 0)).
Proof.
  intros Hm1 Hy1 Hm2 Hy2. unfold parse_employment_dates, closed_range.
  rewrite split_dash_app by (apply no_dash_month_year; lia).
  rewrite split_dash_no_dash by (apply no_dash_month_year; lia).
  rewrite strptime_month_year by assumption.
  rewrite month_year_not_ongoing by assumption.
  rewrite strptime_month_year by assumption.
  reflexivity.
Qed.

(** The year 0000 is refused, at the start as at the end. *)
Lemma parse_year_zero (m1 y1 m2 y2 : Z) :
  1 <= m1 <= 12 -> 0 <= y1 <= 9999 -> 1 <= m2 <= 12 -> 0 <= y2 <= 9999 ->
  y1 = 0 \/ y2 = 0 ->
  parse_employment_dates (closed_range m1 y1 m2 y2) = None.
Proof.
  intros Hm1 Hy1 Hm2 Hy2 Hzero. unfold parse_employment_dates, closed_range.
  rewrite split_dash_app by (apply no_dash_month_year; lia).
  rewrite split_dash_no_dash by (apply no_dash_month_year; lia).
  assert (Hz : forall m, 1 <= m <= 12 -> strptime (month_year m 0) = None).
  { intros m Hm. unfold strptime, month_year.
    rewrite match_month_title by assumption.
    rewrite spaces1_year_text by lia.
    rewrite year4_text by lia. reflexivity. }
  destruct (Z.eq_dec y1 0) as [-> | Hy].
  - now rewrite Hz.
  - rewrite strptime_month_year by (try assumption; lia).
    rewrite month_year_not_ongoing by assumption.
    destruct Hzero as [-> | ->]; [lia | now rewrite Hz].
Qed.

Lemma parse_open_range (m y : Z) (word : string) :
  1 <= m <= 12 -> 1 <= y <= 9999 -> ongoing_word word ->
  parse_employment_dates (open_range m y word) = Some (mkdt y m 1 0, Ongoing).
Proof.
  intros Hm Hy Hw. unfold parse_employment_dates, open_range.
  rewrite split_dash_app by (apply no_dash_month_year; lia).
  rewrite split_dash_no_dash by (now apply ongoing_word_no_dash).
  rewrite strptime_month_year by assumption.
  destruct Hw as [-> | ->]; reflexivity.
Qed.

End ExperienceFacts.

(** ** The running total *)

Section FloatSumFacts.
Import Text Strptime Experience Records Wellformed Binary64.

(** The running total of the loop stays close to the exact sum: every
    addition is off by at most [2^-24] as long as the total is below
    [2^30], and every duration by at most [2^-39]. *)
Lemma fold_fadd_close (ranges : list (datetime * datetime)) :
  Forall proper_range ranges ->
  forall (a : Q) (M j : Z),
    0 <= j -> j + Z.of_nat (length ranges) <= 100000 ->
    - (j * 119988) <= M <= j * 119988 ->
    (Qabs (a - inject_Z M / 12)
     <= inject_Z j * ((1 # 16777216) + (1 # 549755813888)))%Q ->
    (Qabs (fold_left fadd
             (map (fun range => experience_years (fst range) (snd range)) ranges) a
           - inject_Z (fold_left Z.add (map range_months ranges) M) / 12)
     <= inject_Z (j + Z.of_nat (length ranges))
        * ((1 # 16777216) + (1 # 549755813888)))%Q.
Proof.
  induction 1 as [| range ranges Hrange _ IH]; intros a M j Hj Hlen HM Ha.
  - cbn [map fold_left length]. now rewrite Z.add_0_r.
  - cbn [map fold_left length].
    destruct (proper_range_years range Hrange) as (Hm & _ & Hf & _ & _).
    set (f := experience_years (fst range) (snd range)) in *.
    set (m := range_months range) in *.
    cbn [length] in Hlen. rewrite Nat2Z.inj_succ in *.
    replace (j + Z.succ (Z.of_nat (length ranges)))
      with ((j + 1) + Z.of_nat (length ranges)) by lia.
    apply IH; [lia | lia | lia |].
    assert (HJ : (0 <= inject_Z j)%Q /\ (inject_Z j <= 100000)%Q).
    { split; [rewrite <- (Zle_Qle 0); lia |].
      change 100000%Q with (inject_Z 100000). rewrite <- Zle_Qle. lia. }
    assert (HMq : (- (inject_Z j * 119988) - 119988 <= inject_Z (M + m))%Q
                  /\ (inject_Z (M + m) <= inject_Z j * 119988 + 119988)%Q).
    { assert (H1 : (inject_Z (- (j * 119988) - 119988) <= inject_Z (M + m))%Q)
        by (rewrite <- Zle_Qle; lia).
      assert (H2 : (inject_Z (M + m) <= inject_Z (j * 119988 + 119988))%Q)
        by (rewrite <- Zle_Qle; lia).
      unfold Z.sub in H1.
      rewrite !inject_Z_plus, !inject_Z_opp, !inject_Z_mult in H1.
      rewrite !inject_Z_plus, !inject_Z_mult in H2.
      change (inject_Z 119988) with 119988%Q in H1, H2.
      rewrite inject_Z_plus. split; lra. }
    rewrite !inject_Z_plus in *. change (inject_Z 1) with 1%Q.
    apply Qabs_Qle_condition in Ha. apply Qabs_Qle_condition in Hf.
    unfold Qdiv in *. change (/ 12)%Q with (1 # 12)%Q in *.
    assert (He : (Qabs (RN (a + f) - (a + f)) <= 1 # 16777216)%Q).
    { eapply Qle_trans; [apply (RN_error (a + f) 30); [lia |] |].
      - change (inject_Z (2 ^ 30)) with 1073741824%Q.
        apply Qabs_case; intros; lra.
      - apply Qle_lteq. right. reflexivity. }
    apply Qabs_Qle_condition in He.
    unfold fadd. apply Qabs_Qle_condition. split; lra.
Qed.

(** The float total of at most 100000 proper ranges is within one
    hundredth of the exact total. *)
Lemma float_sum_close (ranges : list (datetime * datetime)) :
  Forall proper_range ranges -> Z.of_nat (length ranges) <= 100000 ->
  (Qabs (float_sum (map (fun range => experience_years (fst range) (snd range)) ranges)
         - inject_Z (total_months ranges) / 12)
   <= 1 # 100)%Q.
Proof.
  intros Hranges Hlen.
  pose proof (fold_fadd_close ranges Hranges 0 0 0 ltac:(lia) ltac:(lia) ltac:(lia))
    as H.
  unfold float_sum, total_months.
  eapply Qle_trans; [apply H |].
  - apply Qabs_Qle_condition. change (inject_Z 0) with 0%Q. unfold Qdiv. split; lra.
  - assert (Hn : (inject_Z (0 + Z.of_nat (length ranges)) <= 100000)%Q).
    { change 100000%Q with (inject_Z 100000). rewrite <- Zle_Qle. lia. }
    lra.
Qed.

(** The exact sum of the durations is the total of the months over 12. *)
Lemma fold_plus_months (ranges : list (datetime * datetime)) :
  Forall proper_range ranges ->
  forall (b : Q) (M : Z),
    (b == inject_Z M / 12)%Q ->
    (fold_left Qplus
       (map (fun range => experience_between (fst range) (snd range)) ranges) b
     == inject_Z (fold_left Z.add (map range_months ranges) M) / 12)%Q.
Proof.
  induction 1 as [| range ranges Hrange _ IH]; intros b M Hb; [exact Hb |].
  cbn [map fold_left]. apply IH.
  destruct (proper_range_years range Hrange) as (_ & He & _).
  rewrite Hb, He, inject_Z_plus. field.
Qed.

(** The stored values, taken together, are within one twentieth per
    record of the exact total. *)
Lemma fold_round1_months (ranges : list (datetime * datetime)) :
  Forall proper_range ranges ->
  forall (b : Q) (M : Z) (e : Q),
    (Qabs (b - inject_Z M / 12) <= e)%Q ->
    (Qabs (fold_left Qplus
             (map round1
                (map (fun range => experience_years (fst range) (snd range)) ranges)) b
           - inject_Z (fold_left Z.add (map range_months ranges) M) / 12)
     <= e + inject_Z (Z.of_nat (length ranges)) / 20)%Q.
Proof.
  induction 1 as [| range ranges Hrange _ IH]; intros b M e Hb.
  - cbn [map fold_left length]. change (inject_Z (Z.of_nat 0)) with 0%Q.
    unfold Qdiv in *. apply Qabs_Qle_condition in Hb. apply Qabs_Qle_condition.
    split; lra.
  - cbn [map fold_left length].
    destruct (proper_range_years range Hrange) as (_ & _ & _ & Hr & _).
    rewrite Hr.
    destruct (round1_close (inject_Z (range_months range) / 12)) as [H1 H2].
    specialize (IH (b + round1 (inject_Z (range_months range) / 12))%Q
                  (M + range_months range) (e + (1 # 20))%Q).
    rewrite Nat2Z.inj_succ, <- Z.add_1_r, inject_Z_plus.
    change (inject_Z 1) with 1%Q.
    eapply Qle_trans; [apply IH |].
    + rewrite inject_Z_plus. apply Qabs_Qle_condition in Hb. apply Qabs_Qle_condition.
      unfold Qdiv in *. change (/ 12)%Q with (1 # 12)%Q in *. split; lra.
    + unfold Qdiv. change (/ 20)%Q with (1 # 20)%Q. lra.
Qed.

End FloatSumFacts.

(** ** Statements about the experience aggregator *)

Section ExperienceClaimFacts.
Import Text Strptime Experience Records Wellformed.

(** The values stored by a run are the exact durations rounded to one
    decimal. *)
Lemma rounded_floats_are_rounded_exact (ranges : list (datetime * datetime)) :
  Forall proper_range ranges ->
  map (fun d => Some (round1 d))
    (map (fun range => experience_years (fst range) (snd range)) ranges)
  = map (fun d => Some (round1 d))
      (map (fun range => experience_between (fst range) (snd range)) ranges).
Proof.
  induction 1 as [| range ranges Hrange _ IH]; [reflexivity |].
  cbn [map]. rewrite IH.
  destruct (proper_range_years range Hrange) as (_ & He & _ & Hr & _).
  rewrite Hr, (round1_comp _ _ He). reflexivity.
Qed.

(** The total of a run against the exact sum of the durations. *)
Lemma total_against_exact_sum (clock : nat -> datetime) (jobs : list json) :
  (forall n, valid_datetime (clock n)) -> Z.of_nat (length jobs) <= 100000 ->
  let months := total_months (valid_ranges clock 0 jobs) in
  (sum_years (exact_durations clock 0 jobs) == inject_Z months / 12)%Q
  /\ (Qabs (float_sum (valid_durations clock 0 jobs) - inject_Z months / 12)
      <= 1 # 100)%Q
  /\ (Qabs (round1 (float_sum (valid_durations clock 0 jobs))
            - sum_years (exact_durations clock 0 jobs)) <= 1 # 20)%Q
  /\ (months mod 6 <> 3 ->
      round1 (float_sum (valid_durations clock 0 jobs))
      = round1 (sum_years (exact_durations clock 0 jobs))).
Proof.
  intros Hclock Hlen months.
  pose proof (valid_ranges_proper clock jobs Hclock 0%nat) as Hranges.
  pose proof (valid_ranges_length clock jobs 0%nat) as Hshort.
  assert (Hsum : (sum_years (exact_durations clock 0 jobs) == inject_Z months / 12)%Q).
  { unfold sum_years, exact_durations, months, total_months.
    apply fold_plus_months; [exact Hranges | reflexivity]. }
  assert (Hclose : (Qabs (float_sum (valid_durations clock 0 jobs)
                          - inject_Z months / 12) <= 1 # 100)%Q).
  { unfold valid_durations, months. apply float_sum_close; [exact Hranges | lia]. }
  split; [exact Hsum |].
  split; [exact Hclose |].
  split.
  - pose proof (round1_near_twelfths months _ Hclose) as H.
    apply Qabs_Qle_condition in H. apply Qabs_Qle_condition.
    split; lra.
  - intros Htie. rewrite (round1_twelfths months _ Hclose Htie).
    symmetry. apply round1_comp. exact Hsum.
Qed.

End ExperienceClaimFacts.

Section ExperienceClaims.
Import Text Strptime Experience Records Wellformed.

(** C1.  On a sequence of job records (objects whose [employment_dates]
    is a text or is absent), [calculate_experience] returns exactly the
    records whose dates parse, in input order, each with its duration
    stored rounded to one decimal; a record whose text does not parse is
    left out and does not stop the run; the total is the float sum of the
    durations rounded to one decimal.  But an entry that is not an
    object, or whose [employment_dates] is not a text, stops the run with
    an [AttributeError], whatever comes after it: the handler catches
    [ValueError] only. *)
Theorem unparsable_dropped_non_text_raises (clock : nat -> datetime)
    (jobs before after : list json) (entry : json) :
  (forallb is_job_record jobs = true ->
   calculate_experience clock jobs =
     Returned (round1 (float_sum (valid_durations clock 0 jobs)),
               zip_experience (List.filter parses jobs) (valid_durations clock 0 jobs))
   /\ length (valid_durations clock 0 jobs) = length (List.filter parses jobs))
  /\ (forallb is_job_record before = true -> is_job_record entry = false ->
      calculate_experience clock (before ++ entry :: after) = Raised AttributeError).
Proof.
  split.
  - intros Hrec. split.
    + unfold calculate_experience, float_sum.
      rewrite experience_loop_records by assumption. reflexivity.
    + apply valid_durations_length.
  - intros Hrec Hentry. unfold calculate_experience.
    now apply experience_loop_raises.
Qed.

Lemma unparsable_dropped_non_text_raises_witness :
  forallb is_job_record short_jobs = true
  /\ forallb is_job_record [job "Jan 2015 - Dec 2020"] = true
  /\ is_job_record (JDict [ ("employment_dates", JNum 2015) ]) = false
  /\ (calculate_experience sample_clock short_jobs =
        Returned (round1 (float_sum (valid_durations sample_clock 0 short_jobs)),
                  zip_experience (List.filter parses short_jobs)
                    (valid_durations sample_clock 0 short_jobs))
      /\ length (valid_durations sample_clock 0 short_jobs)
         = length (List.filter parses short_jobs))
  /\ calculate_experience sample_clock
       ([job "Jan 2015 - Dec 2020"] ++ JDict [ ("employment_dates", JNum 2015) ]
        :: [job "January 2015 - January 2017"])
     = Raised AttributeError.
Proof.
  assert (H1 : forallb is_job_record short_jobs = true) by reflexivity.
  assert (H2 : forallb is_job_record [job "Jan 2015 - Dec 2020"] = true) by reflexivity.
  assert (H3 : is_job_record (JDict [ ("employment_dates", JNum 2015) ]) = false)
    by reflexivity.
  split; [exact H1 |]. split; [exact H2 |]. split; [exact H3 |].
  split.
  - exact (proj1 (unparsable_dropped_non_text_raises sample_clock short_jobs
                    [job "Jan 2015 - Dec 2020"] [job "January 2015 - January 2017"]
                    (JDict [ ("employment_dates", JNum 2015) ])) H1).
  - exact (proj2 (unparsable_dropped_non_text_raises sample_clock short_jobs
                    [job "Jan 2015 - Dec 2020"] [job "January 2015 - January 2017"]
                    (JDict [ ("employment_dates", JNum 2015) ])) H2 H3).
Defined.

(** The failing input of C1: the first entry has null dates and the
    second is in order.  The run raises [AttributeError]; without the
    first entry it returns the second record and a total of 2.0, which is
    what excluding the malformed record would give. *)
Lemma null_dates_stop_the_run :
  calculate_experience sample_clock null_dates_jobs = Raised AttributeError
  /\ calculate_experience sample_clock [job "January 2015 - January 2017"]
     = Returned ((20 # 10)%Q, [with_experience (job "January 2015 - January 2017") 2]).
Proof. split; vm_compute; reflexivity. Qed.

(** C2, as amended.  [total_years] is the float sum of the unrounded
    durations, rounded once at the end; the one-decimal value stored in
    each record is rounded separately and does not enter the total.  For
    dates of the calendar and at most 100000 jobs, the stored values are
    the exact durations rounded, and the total is a one-decimal number
    within 0.05 of the exact sum of the durations: the rounding of that
    sum, unless the sum lies halfway between two one-decimal numbers. *)
Theorem total_years_rounds_unrounded_sum (clock : nat -> datetime) (jobs : list json)
    (total_years : Q) (records : list json) :
  calculate_experience clock jobs = Returned (total_years, records) ->
  total_years = round1 (float_sum (valid_durations clock 0 jobs))
  /\ map stored_experience records
     = map (fun d => Some (round1 d)) (valid_durations clock 0 jobs)
  /\ ((forall n, valid_datetime (clock n)) -> Z.of_nat (length jobs) <= 100000 ->
      map stored_experience records
      = map (fun d => Some (round1 d)) (exact_durations clock 0 jobs)
      /\ (Qabs (total_years - sum_years (exact_durations clock 0 jobs)) <= 1 # 20)%Q
      /\ (total_months (valid_ranges clock 0 jobs) mod 6 <> 3 ->
          total_years = round1 (sum_years (exact_durations clock 0 jobs)))).
Proof.
  intros H.
  destruct (calculate_experience_returned clock jobs total_years records H)
    as (Htotal & _ & Hstored).
  split; [exact Htotal |].
  split; [exact Hstored |].
  intros Hclock Hlen.
  destruct (total_against_exact_sum clock jobs Hclock Hlen) as (_ & _ & Hnear & Hsame).
  cbv zeta in Hsame. subst total_years.
  split; [| split; assumption].
  rewrite Hstored. unfold valid_durations, exact_durations.
  apply rounded_floats_are_rounded_exact. now apply valid_ranges_proper.
Qed.

Lemma total_years_rounds_unrounded_sum_witness :
  calculate_experience sample_clock two_month_jobs
    = Returned ((3 # 10)%Q,
                [ with_experience (job "January 2015 - March 2015") (2 # 12);
                  with_experience (job "January 2016 - March 2016") (2 # 12) ])
  /\ (forall n, valid_datetime (sample_clock n))
  /\ Z.of_nat (length two_month_jobs) <= 100000
  /\ total_months (valid_ranges sample_clock 0 two_month_jobs) mod 6 <> 3
  /\ (3 # 10)%Q = round1 (float_sum (valid_durations sample_clock 0 two_month_jobs))
  /\ map stored_experience
       [ with_experience (job "January 2015 - March 2015") (2 # 12);
         with_experience (job "January 2016 - March 2016") (2 # 12) ]
     = map (fun d => Some (round1 d)) (exact_durations sample_clock 0 two_month_jobs)
  /\ (Qabs ((3 # 10) - sum_years (exact_durations sample_clock 0 two_month_jobs))
      <= 1 # 20)%Q
  /\ (3 # 10)%Q = round1 (sum_years (exact_durations sample_clock 0 two_month_jobs)).
Proof.
  assert (H : calculate_experience sample_clock two_month_jobs
              = Returned ((3 # 10)%Q,
                          [ with_experience (job "January 2015 - March 2015") (2 # 12);
                            with_experience (job "January 2016 - March 2016") (2 # 12) ]))
    by (vm_compute; reflexivity).
  assert (Hclock : forall n, valid_datetime (sample_clock n))
    by (intros n; unfold valid_datetime, sample_clock; simpl; lia).
  assert (Hlen : Z.of_nat (length two_month_jobs) <= 100000) by (simpl; lia).
  assert (Htie : total_months (valid_ranges sample_clock 0 two_month_jobs) mod 6 <> 3)
    by (vm_compute; discriminate).
  split; [exact H |]. split; [exact Hclock |]. split; [exact Hlen |].
  split; [exact Htie |].
  destruct (total_years_rounds_unrounded_sum sample_clock two_month_jobs _ _ H)
    as (H1 & _ & H3).
  destruct (H3 Hclock Hlen) as (H4 & H5 & H6).
  split; [exact H1 |]. split; [exact H4 |]. split; [exact H5 |].
  exact (H6 Htie).
Defined.

(** C2 as stated fails: for two two-month jobs the code returns 0.3, the
    rounding of the sum of the two durations, while rounding the sum of
    the two rounded per-job values gives 0.4. *)
Lemma total_years_is_not_sum_of_rounded :
  exists records,
    calculate_experience sample_clock two_month_jobs = Returned ((3 # 10)%Q, records)
    /\ map stored_experience records = [Some (2 # 10)%Q; Some (2 # 10)%Q]
    /\ exact_durations sample_clock 0 two_month_jobs = [(2 # 12)%Q; (2 # 12)%Q]
    /\ (round1 ((2 # 10) + (2 # 10)) == 4 # 10)%Q
    /\ ~ ((3 # 10) == round1 ((2 # 10) + (2 # 10)))%Q.
Proof.
  eexists. split; [vm_compute; reflexivity |].
  split; [reflexivity |].
  split; [reflexivity |].
  split; [reflexivity |].
  intros H. vm_compute in H. discriminate H.
Qed.

(** The additions are those of floats: for a job of one month and a job
    of twenty months the exact sum is 1.75, which rounds to 1.8, but the
    sum of the two floats lies just below 1.75 and the total is 1.7. *)
Example one_and_twenty_months :
  exists records,
    calculate_experience sample_clock uneven_jobs = Returned ((17 # 10)%Q, records)
    /\ map stored_experience records = [Some (1 # 10)%Q; Some (17 # 10)%Q]
    /\ (sum_years (exact_durations sample_clock 0 uneven_jobs) == 7 # 4)%Q
    /\ (round1 (sum_years (exact_durations sample_clock 0 uneven_jobs)) == 18 # 10)%Q
    /\ (float_sum (valid_durations sample_clock 0 uneven_jobs) < 7 # 4)%Q
    /\ total_months (valid_ranges sample_clock 0 uneven_jobs) mod 6 = 3.
Proof.
  eexists. split; [vm_compute; reflexivity |].
  repeat split; vm_compute; reflexivity.
Qed.

(** C3, as amended.  When no range that parses ends before it starts (an
    ongoing range being compared with the clock), the returned
    [total_years] is at least 0 and so is the [experience_years] stored in
    every output record.  A closed range whose end month is earlier than
    its start month parses, and a run on such a record alone stores and
    returns the number of months from the start to the end, which is
    negative, over 12 and rounded to one decimal: at most -0.1. *)
Theorem experience_nonnegative_in_order (clock : nat -> datetime) (jobs : list json)
    (total_years : Q) (records : list json) (m1 y1 m2 y2 : Z)
    (d : list (string * json)) :
  (forall n, valid_datetime (clock n)) ->
  (Forall (in_order clock) jobs ->
   calculate_experience clock jobs = Returned (total_years, records) ->
   (0 <= total_years)%Q
   /\ Forall (fun record => exists q, stored_experience record = Some q /\ (0 <= q)%Q)
        records)
  /\ (1 <= m1 <= 12 -> 1 <= y1 <= 9999 -> 1 <= m2 <= 12 -> 1 <= y2 <= 9999 ->
      (y2 - y1) * 12 + (m2 - m1) < 0 ->
      Dict.get "employment_dates" d = Some (JStr (closed_range m1 y1 m2 y2)) ->
      calculate_experience clock [JDict d]
      = Returned (round1 (inject_Z ((y2 - y1) * 12 + (m2 - m1)) / 12),
                  [ JDict (Dict.set "experience_years"
                             (JNum (round1 (inject_Z ((y2 - y1) * 12 + (m2 - m1)) / 12)))
                             d) ])
      /\ (round1 (inject_Z ((y2 - y1) * 12 + (m2 - m1)) / 12) <= - (1 # 10))%Q).
Proof.
  intros Hclock. split.
  - intros Hord H.
    pose proof (valid_durations_nonneg clock jobs Hclock Hord 0%nat) as Hpos.
    destruct (calculate_experience_returned clock jobs total_years records H)
      as (-> & _ & Hstored).
    split.
    + apply round1_nonneg. apply fold_fadd_nonneg; [lra | exact Hpos].
    + clear H. revert Hstored Hpos. generalize (valid_durations clock 0 jobs).
      induction records as [| r records IH]; intros ds Hs Hp; [constructor |].
      destruct ds as [| x ds]; [discriminate |].
      simpl in Hs. inversion Hs as [[Hr Hrest]]. inversion Hp; subst.
      constructor.
      * exists (round1 x). split; [assumption | now apply round1_nonneg].
      * now apply (IH ds).
  - intros Hm1 Hy1 Hm2 Hy2 Hneg Hget.
    split; [| now apply round1_negative_twelfths].
    assert (Hrange : proper_range (mkdt y1 m1 1 0, mkdt y2 m2 1 0))
      by (unfold proper_range, valid_datetime; cbn [fst snd dt_year dt_month dt_day dt_time];
          lia).
    pose proof (single_total _ Hrange) as Htotal.
    destruct (proper_range_years _ Hrange) as (_ & _ & _ & Hr & _).
    unfold range_months in Htotal, Hr. cbn [fst snd] in Htotal, Hr.
    rewrite settled_months_first_instants in Htotal, Hr by reflexivity.
    change (month_difference (mkdt y2 m2 1 0) (mkdt y1 m1 1 0))
      with ((y2 - y1) * 12 + (m2 - m1)) in Htotal, Hr.
    unfold calculate_experience. cbn [experience_loop]. rewrite Hget.
    cbn [default from_option id].
    rewrite parse_closed_range by assumption.
    cbn [experience_loop app]. rewrite Htotal, Hr. reflexivity.
Qed.

Lemma experience_nonnegative_in_order_witness :
  (forall n, valid_datetime (sample_clock n)) /\
  Forall (in_order sample_clock) [job "March 2020 - Present"; job "May 2015 - July 2017"] /\
  calculate_experience sample_clock [job "March 2020 - Present"; job "May 2015 - July 2017"]
    = Returned ((88 # 10)%Q,
                [ with_experience (job "March 2020 - Present") (80 # 12);
                  with_experience (job "May 2015 - July 2017") (26 # 12) ]) /\
  ((0 <= 88 # 10)%Q
   /\ Forall (fun record => exists q, stored_experience record = Some q /\ (0 <= q)%Q)
        [ with_experience (job "March 2020 - Present") (80 # 12);
          with_experience (job "May 2015 - July 2017") (26 # 12) ]) /\
  (2015 - 2017) * 12 + (1 - 1) < 0 /\
  Dict.get "employment_dates" [ ("employment_dates", JStr "January 2017 - January 2015") ]
  = Some (JStr (closed_range 1 2017 1 2015)) /\
  (calculate_experience sample_clock
     [ JDict [ ("employment_dates", JStr "January 2017 - January 2015") ] ]
   = Returned (round1 (inject_Z ((2015 - 2017) * 12 + (1 - 1)) / 12),
               [ JDict (Dict.set "experience_years"
                          (JNum (round1 (inject_Z ((2015 - 2017) * 12 + (1 - 1)) / 12)))
                          [ ("employment_dates", JStr "January 2017 - January 2015") ]) ])
   /\ (round1 (inject_Z ((2015 - 2017) * 12 + (1 - 1)) / 12) <= - (1 # 10))%Q).
Proof.
  assert (Hclock : forall n, valid_datetime (sample_clock n)).
  { intros n. unfold valid_datetime, sample_clock. simpl. lia. }
  assert (Hord : Forall (in_order sample_clock)
                   [job "March 2020 - Present"; job "May 2015 - July 2017"]).
  { repeat constructor. }
  assert (H : calculate_experience sample_clock
                [job "March 2020 - Present"; job "May 2015 - July 2017"]
              = Returned ((88 # 10)%Q,
                          [ with_experience (job "March 2020 - Present") (80 # 12);
                            with_experience (job "May 2015 - July 2017") (26 # 12) ]))
    by (vm_compute; reflexivity).
  assert (Hneg : (2015 - 2017) * 12 + (1 - 1) < 0) by lia.
  assert (Hget : Dict.get "employment_dates"
                   [ ("employment_dates", JStr "January 2017 - January 2015") ]
                 = Some (JStr (closed_range 1 2017 1 2015))) by reflexivity.
  split; [exact Hclock |].
  split; [exact Hord |].
  split; [exact H |].
  destruct (experience_nonnegative_in_order sample_clock
              [job "March 2020 - Present"; job "May 2015 - July 2017"]
              (88 # 10)%Q
              [ with_experience (job "March 2020 - Present") (80 # 12);
                with_experience (job "May 2015 - July 2017") (26 # 12) ]
              1 2017 1 2015
              [ ("employment_dates", JStr "January 2017 - January 2015") ] Hclock)
    as [Ha Hb].
  split; [exact (Ha Hord H) |].
  split; [exact Hneg |]. split; [exact Hget |].
  apply Hb; try lia. exact Hget.
Defined.

(** C3 as stated fails: a range written with its end before its start
    parses, and both the total and the stored value are -2.0. *)
Lemma reversed_range_is_negative :
  exists total_years record q,
    calculate_experience sample_clock reversed_jobs = Returned (total_years, [record])
    /\ stored_experience record = Some q
    /\ (total_years == -2)%Q /\ (q == -2)%Q
    /\ ~ (0 <= total_years)%Q /\ ~ (0 <= q)%Q.
Proof.
  eexists _, _, _. split; [vm_compute; reflexivity |].
  split; [reflexivity |].
  split; [reflexivity |].
  split; [reflexivity |].
  split; intros H; vm_compute in H; apply H; reflexivity.
Qed.

(** C4, as amended.  For every input ["<Month> <Year> - <Month> <Year>"]
    with full English month names and four-digit years from 0001 to 9999,
    the parse succeeds, and the duration is the whole years plus the
    remaining months over 12, both truncated toward zero, which is the
    difference of the calendar months over 12.  It is at least 0 exactly
    when the end month is not before the start month, and negative
    otherwise.  "January 2015 - January 2017" gives exactly 2.  The float
    that the code computes for it is within [2^-39] of this duration, has
    its sign, rounds to the same one-decimal number, and is exactly 2 in
    the example.  A year written 0000, at the start or at the end, is
    refused. *)
Theorem well_formed_range_duration (m1 y1 m2 y2 : Z) :
  1 <= m1 <= 12 -> 1 <= y1 <= 9999 -> 1 <= m2 <= 12 -> 1 <= y2 <= 9999 ->
  let months := (y2 - y1) * 12 + (m2 - m1) in
  let years := experience_between (mkdt y1 m1 1 0) (mkdt y2 m2 1 0) in
  parse_employment_dates (closed_range m1 y1 m2 y2)
    = Some (mkdt y1 m1 1 0, Until (mkdt y2 m2 1 0))
  /\ years = (inject_Z (Z.quot months 12) + inject_Z (Z.rem months 12) / 12)%Q
  /\ (years == inject_Z months / 12)%Q
  /\ ((0 <= years)%Q <-> 0 <= months)
  /\ ((years < 0)%Q <-> months < 0)
  /\ closed_range 1 2015 1 2017 = "January 2015 - January 2017"
  /\ (experience_between (mkdt 2015 1 1 0) (mkdt 2017 1 1 0) == 2)%Q
  /\ (Qabs (experience_years (mkdt y1 m1 1 0) (mkdt y2 m2 1 0) - years)
      <= 1 # 549755813888)%Q
  /\ ((0 <= experience_years (mkdt y1 m1 1 0) (mkdt y2 m2 1 0))%Q <-> 0 <= months)
  /\ round1 (experience_years (mkdt y1 m1 1 0) (mkdt y2 m2 1 0)) = round1 years
  /\ (experience_years (mkdt 2015 1 1 0) (mkdt 2017 1 1 0) == 2)%Q
  /\ parse_employment_dates (closed_range m1 0 m2 y2) = None
  /\ parse_employment_dates (closed_range m1 y1 m2 0) = None.
Proof.
  intros Hm1 Hy1 Hm2 Hy2 months years.
  split; [now apply parse_closed_range |].
  destruct (experience_between_months (mkdt y1 m1 1 0) (mkdt y2 m2 1 0))
    as [Hq He]; simpl; try lia.
  rewrite settled_months_first_instants in Hq, He by reflexivity.
  change (month_difference (mkdt y2 m2 1 0) (mkdt y1 m1 1 0)) with months in Hq, He.
  fold years in Hq, He.
  split; [exact Hq |].
  split; [exact He |].
  split; [rewrite He; apply twelfths_sign |].
  split; [rewrite He; apply twelfths_sign |].
  split; [reflexivity |].
  split; [reflexivity |].
  assert (Hrange : proper_range (mkdt y1 m1 1 0, mkdt y2 m2 1 0))
    by (unfold proper_range, valid_datetime; cbn [fst snd dt_year dt_month dt_day dt_time];
        lia).
  destruct (proper_range_years _ Hrange) as (_ & _ & Hclose & Hr & Hpos & _).
  unfold range_months in Hclose, Hr, Hpos. cbn [fst snd] in Hclose, Hr, Hpos.
  rewrite settled_months_first_instants in Hclose, Hr, Hpos by reflexivity.
  change (month_difference (mkdt y2 m2 1 0) (mkdt y1 m1 1 0)) with months
    in Hclose, Hr, Hpos.
  set (f := experience_years (mkdt y1 m1 1 0) (mkdt y2 m2 1 0)) in *.
  assert (Hc : (Qabs (f - years) <= 1 # 549755813888)%Q).
  { apply Qabs_Qle_condition in Hclose. apply Qabs_Qle_condition. split; lra. }
  split; [exact Hc |].
  split.
  { split; [| exact Hpos].
    intros Hf. destruct (Z.le_gt_cases 0 months) as [H0 | Hneg]; [exact H0 |].
    exfalso.
    assert (Hq1 : (inject_Z months <= - (1))%Q).
    { change (- (1))%Q with (inject_Z (-1)). rewrite <- Zle_Qle. lia. }
    apply Qabs_Qle_condition in Hclose.
    unfold Qdiv in Hclose. change (/ 12)%Q with (1 # 12)%Q in Hclose. lra. }
  split; [rewrite Hr; symmetry; apply round1_comp; exact He |].
  split; [vm_compute; reflexivity |].
  split; apply parse_year_zero; lia.
Qed.

Lemma well_formed_range_duration_witness :
  1 <= 3 <= 12 /\ 1 <= 2019 <= 9999 /\ 1 <= 11 <= 12 /\ 1 <= 2021 <= 9999 /\
  (parse_employment_dates (closed_range 3 2019 11 2021)
     = Some (mkdt 2019 3 1 0, Until (mkdt 2021 11 1 0))
   /\ experience_between (mkdt 2019 3 1 0) (mkdt 2021 11 1 0)
      = (inject_Z (Z.quot ((2021 - 2019) * 12 + (11 - 3)) 12)
         + inject_Z (Z.rem ((2021 - 2019) * 12 + (11 - 3)) 12) / 12)%Q
   /\ (experience_between (mkdt 2019 3 1 0) (mkdt 2021 11 1 0)
       == inject_Z ((2021 - 2019) * 12 + (11 - 3)) / 12)%Q
   /\ ((0 <= experience_between (mkdt 2019 3 1 0) (mkdt 2021 11 1 0))%Q
       <-> 0 <= (2021 - 2019) * 12 + (11 - 3))
   /\ ((experience_between (mkdt 2019 3 1 0) (mkdt 2021 11 1 0) < 0)%Q
       <-> (2021 - 2019) * 12 + (11 - 3) < 0)
   /\ closed_range 1 2015 1 2017 = "January 2015 - January 2017"
   /\ (experience_between (mkdt 2015 1 1 0) (mkdt 2017 1 1 0) == 2)%Q
   /\ (Qabs (experience_years (mkdt 2019 3 1 0) (mkdt 2021 11 1 0)
             - experience_between (mkdt 2019 3 1 0) (mkdt 2021 11 1 0))
       <= 1 # 549755813888)%Q
   /\ ((0 <= experience_years (mkdt 2019 3 1 0) (mkdt 2021 11 1 0))%Q
       <-> 0 <= (2021 - 2019) * 12 + (11 - 3))
   /\ round1 (experience_years (mkdt 2019 3 1 0) (mkdt 2021 11 1 0))
      = round1 (experience_between (mkdt 2019 3 1 0) (mkdt 2021 11 1 0))
   /\ (experience_years (mkdt 2015 1 1 0) (mkdt 2017 1 1 0) == 2)%Q
   /\ parse_employment_dates (closed_range 3 0 11 2021) = None
   /\ parse_employment_dates (closed_range 3 2019 11 0) = None).
Proof.
  split; [lia |]. split; [lia |]. split; [lia |]. split; [lia |].
  apply (well_formed_range_duration 3 2019 11 2021); lia.
Defined.

(** C4 as stated fails twice: "January 2017 - January 2015" is of the
    form, parses, and its duration is -2; "January 0000 - January 2017"
    is of the form and does not parse. *)
Lemma well_formed_range_can_be_negative_or_refused :
  parse_employment_dates "January 2017 - January 2015"
    = Some (mkdt 2017 1 1 0, Until (mkdt 2015 1 1 0))
  /\ (experience_between (mkdt 2017 1 1 0) (mkdt 2015 1 1 0) == -2)%Q
  /\ ~ (0 <= experience_between (mkdt 2017 1 1 0) (mkdt 2015 1 1 0))%Q
  /\ parse_employment_dates "January 0000 - January 2017" = None.
Proof.
  split; [reflexivity |].
  split; [reflexivity |].
  split; [| reflexivity].
  intros H; vm_compute in H; apply H; reflexivity.
Qed.

(** C5.  The parser accepts the two forms: a full English month name and
    a four-digit year, then " - ", then either the same again or the word
    "present" or "current" in any letter case, which makes the range
    ongoing.  An ongoing range ends at the reading of the clock taken
    when the aggregator processes the record.  Nothing else is accepted:
    whatever parses is made of a full English month name (in any letter
    case), white space, four decimal digits, " - ", and then the same
    again or one of the two words; abbreviated months, numeric dates,
    month names of another language and other separators are refused. *)
Theorem date_range_forms (clock : nat -> datetime) (m1 y1 m2 y2 : Z) (word : string) :
  1 <= m1 <= 12 -> 1 <= y1 <= 9999 -> 1 <= m2 <= 12 -> 1 <= y2 <= 9999 ->
  ongoing_word word ->
  parse_employment_dates (closed_range m1 y1 m2 y2)
    = Some (mkdt y1 m1 1 0, Until (mkdt y2 m2 1 0))
  /\ parse_employment_dates (open_range m1 y1 word) = Some (mkdt y1 m1 1 0, Ongoing)
  /\ calculate_experience clock [job (open_range m1 y1 word)]
     = Returned (round1 (Binary64.fadd 0 (experience_years (mkdt y1 m1 1 0) (clock 0%nat))),
                 [with_experience (job (open_range m1 y1 word))
                    (experience_years (mkdt y1 m1 1 0) (clock 0%nat))])
  /\ (forall s r, parse_employment_dates s = Some r -> range_shape s)
  /\ parse_employment_dates "Jan 2015 - Dec 2020" = None
  /\ parse_employment_dates "01/2015 - 12/2020" = None
  /\ parse_employment_dates "2015-01 - 2020-12" = None
  /\ parse_employment_dates "Januar 2015 - Dezember 2020" = None
  /\ parse_employment_dates "January 2015 to December 2020" = None
  /\ parse_employment_dates "January 2015-December 2020" = None
  /\ parse_employment_dates "Present - January 2020" = None.
Proof.
  intros Hm1 Hy1 Hm2 Hy2 Hw.
  split; [now apply parse_closed_range |].
  pose proof (parse_open_range m1 y1 word Hm1 Hy1 Hw) as Hopen.
  split; [exact Hopen |].
  split.
  { unfold calculate_experience, job. cbn [experience_loop Dict.get String.eqb Ascii.eqb
                                             Bool.eqb default from_option id].
    rewrite Hopen. reflexivity. }
  split; [exact parse_employment_dates_shape |].
  repeat split; reflexivity.
Qed.

Lemma date_range_forms_witness :
  1 <= 1 <= 12 /\ 1 <= 2015 <= 9999 /\ 1 <= 12 <= 12 /\ 1 <= 2020 <= 9999 /\
  ongoing_word "PreSent" /\
  parse_employment_dates (open_range 1 2015 "PreSent") = Some (mkdt 2015 1 1 0, Ongoing).
Proof.
  assert (Hw : ongoing_word "PreSent") by (left; reflexivity).
  split; [lia |]. split; [lia |]. split; [lia |]. split; [lia |].
  split; [exact Hw |].
  apply (date_range_forms sample_clock 1 2015 12 2020 "PreSent"); [lia | lia | lia | lia | exact Hw].
Defined.

(** The white space and the digits are those of Unicode, as [strptime]
    reads them: a no-break space after the month and a year in
    Arabic-Indic or full-width digits are accepted; a month name with a
    long s is not. *)
Example other_white_space_and_digits :
  parse_employment_dates
    ("january" +:+ Unicode.encode 160 +:+ "2015 - CURRENT")
  = Some (mkdt 2015 1 1 0, Ongoing)
  /\ parse_employment_dates
       ("January " +:+ Unicode.encode 1634 +:+ Unicode.encode 1632
        +:+ Unicode.encode 1633 +:+ Unicode.encode 1637 +:+ " - March "
        +:+ Unicode.encode 65298 +:+ Unicode.encode 65296 +:+ Unicode.encode 65297
        +:+ Unicode.encode 65303)
     = Some (mkdt 2015 1 1 0, Until (mkdt 2017 3 1 0))
  /\ parse_employment_dates
       ("Augu" +:+ Unicode.encode 383 +:+ "t 2015 - Present") = None.
Proof. repeat split; vm_compute; reflexivity. Qed.

End ExperienceClaims.

(** ** The match endpoint *)

Section MatchFacts.
Import Match Scoring.

(** *** The score table *)

Lemma scores_get_level (level : string) :
  scores_get MATCH_SCORES level = level_score level.
Proof.
  unfold scores_get, MATCH_SCORES, level_score.
  rewrite !(String.eqb_sym level). reflexivity.
Qed.

Lemma item_score_outcome (d : list (string * json)) (q : Q) :
  item_score_of (level_of d) = Some q -> q = outcome_score (JDict d).
Proof.
  unfold outcome_score.
  destruct (level_of d) as [| | | level | |]; simpl; intros H; inversion H;
    try reflexivity.
  apply scores_get_level.
Qed.

(** *** Calls in sequence *)

Lemma replies_app (oracle : nat -> json -> reply) (a b : list json) :
  forall n, replies oracle n (a ++ b)
            = replies oracle n a ++ replies oracle (n + length a) b.
Proof.
  induction a as [| x a IH]; intros n; simpl.
  - now rewrite Nat.add_0_r.
  - rewrite IH. now rewrite Nat.add_succ_r.
Qed.

Lemma counted_scores_app (r1 r2 : list reply) :
  counted_scores (r1 ++ r2) = counted_scores r1 ++ counted_scores r2.
Proof.
  induction r1 as [| [md | detail] r1 IH]; simpl; [reflexivity | | assumption].
  now rewrite IH.
Qed.

Lemma items_log_app (oracle : nat -> json -> reply) (a b : list json) :
  forall n, items_log oracle n (a ++ b)
            = items_log oracle n a ++ items_log oracle (n + length a) b.
Proof.
  induction a as [| x a IH]; intros n; simpl.
  - now rewrite Nat.add_0_r.
  - rewrite IH, Nat.add_succ_r. destruct (oracle n x); reflexivity.
Qed.

Lemma items_ok_cons (oracle : nat -> json -> reply) (n : nat) (item : json)
    (rest : list json) :
  items_ok oracle n (item :: rest)
  = hashable item && reply_ok (oracle n item) && items_ok oracle (S n) rest.
Proof.
  unfold items_ok. simpl.
  destruct (hashable item), (reply_ok (oracle n item)), (forallb hashable rest);
    reflexivity.
Qed.

Lemma items_ok_app (oracle : nat -> json -> reply) (a b : list json) :
  forall n, items_ok oracle n (a ++ b)
            = items_ok oracle n a && items_ok oracle (n + length a) b.
Proof.
  induction a as [| x a IH]; intros n.
  - simpl. now rewrite Nat.add_0_r.
  - simpl app. rewrite !items_ok_cons, IH. simpl length.
    rewrite Nat.add_succ_r. now rewrite !andb_assoc.
Qed.

(** *** Writing into the results tree *)

Lemma store_inserted (c s : string) (k : key) (v : json)
    (m : gmap key json) (C : gmap string (gmap key json))
    (R : gmap string (gmap string (gmap key json))) :
  store c s k v (<[c := <[s := m]> C]> R) = <[c := <[s := <[k := v]> m]> C]> R.
Proof.
  unfold store.
  rewrite !lookup_total_insert_eq. rewrite !insert_insert_eq. reflexivity.
Qed.

(** *** The three loops *)

Lemma items_loop_cases (oracle : nat -> json -> reply) (c s : string) (items : list json) :
  forall (st : scoring) (cs : Q) (ci : Z)
         (C : gmap string (gmap key json)) (m : gmap key json)
         (R : gmap string (gmap string (gmap key json))),
    matching_results st = <[c := <[s := m]> C]> R ->
    if items_ok oracle (calls st) items
    then items_loop oracle c s items st cs ci
         = Done (mkscoring
                   (<[c := <[s := subcategory_results oracle (calls st) items m]> C]> R)
                   (category_scores st)
                   (fold_left Qplus (counted_scores (replies oracle (calls st) items))
                      (total_score st))
                   (total_items st
                    + Z.of_nat (length (counted_scores (replies oracle (calls st) items))))
                   (calls st + length items)
                   (logged st ++ items_log oracle (calls st) items),
                 fold_left Qplus (counted_scores (replies oracle (calls st) items)) cs,
                 ci + Z.of_nat (length (counted_scores (replies oracle (calls st) items))))
    else exists l d, items_loop oracle c s items st cs ci = Abort l 500 d.
Proof.
  induction items as [| item rest IH]; intros st cs ci C m R HR.
  - simpl. destruct st as [mr sc ts ti n lg]. simpl in *. subst mr.
    rewrite Z.add_0_r, Nat.add_0_r, app_nil_r, Z.add_0_r. reflexivity.
  - rewrite items_ok_cons. cbn [items_loop]. unfold hashable.
    destruct (oracle (calls st) item) as [md | detail] eqn:Eo.
    + destruct (key_of item) as [k |] eqn:Ek; [| simpl; eauto].
      destruct md as [| | | | | d]; try (simpl; eauto).
      cbn [reply_ok]. fold (level_of d).
      destruct (item_score_of (level_of d)) as [q |] eqn:Eq; [| simpl; eauto].
      apply item_score_outcome in Eq. subst q.
      rewrite HR, store_inserted.
      pose proof (IH (mkscoring (<[c := <[s := <[k := JDict d]> m]> C]> R)
                        (category_scores st)
                        (total_score st + outcome_score (JDict d))%Q
                        (total_items st + 1) (S (calls st)) (logged st))
                     (cs + outcome_score (JDict d))%Q (ci + 1) C
                     (<[k := JDict d]> m) R eq_refl) as IH'.
      cbn [calls matching_results category_scores total_score total_items logged] in IH'.
      cbn [andb].
      destruct (items_ok oracle (S (calls st)) rest); [| exact IH'].
      rewrite IH'.
      cbn [subcategory_results replies counted_scores items_log length fold_left].
      rewrite Eo, Ek. cbn [kept counted_scores length fold_left].
      rewrite Nat.add_succ_r.
      replace (total_items st + 1
               + Z.of_nat (length (counted_scores (replies oracle (S (calls st)) rest))))
        with (total_items st
              + Z.of_nat (S (length (counted_scores (replies oracle (S (calls st)) rest)))))
        by lia.
      replace (ci + 1
               + Z.of_nat (length (counted_scores (replies oracle (S (calls st)) rest))))
        with (ci
              + Z.of_nat (S (length (counted_scores (replies oracle (S (calls st)) rest)))))
        by lia.
      reflexivity.
    + destruct (key_of item) as [k |] eqn:Ek; [| simpl; eauto].
      rewrite HR, store_inserted.
      pose proof (IH (mkscoring (<[c := <[s := <[k := error_outcome detail]> m]> C]> R)
                        (category_scores st) (total_score st) (total_items st)
                        (S (calls st)) (logged st ++ [ErrorMatchingItem item detail]))
                     cs ci C (<[k := error_outcome detail]> m) R eq_refl) as IH'.
      cbn [calls matching_results category_scores total_score total_items logged] in IH'.
      cbn [reply_ok andb].
      destruct (items_ok oracle (S (calls st)) rest); [| exact IH'].
      rewrite IH'.
      cbn [subcategory_results replies counted_scores items_log length fold_left].
      rewrite Eo, Ek. cbn [kept counted_scores].
      rewrite Nat.add_succ_r, <- app_assoc. reflexivity.
Qed.

Lemma subcategories_ok_cons (oracle : nat -> json -> reply) (n : nat) (name : string)
    (v : json) (rest : list (string * json)) :
  subcategories_ok oracle n ((name, v) :: rest)
  = is_list v && items_ok oracle n (items_of v)
    && subcategories_ok oracle (n + length (items_of v)) rest.
Proof.
  unfold subcategories_ok, category_items. cbn [forallb flat_map snd].
  rewrite items_ok_app.
  destruct (is_list v), (forallb (fun entry => is_list (snd entry)) rest),
    (items_ok oracle n (items_of v)); reflexivity.
Qed.

Lemma subcategories_loop_cases (oracle : nat -> json -> reply) (c : string)
    (subcategories : list (string * json)) :
  forall (st : scoring) (cs : Q) (ci : Z)
         (C : gmap string (gmap key json))
         (R : gmap string (gmap string (gmap key json))),
    matching_results st = <[c := C]> R ->
    if subcategories_ok oracle (calls st) subcategories
    then subcategories_loop oracle c subcategories st cs ci
         = Done (mkscoring
                   (<[c := category_results oracle (calls st) subcategories C]> R)
                   (category_scores st)
                   (fold_left Qplus
                      (counted_scores (replies oracle (calls st) (category_items subcategories)))
                      (total_score st))
                   (total_items st
                    + Z.of_nat (length (counted_scores
                                          (replies oracle (calls st)
                                             (category_items subcategories)))))
                   (calls st + length (category_items subcategories))
                   (logged st ++ items_log oracle (calls st) (category_items subcategories)),
                 fold_left Qplus
                   (counted_scores (replies oracle (calls st) (category_items subcategories)))
                   cs,
                 ci + Z.of_nat (length (counted_scores
                                          (replies oracle (calls st)
                                             (category_items subcategories)))))
    else exists l d, subcategories_loop oracle c subcategories st cs ci = Abort l 500 d.
Proof.
  induction subcategories as [| [name v] rest IH]; intros st cs ci C R HR.
  - simpl. destruct st as [mr sc ts ti n lg]. simpl in *. subst mr.
    rewrite Z.add_0_r, Nat.add_0_r, app_nil_r, Z.add_0_r. reflexivity.
  - rewrite subcategories_ok_cons.
    destruct v as [| | | | items |]; try (simpl; eauto).
    cbn [is_list items_of andb subcategories_loop].
    rewrite HR, lookup_total_insert_eq, insert_insert_eq.
    pose proof (items_loop_cases oracle c name items
                  (mkscoring (<[c := <[name := ∅]> C]> R) (category_scores st)
                     (total_score st) (total_items st) (calls st) (logged st))
                  cs ci C ∅ R eq_refl) as Hitems.
    cbn [calls matching_results category_scores total_score total_items logged] in Hitems.
    destruct (items_ok oracle (calls st) items).
    + rewrite Hitems.
      match goal with
      | |- context [subcategories_loop oracle c rest ?st1 ?cs1 ?ci1] =>
          pose proof (IH st1 cs1 ci1 (<[name := subcategory_results oracle (calls st) items ∅]> C)
                        R eq_refl) as IH'
      end.
      cbn [calls matching_results category_scores total_score total_items logged] in IH'.
      cbn [andb].
      destruct (subcategories_ok oracle (calls st + length items) rest); [| exact IH'].
      rewrite IH'.
      unfold category_items. cbn [flat_map snd items_of category_results].
      fold (category_items rest).
      rewrite replies_app, counted_scores_app, !fold_left_app, length_app, items_log_app,
        length_app.
      rewrite Nat2Z.inj_add, !Z.add_assoc, Nat.add_assoc, <- app_assoc.
      reflexivity.
    + destruct Hitems as (l & d & ->). simpl. eauto.
Qed.

Lemma request_ok_dict (oracle : nat -> json -> reply) (n : nat) (name : string)
    (subcategories : list (string * json)) (rest : list (string * json)) :
  request_ok oracle n ((name, JDict subcategories) :: rest)
  = subcategories_ok oracle n subcategories
    && request_ok oracle (n + length (category_items subcategories)) rest.
Proof.
  unfold request_ok, subcategories_ok, all_items.
  cbn [forallb flat_map snd subcategories_of].
  rewrite items_ok_app.
  destruct (forallb (fun sub => is_list (snd sub)) subcategories),
    (items_ok oracle n (category_items subcategories)),
    (forallb (fun entry => forallb (fun sub => is_list (snd sub))
                             (subcategories_of (snd entry))) rest);
    reflexivity.
Qed.

Lemma request_ok_other (oracle : nat -> json -> reply) (n : nat) (name : string)
    (v : json) (rest : list (string * json)) :
  is_dict v = false ->
  request_ok oracle n ((name, v) :: rest) = request_ok oracle n rest.
Proof.
  intros Hv. unfold request_ok, all_items.
  destruct v; try discriminate; reflexivity.
Qed.

(** A request that is in order runs through the categories and ends in
    the state that the reference describes; any other request is
    aborted, with status 500. *)
Lemma categories_loop_cases (oracle : nat -> json -> reply)
    (categories : list (string * json)) :
  forall st : scoring,
    if request_ok oracle (calls st) categories
    then categories_loop oracle categories st = Done (final_state oracle categories st)
    else exists l d, categories_loop oracle categories st = Abort l 500 d.
Proof.
  induction categories as [| [name v] rest IH]; intros st.
  - simpl. unfold final_state. simpl.
    destruct st as [mr sc ts ti n lg]. simpl.
    rewrite Z.add_0_r, Nat.add_0_r, app_nil_r. reflexivity.
  - destruct (is_dict v) eqn:Hv.
    + destruct v as [| | | | | subcategories]; try discriminate.
      rewrite request_ok_dict. cbn [categories_loop].
      pose proof (subcategories_loop_cases oracle name subcategories
                    (mkscoring (<[name := ∅]> (matching_results st)) (category_scores st)
                       (total_score st) (total_items st) (calls st) (logged st))
                    0%Q 0 ∅ (matching_results st) eq_refl) as Hsub.
      cbn [calls matching_results category_scores total_score total_items logged] in Hsub.
      destruct (subcategories_ok oracle (calls st) subcategories).
      * rewrite Hsub. clear Hsub.
        unfold final_state.
        cbn [scored_categories reference_results reference_log all_items flat_map snd
               subcategories_of map concat fold_left].
        fold (all_items rest).
        remember (counted_scores
                    (replies oracle (calls st) (category_items subcategories)))
          as scores eqn:Escores.
        destruct scores as [| q scores'].
        -- cbn [length]. change (0 <? 0 + Z.of_nat 0) with false. cbv iota.
           cbn [calls matching_results category_scores total_score total_items logged].
           match goal with
           | |- context [categories_loop oracle rest ?st1] => pose proof (IH st1) as IH'
           end.
           cbn [calls matching_results category_scores total_score total_items logged] in IH'.
           cbn [andb].
           destruct (request_ok oracle (calls st + length (category_items subcategories)) rest);
             [| exact IH'].
           rewrite IH'. f_equal. unfold final_state.
           cbn [calls matching_results category_scores total_score total_items logged
                  add_category_score snd fst app fold_left length].
           f_equal; rewrite ?length_app, <- ?app_assoc; try reflexivity; lia.
        -- assert (Hpos : (0 <? 0 + Z.of_nat (length (q :: scores'))) = true)
             by (apply Z.ltb_lt; simpl length; lia).
           rewrite Hpos. cbv iota.
           cbn [calls matching_results category_scores total_score total_items logged].
           match goal with
           | |- context [categories_loop oracle rest ?st1] => pose proof (IH st1) as IH'
           end.
           cbn [calls matching_results category_scores total_score total_items logged] in IH'.
           cbn [andb].
           destruct (request_ok oracle (calls st + length (category_items subcategories)) rest);
             [| exact IH'].
           rewrite IH'. f_equal. unfold final_state.
           cbn [calls matching_results category_scores total_score total_items logged].
           unfold add_category_score at 2. cbn [snd fst].
           unfold mean, sum. rewrite Z.add_0_l.
           f_equal; rewrite ?fold_left_app, ?length_app, <- ?app_assoc;
             try reflexivity; lia.
      * destruct Hsub as (l & d & ->). simpl. eauto.
    + rewrite request_ok_other by assumption.
      assert (Hstep : categories_loop oracle ((name, v) :: rest) st
                      = categories_loop oracle rest
                          (mkscoring (matching_results st) (category_scores st)
                             (total_score st) (total_items st) (calls st)
                             (logged st ++ [InvalidSubcategories v])))
        by (destruct v; try discriminate; reflexivity).
      rewrite Hstep.
      pose proof (IH (mkscoring (matching_results st) (category_scores st)
                        (total_score st) (total_items st) (calls st)
                        (logged st ++ [InvalidSubcategories v]))) as IH'.
      cbn [calls] in IH'.
      destruct (request_ok oracle (calls st) rest); [| exact IH'].
      rewrite IH'. f_equal. unfold final_state.
      cbn [calls matching_results category_scores total_score total_items logged].
      assert (Hsc : scored_categories oracle (calls st) ((name, v) :: rest)
                    = scored_categories oracle (calls st) rest)
        by (destruct v; try discriminate; reflexivity).
      assert (Hres : forall m, reference_results oracle (calls st) ((name, v) :: rest) m
                               = reference_results oracle (calls st) rest m)
        by (intros m; destruct v; try discriminate; reflexivity).
      assert (Hlog : reference_log oracle (calls st) ((name, v) :: rest)
                     = InvalidSubcategories v :: reference_log oracle (calls st) rest)
        by (destruct v; try discriminate; reflexivity).
      assert (Hall : all_items ((name, v) :: rest) = all_items rest)
        by (destruct v; try discriminate; reflexivity).
      rewrite Hsc, Hres, Hlog, Hall, <- app_assoc. reflexivity.
Qed.

(** *** The endpoint *)

Lemma endpoint_cases (oracle : nat -> json -> reply) (categories : list (string * json))
    (resume_details : json) :
  categories <> [] -> truthy resume_details = true ->
  if request_ok oracle 0 categories
  then unified_match_endpoint oracle (JDict categories) resume_details
       = (JSONResponse
            (mkcontent (reference_results oracle 0 categories ∅)
               (reference_category_scores (scored_categories oracle 0 categories))
               (reference_overall_score (scored_categories oracle 0 categories))),
          reference_log oracle 0 categories)
  else exists l d,
      unified_match_endpoint oracle (JDict categories) resume_details
      = (HTTPException 500 d, l).
Proof.
  intros Hne Hres. unfold unified_match_endpoint.
  assert (Ht : truthy (JDict categories) = true)
    by (destruct categories; [congruence | reflexivity]).
  rewrite Ht, Hres. cbn [negb orb].
  pose proof (categories_loop_cases oracle categories initial) as H.
  cbn [calls initial] in H.
  destruct (request_ok oracle 0 categories).
  - rewrite H. unfold final_state, initial.
    cbn [calls matching_results category_scores total_score total_items logged app].
    unfold reference_category_scores, reference_overall_score.
    destruct (concat (map snd (scored_categories oracle 0 categories))) as [| q scores].
    + reflexivity.
    + assert (Hpos : (0 <? 0 + Z.of_nat (length (q :: scores))) = true)
        by (apply Z.ltb_lt; simpl length; lia).
      rewrite Hpos. unfold mean, sum. rewrite Z.add_0_l. reflexivity.
  - destruct H as (l & d & ->). eauto.
Qed.

(** A success response comes from a non-empty dictionary of categories
    and a request that is in order, and it is the reference's. *)
Lemma endpoint_success (oracle : nat -> json -> reply) (job_description_details : json)
    (resume_details : json) (c : content) (log : list log_entry) :
  unified_match_endpoint oracle job_description_details resume_details
  = (JSONResponse c, log) ->
  exists categories,
    job_description_details = JDict categories /\
    categories <> [] /\ truthy resume_details = true /\
    request_ok oracle 0 categories = true /\
    c = mkcontent (reference_results oracle 0 categories ∅)
          (reference_category_scores (scored_categories oracle 0 categories))
          (reference_overall_score (scored_categories oracle 0 categories)) /\
    log = reference_log oracle 0 categories.
Proof.
  intros H.
  assert (Htruthy : truthy job_description_details = true /\ truthy resume_details = true).
  { unfold unified_match_endpoint in H.
    destruct (truthy job_description_details), (truthy resume_details);
      try discriminate. split; reflexivity. }
  destruct Htruthy as [Hjd Hres].
  destruct job_description_details as [| | | | | categories];
    try (unfold unified_match_endpoint in H; rewrite Hjd, Hres in H; discriminate).
  assert (Hne : categories <> []) by (intros ->; discriminate).
  exists categories.
  pose proof (endpoint_cases oracle categories resume_details Hne Hres) as Hc.
  destruct (request_ok oracle 0 categories).
  - rewrite Hc in H. inversion H; subst. repeat split; auto.
  - destruct Hc as (l & d & Hc). rewrite Hc in H. discriminate.
Qed.

(** *** Reading the reference *)

Lemma scored_categories_app (oracle : nat -> json -> reply) (a b : list (string * json)) :
  forall n, scored_categories oracle n (a ++ b)
            = scored_categories oracle n a
              ++ scored_categories oracle (n + length (all_items a)) b.
Proof.
  induction a as [| [name v] a IH]; intros n.
  - simpl. now rewrite Nat.add_0_r.
  - destruct v as [| | | | | subs]; simpl; rewrite ?IH; try reflexivity.
    unfold all_items at 2. cbn [flat_map snd subcategories_of]. fold (all_items a).
    now rewrite length_app, Nat.add_assoc.
Qed.




Lemma subcategory_results_other (oracle : nat -> json -> reply) (items : list json)
    (k : key) :
  forall n m, k ∉ keys_of items -> subcategory_results oracle n items m !! k = m !! k.
Proof.
  induction items as [| item rest IH]; intros n m Hk; [reflexivity |].
  simpl in Hk. simpl.
  destruct (key_of item) as [k' |] eqn:Ek.
  - apply not_elem_of_cons in Hk. destruct Hk as [Hne Hk].
    rewrite IH by assumption. now rewrite lookup_insert_ne.
  - now apply IH.
Qed.

Lemma subcategory_results_last (oracle : nat -> json -> reply) (ibefore : list json)
    (item : json) (later : list json) (k : key) :
  forall n m, key_of item = Some k -> k ∉ keys_of later ->
              subcategory_results oracle n (ibefore ++ item :: later) m !! k
              = Some (kept (oracle (n + length ibefore)%nat item)).
Proof.
  induction ibefore as [| x ibefore IH]; intros n m Ek Hk.
  - simpl. rewrite Ek, Nat.add_0_r.
    rewrite subcategory_results_other by assumption. apply lookup_insert_eq.
  - simpl. rewrite Nat.add_succ_r.
    destruct (key_of x); now apply IH.
Qed.

Lemma subcategory_results_dom (oracle : nat -> json -> reply) (items : list json) :
  forall n m, dom (subcategory_results oracle n items m)
              = dom m ∪ list_to_set (keys_of items).
Proof.
  induction items as [| item rest IH]; intros n m.
  - simpl. set_solver.
  - simpl.
    destruct (key_of item) as [k |].
    + rewrite IH, dom_insert_L, list_to_set_cons. set_solver.
    + rewrite IH. reflexivity.
Qed.

Lemma category_results_other (oracle : nat -> json -> reply)
    (subcategories : list (string * json)) (sub : string) :
  forall n C, sub ∉ (fst <$> subcategories) ->
              category_results oracle n subcategories C !! sub = C !! sub.
Proof.
  induction subcategories as [| [name v] rest IH]; intros n C Hs; [reflexivity |].
  rewrite fmap_cons in Hs. simpl in Hs. apply not_elem_of_cons in Hs. destruct Hs as [Hne Hs].
  destruct v; simpl; rewrite IH by assumption; try reflexivity.
  now rewrite lookup_insert_ne.
Qed.

Lemma category_results_lookup (oracle : nat -> json -> reply)
    (sbefore : list (string * json)) (sub : string) (items : list json)
    (safter : list (string * json)) :
  forall n C, sub ∉ (fst <$> safter) ->
              category_results oracle n (sbefore ++ (sub, JList items) :: safter) C !! sub
              = Some (subcategory_results oracle (n + length (category_items sbefore))
                        items ∅).
Proof.
  induction sbefore as [| [name v] sbefore IH]; intros n C Hs.
  - simpl. rewrite category_results_other by assumption.
    rewrite Nat.add_0_r. apply lookup_insert_eq.
  - unfold category_items. cbn [flat_map snd]. fold (category_items sbefore).
    rewrite length_app, Nat.add_assoc.
    destruct v; simpl; rewrite ?Nat.add_0_r; now apply IH.
Qed.

Lemma reference_results_other (oracle : nat -> json -> reply)
    (categories : list (string * json)) (cat : string) :
  forall n R, cat ∉ (fst <$> categories) ->
              reference_results oracle n categories R !! cat = R !! cat.
Proof.
  induction categories as [| [name v] rest IH]; intros n R Hc; [reflexivity |].
  rewrite fmap_cons in Hc. simpl in Hc. apply not_elem_of_cons in Hc. destruct Hc as [Hne Hc].
  destruct v; simpl; rewrite IH by assumption; try reflexivity.
  now rewrite lookup_insert_ne.
Qed.

Lemma reference_results_lookup (oracle : nat -> json -> reply)
    (before : list (string * json)) (cat : string) (subcategories : list (string * json))
    (after : list (string * json)) :
  forall n R, cat ∉ (fst <$> after) ->
              reference_results oracle n (before ++ (cat, JDict subcategories) :: after) R !! cat
              = Some (category_results oracle (n + length (all_items before))
                        subcategories ∅).
Proof.
  induction before as [| [name v] before IH]; intros n R Hc.
  - simpl. rewrite reference_results_other by assumption.
    rewrite Nat.add_0_r. apply lookup_insert_eq.
  - unfold all_items. cbn [flat_map snd]. fold (all_items before).
    rewrite length_app, Nat.add_assoc.
    destruct v; simpl; rewrite ?Nat.add_0_r; now apply IH.
Qed.

(** The entry that the tree holds for an item not followed by another
    item with the same key. *)
Lemma reference_results_entry (oracle : nat -> json -> reply)
    (categories : list (string * json)) (cat sub : string) (item : json) (n : nat)
    (later : list json) (k : key) :
  occurs_at categories cat sub item n later ->
  key_of item = Some k -> k ∉ keys_of later ->
  exists C S,
    reference_results oracle 0 categories ∅ !! cat = Some C /\
    C !! sub = Some S /\
    S !! k = Some (kept (oracle n item)).
Proof.
  intros (before & subs & after & sbefore & items & safter & ibefore
          & -> & Hcat & -> & Hsub & -> & ->) Ek Hk.
  eexists _, _. split; [| split].
  - now apply reference_results_lookup.
  - now apply category_results_lookup.
  - rewrite subcategory_results_last by assumption.
    repeat f_equal.
Qed.

(** *** Loops over concatenated inputs *)

Lemma subcategories_loop_app (oracle : nat -> json -> reply) (c : string)
    (a b : list (string * json)) :
  forall st cs ci,
    subcategories_loop oracle c (a ++ b) st cs ci
    = match subcategories_loop oracle c a st cs ci with
      | Done (st', cs', ci') => subcategories_loop oracle c b st' cs' ci'
      | Abort l status d => Abort l status d
      end.
Proof.
  induction a as [| [name v] a IH]; intros st cs ci; [reflexivity |].
  destruct v as [| | | | items |]; try reflexivity.
  cbn [app subcategories_loop].
  destruct (items_loop oracle c name items _ cs ci) as [[[st' cs'] ci'] | l status d];
    [apply IH | reflexivity].
Qed.

Lemma categories_loop_app (oracle : nat -> json -> reply) (a b : list (string * json)) :
  forall st,
    categories_loop oracle (a ++ b) st
    = match categories_loop oracle a st with
      | Done st' => categories_loop oracle b st'
      | Abort l status d => Abort l status d
      end.
Proof.
  induction a as [| [name v] a IH]; intros st; [reflexivity |].
  destruct v as [| | | | | subs]; try apply IH.
  cbn [app categories_loop].
  destruct (subcategories_loop oracle name subs _ 0%Q 0)
    as [[[st' cs'] ci'] | l status d]; [apply IH | reflexivity].
Qed.

(** *** A category that is not a mapping *)

Lemma all_items_app (a b : list (string * json)) :
  all_items (a ++ b) = all_items a ++ all_items b.
Proof. unfold all_items. apply flat_map_app. Qed.

Lemma all_items_other (name : string) (v : json) (rest : list (string * json)) :
  is_dict v = false -> all_items ((name, v) :: rest) = all_items rest.
Proof. intros Hv. destruct v; try discriminate; reflexivity. Qed.

Lemma request_ok_skip (oracle : nat -> json -> reply) (before : list (string * json))
    (name : string) (v : json) (after : list (string * json)) :
  is_dict v = false ->
  forall n, request_ok oracle n (before ++ (name, v) :: after)
            = request_ok oracle n (before ++ after).
Proof.
  intros Hv. induction before as [| [b w] before IH]; intros n.
  - simpl app. now apply request_ok_other.
  - simpl app. destruct (is_dict w) eqn:Hw.
    + destruct w; try discriminate. rewrite !request_ok_dict. now rewrite IH.
    + rewrite !request_ok_other by assumption. apply IH.
Qed.

Lemma reference_results_skip (oracle : nat -> json -> reply) (before : list (string * json))
    (name : string) (v : json) (after : list (string * json)) :
  is_dict v = false ->
  forall n R, reference_results oracle n (before ++ (name, v) :: after) R
              = reference_results oracle n (before ++ after) R.
Proof.
  intros Hv. induction before as [| [b w] before IH]; intros n R.
  - destruct v; try discriminate; reflexivity.
  - destruct w; simpl; apply IH.
Qed.

Lemma scored_categories_skip (oracle : nat -> json -> reply) (before : list (string * json))
    (name : string) (v : json) (after : list (string * json)) :
  is_dict v = false ->
  forall n, scored_categories oracle n (before ++ (name, v) :: after)
            = scored_categories oracle n (before ++ after).
Proof.
  intros Hv. induction before as [| [b w] before IH]; intros n.
  - destruct v; try discriminate; reflexivity.
  - destruct w; simpl; rewrite ?IH; reflexivity.
Qed.

Lemma reference_log_skip (oracle : nat -> json -> reply) (before : list (string * json))
    (name : string) (v : json) (after : list (string * json)) :
  is_dict v = false ->
  forall n, InvalidSubcategories v ∈ reference_log oracle n (before ++ (name, v) :: after).
Proof.
  intros Hv. induction before as [| [b w] before IH]; intros n.
  - destruct v; try discriminate; simpl; apply elem_of_cons; now left.
  - destruct w; simpl; try (apply elem_of_cons; right; apply IH).
    apply elem_of_app. right. apply IH.
Qed.

(** *** A subcategory that is not a list *)

Lemma request_ok_prefix (oracle : nat -> json -> reply) (a b : list (string * json)) :
  forall n, request_ok oracle n (a ++ b)
            = request_ok oracle n a && request_ok oracle (n + length (all_items a)) b.
Proof.
  induction a as [| [name v] a IH]; intros n.
  - simpl. now rewrite Nat.add_0_r.
  - simpl app. destruct (is_dict v) eqn:Hv.
    + destruct v as [| | | | | subs]; try discriminate.
      rewrite !request_ok_dict, IH.
      unfold all_items at 2. cbn [flat_map snd subcategories_of]. fold (all_items a).
      rewrite length_app, Nat.add_assoc, andb_assoc. reflexivity.
    + rewrite !request_ok_other by assumption.
      rewrite all_items_other by assumption. apply IH.
Qed.

Lemma subcategories_ok_prefix (oracle : nat -> json -> reply) (a b : list (string * json)) :
  forall n, subcategories_ok oracle n (a ++ b)
            = subcategories_ok oracle n a
              && subcategories_ok oracle (n + length (category_items a)) b.
Proof.
  induction a as [| [name v] a IH]; intros n.
  - simpl. now rewrite Nat.add_0_r.
  - simpl app. rewrite !subcategories_ok_cons, IH.
    unfold category_items at 2. cbn [flat_map snd]. fold (category_items a).
    rewrite length_app, Nat.add_assoc, !andb_assoc. reflexivity.
Qed.

Lemma request_not_ok_invalid_items (oracle : nat -> json -> reply)
    (before : list (string * json)) (cat : string) (sbefore : list (string * json))
    (sub : string) (v : json) (safter after : list (string * json)) (n : nat) :
  is_list v = false ->
  request_ok oracle n (before ++ (cat, JDict (sbefore ++ (sub, v) :: safter)) :: after)
  = false.
Proof.
  intros Hv. rewrite request_ok_prefix, request_ok_dict, subcategories_ok_prefix,
    subcategories_ok_cons, Hv.
  cbn [andb]. now rewrite !andb_false_r.
Qed.

(** *** Counting *)

Lemma scored_categories_concat (oracle : nat -> json -> reply)
    (categories : list (string * json)) :
  forall n, concat (map snd (scored_categories oracle n categories))
            = counted_scores (replies oracle n (all_items categories)).
Proof.
  induction categories as [| [name v] rest IH]; intros n; [reflexivity |].
  destruct (is_dict v) eqn:Hv.
  - destruct v as [| | | | | subs]; try discriminate.
    unfold all_items. cbn [scored_categories map snd concat flat_map subcategories_of].
    fold (all_items rest).
    now rewrite replies_app, counted_scores_app, IH.
  - rewrite all_items_other by assumption.
    destruct v; try discriminate; apply IH.
Qed.

Lemma replies_length (oracle : nat -> json -> reply) (items : list json) :
  forall n, length (replies oracle n items) = length items.
Proof. induction items as [| x items IH]; intros n; simpl; [| rewrite IH]; reflexivity. Qed.

Lemma counted_scores_all (rs : list reply) :
  forallb returned rs = true -> length (counted_scores rs) = length rs.
Proof.
  induction rs as [| [md | detail] rs IH]; simpl; intros H;
    [reflexivity | | discriminate].
  now rewrite IH.
Qed.



Lemma keys_of_texts (texts : list string) :
  keys_of (map JStr texts) = map text_key texts.
Proof. induction texts as [| t texts IH]; [reflexivity |]. cbn. now rewrite IH. Qed.

Lemma counted_scores_le (rs : list reply) :
  (length (counted_scores rs) <= length rs)%nat.
Proof.
  induction rs as [| [md | detail] rs IH]; simpl; lia.
Qed.

Lemma size_list_to_set_le (keys : list key) :
  (size (list_to_set keys : gset key) <= length keys)%nat.
Proof.
  induction keys as [| k keys IH]; [now rewrite list_to_set_nil, size_empty |].
  rewrite list_to_set_cons. simpl length.
  destruct (decide (k ∈ (list_to_set keys : gset key))) as [Hin | Hout].
  - replace ({[k]} ∪ list_to_set keys) with (list_to_set keys : gset key) by set_solver.
    lia.
  - rewrite size_union by set_solver. rewrite size_singleton.
    apply le_n_S. exact IH.
Qed.

Lemma size_list_to_set_lt (keys : list key) :
  ~ NoDup keys -> (size (list_to_set keys : gset key) < length keys)%nat.
Proof.
  induction keys as [| k keys IH]; intros Hdup.
  - exfalso. apply Hdup. constructor.
  - rewrite list_to_set_cons. simpl length.
    destruct (decide (k ∈ keys)) as [Hin | Hout].
    + replace ({[k]} ∪ list_to_set keys) with (list_to_set keys : gset key) by set_solver.
      apply Nat.lt_succ_r. apply size_list_to_set_le.
    + assert (Hrest : ~ NoDup keys)
        by (intros Hnd; apply Hdup; now apply NoDup_cons).
      specialize (IH Hrest).
      rewrite size_union by set_solver. rewrite size_singleton.
      apply -> Nat.succ_lt_mono. exact IH.
Qed.

Lemma keys_of_length (items : list json) : (length (keys_of items) <= length items)%nat.
Proof.
  induction items as [| item items IH]; [reflexivity |].
  simpl. destruct (key_of item); simpl; lia.
Qed.

(** *** The log of a completed request *)

Lemma reference_log_app (oracle : nat -> json -> reply) (a b : list (string * json)) :
  forall n, reference_log oracle n (a ++ b)
            = reference_log oracle n a
              ++ reference_log oracle (n + length (all_items a)) b.
Proof.
  induction a as [| [name v] a IH]; intros n.
  - simpl. now rewrite Nat.add_0_r.
  - destruct (is_dict v) eqn:Hv.
    + destruct v as [| | | | | subs]; try discriminate.
      unfold all_items. cbn [app reference_log flat_map snd subcategories_of].
      fold (all_items a).
      now rewrite IH, length_app, Nat.add_assoc, <- app_assoc.
    + rewrite all_items_other by assumption.
      destruct v; try discriminate; simpl; now rewrite IH.
Qed.

Lemma category_items_app (a b : list (string * json)) :
  category_items (a ++ b) = category_items a ++ category_items b.
Proof. unfold category_items. apply flat_map_app. Qed.

Lemma failed_call_logged (oracle : nat -> json -> reply)
    (categories : list (string * json)) (cat sub : string) (item : json) (n : nat)
    (later : list json) (detail : string) :
  occurs_at categories cat sub item n later ->
  oracle n item = Failed detail ->
  ErrorMatchingItem item detail ∈ reference_log oracle 0 categories.
Proof.
  intros (before & subs & after & sbefore & items & safter & ibefore
          & -> & Hcat & -> & Hsub & -> & ->) Ho.
  rewrite reference_log_app. apply elem_of_app. right.
  cbn [reference_log]. apply elem_of_app. left.
  rewrite category_items_app, items_log_app. apply elem_of_app. right.
  unfold category_items at 2. cbn [flat_map snd items_of].
  rewrite items_log_app. apply elem_of_app. left.
  rewrite items_log_app. apply elem_of_app. right.
  cbn [items_log].
  replace (0 + length (all_items before) + length (category_items sbefore)
           + length ibefore)%nat
    with (length (all_items before) + length (category_items sbefore)
          + length ibefore)%nat by lia.
  rewrite Ho. apply elem_of_cons. now left.
Qed.

(** *** The first subcategory that is not a list *)

Lemma endpoint_invalid_items (oracle : nat -> json -> reply)
    (before : list (string * json)) (cat : string) (sbefore : list (string * json))
    (sub : string) (w : json) (safter after : list (string * json))
    (resume_details : json) :
  truthy resume_details = true -> is_list w = false ->
  request_ok oracle 0 before = true ->
  subcategories_ok oracle (length (all_items before)) sbefore = true ->
  unified_match_endpoint oracle
    (JDict (before ++ (cat, JDict (sbefore ++ (sub, w) :: safter)) :: after))
    resume_details
  = (HTTPException 500 (Text ("Invalid items format in subcategory '" +:+ sub +:+ "'.")),
     reference_log oracle 0 before
     ++ items_log oracle (length (all_items before)) (category_items sbefore)
     ++ [InvalidItems sub w]).
Proof.
  intros Hres Hw Hbefore Hsbefore. unfold unified_match_endpoint.
  assert (Ht : truthy (JDict (before ++ (cat, JDict (sbefore ++ (sub, w) :: safter))
                                 :: after)) = true)
    by (destruct before; reflexivity).
  rewrite Ht, Hres. cbn [negb orb].
  rewrite categories_loop_app.
  pose proof (categories_loop_cases oracle before initial) as Hb.
  cbn [calls initial] in Hb. rewrite Hbefore in Hb. rewrite Hb.
  cbn [categories_loop]. rewrite subcategories_loop_app.
  match goal with
  | |- context [subcategories_loop oracle cat sbefore ?st1 ?cs ?ci] =>
      pose proof (subcategories_loop_cases oracle cat sbefore st1 cs ci ∅
                    (matching_results (final_state oracle before initial)) eq_refl) as Hs
  end.
  unfold final_state, initial in Hs.
  cbn [calls matching_results category_scores total_score total_items logged app
         Nat.add] in Hs.
  rewrite Hsbefore in Hs.
  unfold final_state, initial.
  cbn [calls matching_results category_scores total_score total_items logged app
         Nat.add].
  rewrite Hs.
  destruct w; try discriminate; cbn [subcategories_loop logged];
    rewrite <- app_assoc; reflexivity.
Qed.

End MatchFacts.

(** ** Statements about the match endpoint *)

Section MatchClaims.
Import Match Scoring.




(** The example of the specification: two categories of two items, three
    full matches and one item without match give an overall score of
    0.75, and 0.5 for the category of the item without match. *)
Example three_of_four_match :
  c_category_scores sample_content !! "Skills" = Some (mean [1%Q; 1%Q])
  /\ c_category_scores sample_content !! "Education" = Some (mean [1%Q; 0%Q])
  /\ (mean [1%Q; 0%Q] == 1 # 2)%Q
  /\ (c_overall_score sample_content == 3 # 4)%Q.
Proof.
  repeat split; vm_compute; reflexivity.
Qed.

(** C7.  In a request that is otherwise in order, a call of the matcher
    that fails does not abort anything: the request is answered with the
    success response; the failure is logged; the tree holds for that item
    the outcome with level "Error", the failure detail in its reason and
    an empty evidence; every item of the request has its entry, so the
    remaining items are processed.  But the failed item is not scored 0
    in the means, as the comment of [MATCH_SCORES] has it: the branch
    that handles the failure adds nothing to the running sums nor to the
    counts, so the category means and the overall mean are those of the
    items whose call returned, and the entry "Error" of the table is
    never read for a failed call. *)
Theorem failed_call_is_absorbed (oracle : nat -> json -> reply)
    (categories : list (string * json)) (resume_details : json) :
  categories <> [] -> truthy resume_details = true ->
  request_ok oracle 0 categories = true ->
  exists c log,
    unified_match_endpoint oracle (JDict categories) resume_details
    = (JSONResponse c, log)
    /\ c_category_scores c
       = reference_category_scores (scored_categories oracle 0 categories)
    /\ c_overall_score c
       = reference_overall_score (scored_categories oracle 0 categories)
    /\ (forall cat sub item n later k detail,
           occurs_at categories cat sub item n later ->
           key_of item = Some k -> oracle n item = Failed detail ->
           ErrorMatchingItem item detail ∈ log
           /\ (k ∉ keys_of later ->
               exists C S,
                 c_matching_results c !! cat = Some C /\
                 C !! sub = Some S /\
                 S !! k = Some (JDict [ ("match_level", JStr "Error");
                                        ("reason",
                                         JStr ("Error during matching: " +:+ detail));
                                        ("evidence", JStr EmptyString) ])))
    /\ (forall cat sub item n later k,
           occurs_at categories cat sub item n later ->
           key_of item = Some k -> k ∉ keys_of later ->
           exists C S,
             c_matching_results c !! cat = Some C /\
             C !! sub = Some S /\ S !! k = Some (kept (oracle n item)))
    /\ item_score_of (JStr "Error") = Some 0%Q
    /\ (forall n item rest detail,
           oracle n item = Failed detail ->
           counted_scores (replies oracle n (item :: rest))
           = counted_scores (replies oracle (S n) rest))
    /\ (forall category subcategory item rest st cs ci detail k,
           oracle (calls st) item = Failed detail -> key_of item = Some k ->
           items_loop oracle category subcategory (item :: rest) st cs ci
           = items_loop oracle category subcategory rest
               (mkscoring
                  (store category subcategory k (error_outcome detail)
                     (matching_results st))
                  (category_scores st) (total_score st) (total_items st)
                  (S (calls st)) (logged st ++ [ErrorMatchingItem item detail]))
               cs ci).
Proof.
  intros Hne Hres Hok.
  pose proof (endpoint_cases oracle categories resume_details Hne Hres) as H.
  rewrite Hok in H.
  eexists _, _. split; [exact H |].
  cbn [c_category_scores c_overall_score c_matching_results].
  split; [reflexivity |].
  split; [reflexivity |].
  split.
  { intros cat sub item n later k detail Hocc Ek Ho. split.
    - eapply failed_call_logged; eassumption.
    - intros Hk.
      destruct (reference_results_entry oracle categories cat sub item n later k
                  Hocc Ek Hk) as (C & S & HC & HS & Hkept).
      exists C, S. rewrite Ho in Hkept. auto. }
  split.
  { intros cat sub item n later k Hocc Ek Hk.
    apply (reference_results_entry oracle categories cat sub item n later k Hocc Ek Hk). }
  split; [reflexivity |].
  split.
  { intros n item rest detail Ho. simpl. now rewrite Ho. }
  intros category subcategory item rest st cs ci detail k Ho Ek.
  cbn [items_loop]. now rewrite Ho, Ek.
Qed.

Lemma failed_call_is_absorbed_witness :
  sample_requirements <> [] /\ truthy sample_resume = true /\
  request_ok failing_oracle 0 sample_requirements = true /\
  exists c log,
    unified_match_endpoint failing_oracle (JDict sample_requirements) sample_resume
    = (JSONResponse c, log)
    /\ c_category_scores c
       = reference_category_scores (scored_categories failing_oracle 0 sample_requirements)
    /\ c_overall_score c
       = reference_overall_score (scored_categories failing_oracle 0 sample_requirements).
Proof.
  assert (Hne : sample_requirements <> []) by discriminate.
  assert (Hres : truthy sample_resume = true) by reflexivity.
  assert (Hok : request_ok failing_oracle 0 sample_requirements = true)
    by (vm_compute; reflexivity).
  split; [exact Hne |]. split; [exact Hres |]. split; [exact Hok |].
  destruct (failed_call_is_absorbed failing_oracle sample_requirements sample_resume
              Hne Hres Hok) as (c & log & H & Hcs & Hov & _).
  exists c, log. auto.
Defined.

(** The failing input of C7: the call for "SQL" fails and the three
    others find a full match.  Four items are matched and three are
    counted; the category "Skills" gets the mean of one score and the
    overall score is the mean of three, both 1, where counting the failed
    item with the score 0 gives 1/2 and 3/4. *)
Lemma failed_item_is_left_out_of_the_means :
  exists st,
    categories_loop failing_oracle sample_requirements initial = Done st
    /\ calls st = 4%nat /\ total_items st = 3 /\ (total_score st == 3)%Q
    /\ logged st = [ErrorMatchingItem (JStr "SQL") "OpenAI API error."]
    /\ ((matching_results st !!! "Skills") !!! "Core") !! text_key "SQL"
       = Some (error_outcome "OpenAI API error.")
    /\ category_scores st !! "Skills" = Some (mean [1%Q])
    /\ category_scores st !! "Education" = Some (mean [1%Q; 1%Q])
    /\ unified_match_endpoint failing_oracle (JDict sample_requirements) sample_resume
       = (JSONResponse failing_content, logged st)
    /\ (c_overall_score failing_content == 1)%Q
    /\ (mean [1%Q] == 1)%Q
    /\ (mean [1%Q; 0%Q] == 1 # 2)%Q
    /\ (mean [1%Q; 0%Q; 1%Q; 1%Q] == 3 # 4)%Q.
Proof.
  exists (state_of (categories_loop failing_oracle sample_requirements initial)).
  repeat split; vm_compute; reflexivity.
Qed.

(** C8.  A category whose value is not a mapping is skipped: the fact is
    logged (at error level), the request is answered as the request
    without that category is, and a request that has no other category
    succeeds with empty results.  A subcategory whose value is not a list
    aborts the whole request: the answer is an error response with status
    500; when nothing before it is out of order, its detail names the
    subcategory. *)
Theorem category_skipped_subcategory_aborts (oracle : nat -> json -> reply)
    (before after : list (string * json)) (name : string) (v : json)
    (sbefore safter : list (string * json)) (sub : string) (w : json)
    (resume_details : json) :
  truthy resume_details = true -> is_dict v = false -> is_list w = false ->
  (before ++ after <> [] -> request_ok oracle 0 (before ++ after) = true ->
   exists c log,
     unified_match_endpoint oracle (JDict (before ++ (name, v) :: after)) resume_details
     = (JSONResponse c, log)
     /\ InvalidSubcategories v ∈ log
     /\ fst (unified_match_endpoint oracle (JDict (before ++ after)) resume_details)
        = JSONResponse c)
  /\ unified_match_endpoint oracle (JDict [(name, v)]) resume_details
     = (JSONResponse (mkcontent ∅ ∅ 0%Q), [InvalidSubcategories v])
  /\ (exists d log,
         unified_match_endpoint oracle
           (JDict (before ++ (name, JDict (sbefore ++ (sub, w) :: safter)) :: after))
           resume_details
         = (HTTPException 500 d, log))
  /\ (request_ok oracle 0 before = true ->
      subcategories_ok oracle (length (all_items before)) sbefore = true ->
      unified_match_endpoint oracle
        (JDict (before ++ (name, JDict (sbefore ++ (sub, w) :: safter)) :: after))
        resume_details
      = (HTTPException 500
           (Text ("Invalid items format in subcategory '" +:+ sub +:+ "'.")),
         reference_log oracle 0 before
         ++ items_log oracle (length (all_items before)) (category_items sbefore)
         ++ [InvalidItems sub w])).
Proof.
  intros Hres Hv Hw. split; [| split; [| split]].
  - intros Hne Hok.
    assert (Hne' : before ++ (name, v) :: after <> [])
      by (destruct before; discriminate).
    pose proof (endpoint_cases oracle (before ++ (name, v) :: after) resume_details
                  Hne' Hres) as H1.
    rewrite (request_ok_skip oracle before name v after Hv), Hok in H1.
    pose proof (endpoint_cases oracle (before ++ after) resume_details Hne Hres) as H2.
    rewrite Hok in H2.
    eexists _, _. split; [exact H1 |]. split.
    + now apply reference_log_skip.
    + rewrite H2. cbn [fst].
      rewrite (reference_results_skip oracle before name v after Hv),
        (scored_categories_skip oracle before name v after Hv).
      reflexivity.
  - unfold unified_match_endpoint. rewrite Hres.
    destruct v; try discriminate; reflexivity.
  - assert (Hne : before ++ (name, JDict (sbefore ++ (sub, w) :: safter)) :: after <> [])
      by (destruct before; discriminate).
    pose proof (endpoint_cases oracle _ resume_details Hne Hres) as H.
    rewrite (request_not_ok_invalid_items oracle before name sbefore sub w safter after 0 Hw)
      in H.
    destruct H as (l & d & H). eauto.
  - intros Hb Hs. now apply endpoint_invalid_items.
Qed.

Lemma category_skipped_subcategory_aborts_witness :
  truthy sample_resume = true /\ is_dict (JStr "to be completed") = false /\
  is_list (JStr "git") = false /\
  unified_match_endpoint sample_oracle (JDict [("Notes", JStr "to be completed")])
    sample_resume
  = (JSONResponse (mkcontent ∅ ∅ 0%Q), [InvalidSubcategories (JStr "to be completed")]).
Proof.
  split; [reflexivity |]. split; [reflexivity |]. split; [reflexivity |].
  apply (category_skipped_subcategory_aborts sample_oracle
           [("Skills", JDict [("Core", JList [JStr "Python"; JStr "SQL"])])] []
           "Notes" (JStr "to be completed")
           [("Core", JList [JStr "Python"])] [] "Tools" (JStr "git") sample_resume);
    reflexivity.
Defined.

(** The two sample requests: the category "Notes" is skipped and "Skills"
    is scored; the subcategory "Tools" aborts the request after the call
    for the item before it was made. *)
Example note_skipped_text_items_abort :
  (exists c,
      unified_match_endpoint sample_oracle (JDict requirements_with_note) sample_resume
      = (JSONResponse c, [InvalidSubcategories (JStr "to be completed")])
      /\ c_category_scores c !! "Skills" = Some (mean [1%Q; 1%Q])
      /\ c_category_scores c !! "Notes" = None
      /\ c_matching_results c !! "Notes" = None)
  /\ unified_match_endpoint sample_oracle (JDict requirements_with_text_items)
       sample_resume
     = (HTTPException 500 (Text "Invalid items format in subcategory 'Tools'."),
        [InvalidItems "Tools" (JStr "git")]).
Proof.
  split.
  - exists (content_of (unified_match_endpoint sample_oracle
                          (JDict requirements_with_note) sample_resume)).
    repeat split; vm_compute; reflexivity.
  - vm_compute. reflexivity.
Qed.

(** C10.  The entries of a subcategory are keyed by the item: for a list
    of requirement texts, the dictionary of the subcategory has exactly
    the texts of the list as its keys, one entry per distinct text, which
    holds the outcome of the last occurrence of the text.  So it has at
    most as many entries as the list has items, and fewer when an item is
    repeated.  The totals count calls: [total_items] is the number of
    items, repeated or not, whose call returned, which is the number of
    all items of the request when every call returns.  A success response
    is made from these totals. *)
Theorem repeated_item_one_entry_each_counted (oracle : nat -> json -> reply)
    (before after : list (string * json)) (cat : string)
    (sbefore safter : list (string * json)) (sub : string) (items : list json)
    (st : scoring) :
  cat ∉ (fst <$> after) -> sub ∉ (fst <$> safter) ->
  categories_loop oracle
    (before ++ (cat, JDict (sbefore ++ (sub, JList items) :: safter)) :: after) initial
  = Done st ->
  total_items st
  = Z.of_nat (length (counted_scores
                        (replies oracle 0
                           (all_items (before
                                       ++ (cat, JDict (sbefore ++ (sub, JList items) :: safter))
                                       :: after)))))
  /\ (forallb returned
        (replies oracle 0
           (all_items (before ++ (cat, JDict (sbefore ++ (sub, JList items) :: safter))
                       :: after))) = true ->
      total_items st
      = Z.of_nat (length (all_items (before
                                     ++ (cat, JDict (sbefore ++ (sub, JList items) :: safter))
                                     :: after))))
  /\ (length items
      <= length (all_items (before ++ (cat, JDict (sbefore ++ (sub, JList items) :: safter))
                            :: after)))%nat
  /\ (exists C S,
         matching_results st !! cat = Some C /\ C !! sub = Some S
         /\ dom S = list_to_set (keys_of items)
         /\ (size S <= length items)%nat
         /\ (~ NoDup (keys_of items) -> (size S < length items)%nat)
         /\ (forall ibefore item later k,
                items = ibefore ++ item :: later ->
                key_of item = Some k -> k ∉ keys_of later ->
                S !! k
                = Some (kept (oracle (length (all_items before)
                                      + length (category_items sbefore)
                                      + length ibefore)%nat item)))
         /\ (forall texts,
                items = map JStr texts ->
                dom S = list_to_set (map text_key texts)
                /\ (~ NoDup texts -> (size S < length texts)%nat)
                /\ (forall tbefore text later,
                       texts = tbefore ++ text :: later -> text ∉ later ->
                       S !! (inl (inl text) : key)
                       = Some (kept (oracle (length (all_items before)
                                             + length (category_items sbefore)
                                             + length tbefore)%nat (JStr text))))))
  /\ (forall resume_details c log,
         unified_match_endpoint oracle
           (JDict (before ++ (cat, JDict (sbefore ++ (sub, JList items) :: safter)) :: after))
           resume_details
         = (JSONResponse c, log) ->
         c = mkcontent (matching_results st) (category_scores st)
               (if 0 <? total_items st
                then (total_score st / inject_Z (total_items st))%Q else 0%Q)
         /\ log = logged st).
Proof.
  intros Hcat Hsub Hdone.
  set (categories := before ++ (cat, JDict (sbefore ++ (sub, JList items) :: safter))
                     :: after) in *.
  pose proof (categories_loop_cases oracle categories initial) as Hcases.
  cbn [calls initial] in Hcases.
  destruct (request_ok oracle 0 categories);
    [| destruct Hcases as (l & d & Habort); rewrite Habort in Hdone; discriminate].
  rewrite Hcases in Hdone. inversion Hdone as [Hst]. clear Hdone.
  assert (Htotal : total_items (final_state oracle categories initial)
                   = Z.of_nat (length (counted_scores
                                         (replies oracle 0 (all_items categories))))).
  { unfold final_state. cbn [total_items initial calls].
    rewrite scored_categories_concat. lia. }
  split; [exact Htotal |].
  split.
  { intros Hall. rewrite Htotal, counted_scores_all by assumption.
    now rewrite replies_length. }
  split.
  { unfold categories. rewrite all_items_app, length_app.
    unfold all_items at 2. cbn [flat_map snd subcategories_of].
    rewrite length_app, category_items_app, length_app.
    unfold category_items at 2. cbn [flat_map snd items_of].
    rewrite length_app. lia. }
  split.
  { unfold final_state. cbn [matching_results initial calls].
    exists (category_results oracle (0 + length (all_items before))
              (sbefore ++ (sub, JList items) :: safter) ∅),
      (subcategory_results oracle
         (0 + length (all_items before) + length (category_items sbefore)) items ∅).
    split; [now apply reference_results_lookup |].
    split; [now apply category_results_lookup |].
    assert (Hdom : dom (subcategory_results oracle
                          (0 + length (all_items before)
                           + length (category_items sbefore)) items ∅)
                   = list_to_set (keys_of items)).
    { rewrite subcategory_results_dom, dom_empty_L. set_solver. }
    assert (Hlast : forall ibefore item later k,
               items = ibefore ++ item :: later ->
               key_of item = Some k -> k ∉ keys_of later ->
               subcategory_results oracle
                 (0 + length (all_items before) + length (category_items sbefore))
                 items ∅ !! k
               = Some (kept (oracle (length (all_items before)
                                     + length (category_items sbefore)
                                     + length ibefore)%nat item))).
    { intros ibefore item later k -> Ek Hk.
      rewrite subcategory_results_last by assumption. reflexivity. }
    split; [exact Hdom |].
    split.
    { rewrite <- size_dom, Hdom.
      etrans; [apply size_list_to_set_le | apply keys_of_length]. }
    split.
    { intros Hdup. rewrite <- size_dom, Hdom.
      eapply Nat.lt_le_trans; [now apply size_list_to_set_lt | apply keys_of_length]. }
    split; [exact Hlast |].
    intros texts ->. rewrite keys_of_texts in Hdom.
    assert (Hinj : forall a b : string, text_key a = text_key b -> a = b)
      by (intros a b E; now inversion E).
    split; [exact Hdom |].
    split.
    { intros Hdup. rewrite <- size_dom, Hdom.
      replace (length texts) with (length (map text_key texts)) by apply length_map.
      apply size_list_to_set_lt. intros Hnd. apply Hdup.
      eapply NoDup_fmap_1. exact Hnd. }
    intros tbefore text later -> Hlater.
    rewrite <- (length_map JStr tbefore).
    apply (Hlast (map JStr tbefore) (JStr text) (map JStr later) (text_key text)).
    - now rewrite map_app.
    - reflexivity.
    - rewrite keys_of_texts. intros Hin.
      apply list_elem_of_fmap in Hin. destruct Hin as (other & E & Hin).
      apply Hinj in E. now subst other. }
  intros resume_details c log H.
  unfold unified_match_endpoint in H.
  destruct (negb (truthy (JDict categories)) || negb (truthy resume_details));
    [discriminate H |].
  rewrite Hcases in H. inversion H; subst. split; reflexivity.
Qed.

Lemma repeated_item_one_entry_each_counted_witness :
  ("Skills" ∉ (fst <$> ([] : list (string * json)))) /\
  ("Core" ∉ (fst <$> ([] : list (string * json)))) /\
  categories_loop improving_oracle repeated_requirements initial = Done repeated_state /\
  total_items repeated_state = 2 /\
  exists C S,
    matching_results repeated_state !! "Skills" = Some C /\ C !! "Core" = Some S
    /\ dom S = list_to_set (map text_key ["Python"; "Python"])
    /\ (size S < 2)%nat
    /\ S !! (inl (inl "Python") : key) = Some (outcome_with "Full match").
Proof.
  assert (H1 : "Skills" ∉ (fst <$> ([] : list (string * json)))) by apply not_elem_of_nil.
  assert (H2 : "Core" ∉ (fst <$> ([] : list (string * json)))) by apply not_elem_of_nil.
  assert (H3 : categories_loop improving_oracle repeated_requirements initial
               = Done repeated_state) by (vm_compute; reflexivity).
  split; [exact H1 |]. split; [exact H2 |]. split; [exact H3 |].
  destruct (repeated_item_one_entry_each_counted improving_oracle [] [] "Skills" [] [] "Core"
              [JStr "Python"; JStr "Python"] repeated_state H1 H2 H3)
    as (Htotal & _ & _ & (C & S & HC & HS & _ & _ & _ & _ & Htexts) & _).
  split; [exact Htotal |].
  exists C, S.
  destruct (Htexts ["Python"; "Python"] eq_refl) as (Hdom & Hless & Hlast).
  split; [exact HC |]. split; [exact HS |]. split; [exact Hdom |].
  split.
  - apply Hless. intros Hnd. inversion Hnd as [| ? ? Hnotin _]. apply Hnotin. left.
  - apply (Hlast ["Python"] "Python" [] eq_refl). apply not_elem_of_nil.
Defined.

(** The same requirement listed twice: one entry in the tree, holding the
    outcome of the second call, and two items counted in the category
    mean and in the overall mean. *)
Example python_listed_twice :
  size ((matching_results repeated_state !!! "Skills") !!! "Core") = 1%nat
  /\ ((matching_results repeated_state !!! "Skills") !!! "Core")
     !! text_key "Python" = Some (outcome_with "Full match")
  /\ total_items repeated_state = 2
  /\ category_scores repeated_state !! "Skills" = Some (mean [(1 # 2)%Q; 1%Q])
  /\ unified_match_endpoint improving_oracle (JDict repeated_requirements) sample_resume
     = (JSONResponse repeated_content, [])
  /\ (c_overall_score repeated_content == 3 # 4)%Q.
Proof.
  repeat split; vm_compute; reflexivity.
Qed.

End MatchClaims.

(** ** Statements about the coercion of model output *)

Section CoerceClaims.
Import Text Coerce.

Lemma replace_no_single_quote (s : string) :
  no_single_quote s = true -> replace "'" Json.dquote s = s.
Proof.
  induction s as [| c s IH]; [reflexivity |].
  simpl. rewrite andb_true_iff, negb_true_iff. intros [Hc Hs].
  rewrite Hc, IH by assumption. reflexivity.
Qed.

Lemma in_braces_false (text : string) :
  in_braces text = false ->
  negb (startswith "{" text) || negb (endswith "}" text) = true.
Proof.
  unfold in_braces. destruct (startswith "{" text), (endswith "}" text);
    simpl; congruence.
Qed.

Lemma in_braces_true (text : string) :
  in_braces text = true ->
  negb (startswith "{" text) || negb (endswith "}" text) = false.
Proof.
  unfold in_braces. destruct (startswith "{" text), (endswith "}" text);
    simpl; congruence.
Qed.

(** C9, as amended.  Model output is turned into JSON at two sites, and
    neither performs all four steps of the coercer.  The resume site
    ([generate_gpt_insights]) trims, refuses text that is not within
    braces and parses strictly, without replacing quotes; the query site
    ([parse_natural_query]) trims, replaces single by double quotes and
    parses strictly, without looking at the braces.  So the resume site
    is the coercer on text without single quotes, the query site is the
    coercer on text within braces, and text that is not within braces is
    refused by the resume site and parsed by the query site.  With a
    strict parser, the reply with single quotes and surrounding white
    space coerces to the object with "a" set to "b" at the query site and
    is refused at the resume site, and "not json" is refused at both; a
    refusal is the HTTP error 500 of the enclosing function. *)
Theorem coercion_sites (json_loads : string -> option json) (raw : string) :
  (no_single_quote (strip raw) = true ->
   gpt_insights json_loads raw = response_coercer json_loads raw)
  /\ (in_braces (strip raw) = true ->
      parsed_query json_loads raw = response_coercer json_loads raw)
  /\ (in_braces (strip raw) = false ->
      gpt_insights json_loads raw = Failure InvalidJSONResponse
      /\ response_coercer json_loads raw = Failure InvalidJSONResponse
      /\ parsed_query json_loads raw
         = match json_loads (replace "'" Json.dquote (strip raw)) with
           | Some v => Parsed v
           | None => Failure ErrorParsingJSON
           end)
  /\ parsed_query Json.loads single_quoted_reply = Parsed (JDict [("a", JStr "b")])
  /\ response_coercer Json.loads single_quoted_reply = Parsed (JDict [("a", JStr "b")])
  /\ gpt_insights Json.loads single_quoted_reply = Failure ErrorParsingJSON
  /\ parsed_query Json.loads "not json" = Failure ErrorParsingJSON
  /\ gpt_insights Json.loads "not json" = Failure InvalidJSONResponse
  /\ response_coercer Json.loads "not json" = Failure InvalidJSONResponse.
Proof.
  split; [| split; [| split]].
  - intros Hq. unfold gpt_insights, response_coercer.
    now rewrite replace_no_single_quote.
  - intros Hb. unfold parsed_query, response_coercer.
    now rewrite in_braces_true.
  - intros Hb. unfold gpt_insights, response_coercer, parsed_query.
    rewrite in_braces_false by assumption. repeat split.
  - repeat split; vm_compute; reflexivity.
Qed.

Lemma coercion_sites_witness :
  no_single_quote (strip "  {}  ") = true /\
  in_braces (strip "  {}  ") = true /\
  in_braces (strip "[1, 2]") = false /\
  gpt_insights Json.loads "  {}  " = response_coercer Json.loads "  {}  " /\
  parsed_query Json.loads "  {}  " = response_coercer Json.loads "  {}  " /\
  gpt_insights Json.loads "[1, 2]" = Failure InvalidJSONResponse.
Proof.
  assert (H1 : no_single_quote (strip "  {}  ") = true) by reflexivity.
  assert (H2 : in_braces (strip "  {}  ") = true) by reflexivity.
  assert (H3 : in_braces (strip "[1, 2]") = false) by reflexivity.
  split; [exact H1 |]. split; [exact H2 |]. split; [exact H3 |].
  split; [exact (proj1 (coercion_sites Json.loads "  {}  ") H1) |].
  split; [exact (proj1 (proj2 (coercion_sites Json.loads "  {}  ")) H2) |].
  exact (proj1 (proj1 (proj2 (proj2 (coercion_sites Json.loads "[1, 2]"))) H3)).
Defined.

(** C9 as stated fails at both sites: the resume site refuses the reply
    with single quotes, which the coercer accepts, and the query site
    accepts a JSON array, which the coercer refuses. *)
Lemma no_site_is_the_coercer :
  gpt_insights Json.loads single_quoted_reply = Failure ErrorParsingJSON
  /\ response_coercer Json.loads single_quoted_reply = Parsed (JDict [("a", JStr "b")])
  /\ parsed_query Json.loads "[1, 2]" = Parsed (JList [JNum 1; JNum 2])
  /\ response_coercer Json.loads "[1, 2]" = Failure InvalidJSONResponse
  /\ ~ (forall raw, gpt_insights Json.loads raw = response_coercer Json.loads raw)
  /\ ~ (forall raw, parsed_query Json.loads raw = response_coercer Json.loads raw).
Proof.
  split; [vm_compute; reflexivity |].
  split; [vm_compute; reflexivity |].
  split; [vm_compute; reflexivity |].
  split; [vm_compute; reflexivity |].
  split.
  - intros H. specialize (H single_quoted_reply). vm_compute in H. discriminate H.
  - intros H. specialize (H "[1, 2]"). vm_compute in H. discriminate H.
Qed.

End CoerceClaims.

(** * Further properties *)

(** ** The experience aggregator *)

Section MoreExperienceFacts.
Import Text Strptime Experience Records Wellformed.

Lemma dict_get_set_other (k k' : string) (v : json) (d : list (string * json)) :
  k <> k' -> Dict.get k (Dict.set k' v d) = Dict.get k d.
Proof.
  intros Hk. induction d as [| [n w] d IH]; simpl.
  - destruct (String.eqb_spec k' k) as [E | _]; [congruence | reflexivity].
  - destruct (String.eqb_spec n k') as [-> | Hn]; simpl.
    + destruct (String.eqb_spec k' k) as [E | _]; [congruence | reflexivity].
    + destruct (String.eqb_spec n k); [reflexivity | exact IH].
Qed.

Lemma dict_set_set (k : string) (v w : json) (d : list (string * json)) :
  Dict.set k v (Dict.set k w d) = Dict.set k v d.
Proof.
  induction d as [| [n x] d IH]; simpl.
  - now rewrite String.eqb_refl.
  - destruct (String.eqb_spec n k) as [-> | Hn]; simpl.
    + now rewrite String.eqb_refl.
    + destruct (String.eqb_spec n k); [congruence | now rewrite IH].
Qed.

Lemma dates_of_with_experience (job : json) (years : Q) :
  dates_of (with_experience job years) = dates_of job.
Proof.
  destruct job as [| | | | | d]; try reflexivity.
  simpl. now rewrite dict_get_set_other by discriminate.
Qed.

Lemma parsed_range_with_experience (job : json) (years : Q) :
  parsed_range (with_experience job years) = parsed_range job.
Proof. unfold parsed_range. now rewrite dates_of_with_experience. Qed.

Lemma with_experience_twice (job : json) (y z : Q) :
  with_experience (with_experience job z) y = with_experience job y.
Proof.
  destruct job as [| | | | | d]; try reflexivity.
  simpl. now rewrite dict_set_set.
Qed.

(** The output of a run, run again. *)
Lemma kept_records_again (clock : nat -> datetime) (jobs : list json) :
  forall tick,
    let records := zip_experience (List.filter parses jobs)
                     (valid_durations clock tick jobs) in
    valid_durations clock tick records = valid_durations clock tick jobs
    /\ List.filter parses records = records
    /\ zip_experience records (valid_durations clock tick jobs) = records
    /\ forallb is_job_record records = true.
Proof.
  induction jobs as [| job jobs IH]; intros tick; [repeat split |].
  cbn zeta. rewrite (valid_durations_step clock tick job jobs). cbn [List.filter].
  assert (Hp : parses job
               = match parsed_range job with Some _ => true | None => false end)
    by reflexivity.
  assert (Hq : forall y, parses (with_experience job y) = parses job).
  { intros y. unfold parses. now rewrite parsed_range_with_experience. }
  assert (Hj : parses job = true -> forall y, is_job_record (with_experience job y) = true).
  { intros H y. unfold is_job_record. rewrite dates_of_with_experience.
    unfold parses, parsed_range in H. destruct (dates_of job); [reflexivity | discriminate]. }
  destruct (parsed_range job) as [[start_date [end_date |]] |] eqn:Ep; rewrite Hp.
  - destruct (IH tick) as (Hd & Hf & Hz & Hr). cbn zeta in *.
    cbn [zip_experience List.filter forallb]. rewrite valid_durations_step.
    rewrite parsed_range_with_experience, Ep, Hq, Hp. cbn [zip_experience].
    rewrite with_experience_twice, Hd, Hf, Hz, Hr, Hj by assumption.
    repeat split.
  - destruct (IH (S tick)) as (Hd & Hf & Hz & Hr). cbn zeta in *.
    cbn [zip_experience List.filter forallb]. rewrite valid_durations_step.
    rewrite parsed_range_with_experience, Ep, Hq, Hp. cbn [zip_experience].
    rewrite with_experience_twice, Hd, Hf, Hz, Hr, Hj by assumption.
    repeat split.
  - apply IH.
Qed.

Lemma stored_values (records : list json) (durations : list Q) :
  map stored_experience records = map (fun d => Some (round1 d)) durations ->
  map stored_experience records = map Some (map round1 durations)
  /\ length records = length durations.
Proof.
  intros H. split.
  - rewrite H, map_map. reflexivity.
  - rewrite <- (length_map stored_experience), H, length_map. reflexivity.
Qed.

End MoreExperienceFacts.

Section MoreExperience.
Import Text Strptime Experience Records Wellformed.

(** X1.  Running [calculate_experience] on the records it returned, with
    the same readings of the clock, returns the same total and the same
    records: every returned record parses again, and its
    [experience_years] is overwritten by the same value. *)
Theorem calculate_experience_idempotent (clock : nat -> datetime) (jobs : list json)
    (total_years : Q) (records : list json) :
  calculate_experience clock jobs = Returned (total_years, records) ->
  calculate_experience clock records = Returned (total_years, records).
Proof.
  intros H.
  destruct (calculate_experience_returned clock jobs total_years records H)
    as (-> & -> & _).
  destruct (kept_records_again clock jobs 0%nat) as (Hd & Hf & Hz & Hr).
  cbn zeta in *.
  unfold calculate_experience, float_sum.
  rewrite experience_loop_records by exact Hr.
  rewrite Hd, Hf, Hz. reflexivity.
Qed.

Lemma calculate_experience_idempotent_witness :
  calculate_experience sample_clock short_jobs
    = Returned ((3 # 10)%Q,
                [ with_experience (job "January 2015 - March 2015") (2 # 12);
                  with_experience (job "January 2016 - March 2016") (2 # 12) ])
  /\ calculate_experience sample_clock
       [ with_experience (job "January 2015 - March 2015") (2 # 12);
         with_experience (job "January 2016 - March 2016") (2 # 12) ]
     = Returned ((3 # 10)%Q,
                 [ with_experience (job "January 2015 - March 2015") (2 # 12);
                   with_experience (job "January 2016 - March 2016") (2 # 12) ]).
Proof.
  assert (H : calculate_experience sample_clock short_jobs
              = Returned ((3 # 10)%Q,
                          [ with_experience (job "January 2015 - March 2015") (2 # 12);
                            with_experience (job "January 2016 - March 2016") (2 # 12) ]))
    by (vm_compute; reflexivity).
  split; [exact H |].
  exact (calculate_experience_idempotent sample_clock short_jobs _ _ H).
Defined.

(** X2.  A job that is still running counts whole calendar months: when
    its start month is not after the reading of the clock, its duration
    is the number of months from the start month to the month of the
    reading, over 12, whatever the day and the time of the reading; this
    value, rounded to one decimal, is stored in the record and is the
    total of a run on this record alone. *)
Theorem ongoing_job_counts_calendar_months (clock : nat -> datetime) (m y : Z)
    (word : string) (d : list (string * json)) :
  1 <= m <= 12 -> 1 <= y <= 9999 -> ongoing_word word ->
  valid_datetime (clock 0%nat) -> dt_ltb (clock 0%nat) (mkdt y m 1 0) = false ->
  Dict.get "employment_dates" d = Some (JStr (open_range m y word)) ->
  let months := (dt_year (clock 0%nat) - y) * 12 + (dt_month (clock 0%nat) - m) in
  0 <= months
  /\ calculate_experience clock [JDict d]
     = Returned (round1 (inject_Z months / 12),
                 [ JDict (Dict.set "experience_years"
                            (JNum (round1 (inject_Z months / 12))) d) ]).
Proof.
  intros Hm Hy Hw Hvalid Hord Hget months.
  pose proof Hvalid as (Hcy & Hcm & Hcd & Hct).
  destruct (settled_months_in_order (mkdt y m 1 0) (clock 0%nat)) as [Hs Hpos];
    [assumption | simpl; lia | assumption |].
  change (month_difference (clock 0%nat) (mkdt y m 1 0)) with months in *.
  split; [exact Hpos |].
  assert (Hrange : proper_range (mkdt y m 1 0, clock 0%nat)).
  { split; [cbn [fst dt_year dt_month dt_day dt_time]; lia | exact Hvalid]. }
  pose proof (single_total _ Hrange) as Htotal.
  destruct (proper_range_years _ Hrange) as (_ & _ & _ & Hr & _).
  unfold range_months in Htotal, Hr. cbn [fst snd] in Htotal, Hr.
  rewrite Hs in Htotal, Hr.
  unfold calculate_experience. cbn [experience_loop]. rewrite Hget.
  cbn [default from_option id].
  rewrite parse_open_range by assumption.
  cbn [experience_loop app]. rewrite Htotal, Hr. reflexivity.
Qed.

Lemma ongoing_job_counts_calendar_months_witness :
  1 <= 3 <= 12 /\ 1 <= 2020 <= 9999 /\ ongoing_word "Present"
  /\ valid_datetime (sample_clock 0%nat)
  /\ dt_ltb (sample_clock 0%nat) (mkdt 2020 3 1 0) = false
  /\ Dict.get "employment_dates" [ ("employment_dates", JStr "March 2020 - Present") ]
     = Some (JStr (open_range 3 2020 "Present"))
  /\ 0 <= (2026 - 2020) * 12 + (11 - 3)
  /\ calculate_experience sample_clock
       [ JDict [ ("employment_dates", JStr "March 2020 - Present") ] ]
     = Returned (round1 (inject_Z ((2026 - 2020) * 12 + (11 - 3)) / 12),
                 [ JDict (Dict.set "experience_years"
                            (JNum (round1 (inject_Z ((2026 - 2020) * 12 + (11 - 3)) / 12)))
                            [ ("employment_dates", JStr "March 2020 - Present") ]) ]).
Proof.
  assert (H1 : 1 <= 3 <= 12) by lia.
  assert (H2 : 1 <= 2020 <= 9999) by lia.
  assert (H3 : ongoing_word "Present") by (left; reflexivity).
  assert (H4 : valid_datetime (sample_clock 0%nat))
    by (unfold valid_datetime, sample_clock; simpl; lia).
  assert (H5 : dt_ltb (sample_clock 0%nat) (mkdt 2020 3 1 0) = false) by reflexivity.
  assert (H6 : Dict.get "employment_dates"
                 [ ("employment_dates", JStr "March 2020 - Present") ]
               = Some (JStr (open_range 3 2020 "Present"))) by reflexivity.
  repeat (split; [assumption |]).
  exact (ongoing_job_counts_calendar_months sample_clock 3 2020 "Present"
           [ ("employment_dates", JStr "March 2020 - Present") ] H1 H2 H3 H4 H5 H6).
Defined.

(** X3.  The total that is returned and the sum of the one-decimal
    values stored in the returned records can differ, but by no more
    than 0.05 for each record and 0.05 for the total itself (for dates of
    the calendar and at most 100000 jobs, where the rounding errors of
    the float additions stay below one hundredth). *)
Theorem total_close_to_sum_of_stored (clock : nat -> datetime) (jobs : list json)
    (total_years : Q) (records : list json) :
  (forall n, valid_datetime (clock n)) -> Z.of_nat (length jobs) <= 100000 ->
  calculate_experience clock jobs = Returned (total_years, records) ->
  exists stored : list Q,
    map stored_experience records = map Some stored
    /\ (sum_years stored - inject_Z (Z.of_nat (length records) + 1) / 20
        <= total_years)%Q
    /\ (total_years
        <= sum_years stored + inject_Z (Z.of_nat (length records) + 1) / 20)%Q.
Proof.
  intros Hclock Hlen H.
  destruct (calculate_experience_returned clock jobs total_years records H)
    as (-> & _ & Hstored).
  destruct (stored_values _ _ Hstored) as [Hmap Hlength].
  exists (map round1 (valid_durations clock 0 jobs)).
  split; [exact Hmap |].
  pose proof (valid_ranges_proper clock jobs Hclock 0%nat) as Hranges.
  destruct (total_against_exact_sum clock jobs Hclock Hlen) as (_ & Hclose & _ & _).
  cbv zeta in Hclose.
  pose proof (round1_near_twelfths _ _ Hclose) as Hnear.
  pose proof (fold_round1_months _ Hranges 0 0 0) as Hsum.
  unfold sum_years. fold (valid_durations clock 0 jobs) in Hsum.
  fold (total_months (valid_ranges clock 0 jobs)) in Hsum.
  assert (Hn : length records = length (valid_ranges clock 0 jobs))
    by (rewrite Hlength; unfold valid_durations; apply length_map).
  rewrite Hn, inject_Z_plus. change (inject_Z 1) with 1%Q.
  assert (H0 : (Qabs (0 - inject_Z 0 / 12) <= 0)%Q)
    by (apply Qabs_Qle_condition; change (inject_Z 0) with 0%Q; unfold Qdiv; split; lra).
  specialize (Hsum H0).
  apply Qabs_Qle_condition in Hnear. apply Qabs_Qle_condition in Hsum.
  unfold Qdiv in *. change (/ 20)%Q with (1 # 20)%Q in *.
  split; lra.
Qed.

Lemma total_close_to_sum_of_stored_witness :
  (forall n, valid_datetime (sample_clock n))
  /\ Z.of_nat (length short_jobs) <= 100000
  /\ calculate_experience sample_clock short_jobs
    = Returned ((3 # 10)%Q,
                [ with_experience (job "January 2015 - March 2015") (2 # 12);
                  with_experience (job "January 2016 - March 2016") (2 # 12) ])
  /\ exists stored : list Q,
       map stored_experience
         [ with_experience (job "January 2015 - March 2015") (2 # 12);
           with_experience (job "January 2016 - March 2016") (2 # 12) ]
       = map Some stored
       /\ (sum_years stored - inject_Z (Z.of_nat 2 + 1) / 20 <= 3 # 10)%Q
       /\ (3 # 10 <= sum_years stored + inject_Z (Z.of_nat 2 + 1) / 20)%Q.
Proof.
  assert (Hclock : forall n, valid_datetime (sample_clock n))
    by (intros n; unfold valid_datetime, sample_clock; simpl; lia).
  assert (Hlen : Z.of_nat (length short_jobs) <= 100000) by (simpl; lia).
  assert (H : calculate_experience sample_clock short_jobs
              = Returned ((3 # 10)%Q,
                          [ with_experience (job "January 2015 - March 2015") (2 # 12);
                            with_experience (job "January 2016 - March 2016") (2 # 12) ]))
    by (vm_compute; reflexivity).
  split; [exact Hclock |]. split; [exact Hlen |]. split; [exact H |].
  exact (total_close_to_sum_of_stored sample_clock short_jobs _ _ Hclock Hlen H).
Defined.

End MoreExperience.

(** ** The resume service *)

Section MoreResumeFacts.
Import Text Py Http Experience Records Resume.

(** What follows an opening brace parses to a dictionary, if at all. *)
Lemma parse_members_dict (fuel : nat) :
  forall (s : string) (members : list (string * json)) (v : json) (rest : string),
    Json.parse_members fuel s members = Some (v, rest) -> exists d, v = JDict d.
Proof.
  induction fuel as [| fuel IH]; intros s members v rest H; [discriminate H |].
  simpl in H. split_match H; first [eapply IH; exact H | inversion H; eauto].
Qed.

Lemma loads_object (s : string) (v : json) :
  startswith "{" s = true -> Json.loads s = Some v -> exists d, v = JDict d.
Proof.
  intros Hs H. destruct s as [| c r]; [discriminate Hs |].
  simpl in Hs. apply Ascii.eqb_eq in Hs. subst c.
  unfold Json.loads in H.
  replace (2 * String.length (String "{" r) + 2)%nat
    with (S (2 * String.length (String "{" r) + 1)) in H by lia.
  change (Json.skip_ws (String "{" r)) with (String "{" r) in H.
  destruct (Json.parse_value _ _) as [[w rest] |] eqn:Ev; [| discriminate H].
  assert (Hw : exists d, w = JDict d).
  { cbn [Json.parse_value] in Ev.
    change (Ascii.eqb "{" Json.dquote) with false in Ev.
    change (Ascii.eqb "{" "{") with true in Ev. cbv iota in Ev.
    split_match Ev; try (inversion Ev; eauto; fail);
      eapply parse_members_dict; exact Ev. }
  destruct Hw as [d ->]. split_match H. inversion H. eauto.
Qed.

Lemma pages_text_joined (pages : list (option string)) :
  forall text,
    pages_text pages text
    = if forallb has_text pages then Returned (text +:+ joined pages)
      else Raised TypeError.
Proof.
  induction pages as [| [t |] pages IH]; intros text; cbn [pages_text forallb has_text joined andb].
  - now rewrite string_app_nil_r.
  - rewrite IH. destruct (forallb has_text pages); [| reflexivity].
    now rewrite string_app_assoc.
  - reflexivity.
Qed.

Lemma fold_left_lines (paragraphs : list string) :
  forall text,
    fold_left (fun text paragraph => text +:+ paragraph +:+ newline) paragraphs text
    = text +:+ lines paragraphs.
Proof.
  induction paragraphs as [| p rest IH]; intros text; cbn [fold_left lines].
  - now rewrite string_app_nil_r.
  - rewrite IH. now rewrite !string_app_assoc.
Qed.

End MoreResumeFacts.

Section MoreResume.
Import Text Py Http Experience Records Resume.

(** X4.  When [generate_gpt_insights] returns, the model replied with an
    object; the [total_experience] and the [work_experience] of the
    result are the total and the records that [calculate_experience]
    returns for the jobs of the reply, whatever the reply said under
    [total_experience]; every other key has the value the reply gave
    it. *)
Theorem insights_replace_experience_keep_rest (json_loads : string -> option json)
    (clock : nat -> datetime) (api : string -> completion) (resume_text : string)
    (gpt_insights : list (string * json)) :
  generate_gpt_insights json_loads clock api resume_text = Ok gpt_insights ->
  exists text reply jobs total_years records,
    api resume_text = Content text
    /\ Coerce.gpt_insights json_loads text = Coerce.Parsed (JDict reply)
    /\ iterate (default (JList []) (Dict.get "work_experience" reply)) = Returned jobs
    /\ calculate_experience clock jobs = Returned (total_years, records)
    /\ Dict.get "total_experience" gpt_insights = Some (JNum total_years)
    /\ Dict.get "work_experience" gpt_insights = Some (JList records)
    /\ (forall k, k <> "total_experience" -> k <> "work_experience" ->
                  Dict.get k gpt_insights = Dict.get k reply).
Proof.
  unfold generate_gpt_insights. intros H.
  destruct (api resume_text) as [text | |] eqn:Ea; try discriminate H.
  destruct (Coerce.gpt_insights json_loads text) as [[| | | | | reply] | []] eqn:Eg;
    try discriminate H.
  destruct (iterate _) as [jobs |] eqn:Ei; [| discriminate H].
  cbn [bind] in H.
  destruct (calculate_experience clock jobs) as [[total_years records] |] eqn:Ec;
    [| discriminate H].
  inversion H; subst. exists text, reply, jobs, total_years, records.
  do 4 (split; [assumption || reflexivity |]).
  split; [| split].
  - rewrite dict_get_set_other by discriminate. apply dict_get_set.
  - apply dict_get_set.
  - intros k H1 H2. now rewrite !dict_get_set_other by congruence.
Qed.

Lemma insights_replace_experience_keep_rest_witness :
  generate_gpt_insights Json.loads sample_clock sample_api "Resume of A. Candidate"
    = Ok sample_insights
  /\ exists text reply jobs total_years records,
       sample_api "Resume of A. Candidate" = Content text
       /\ Coerce.gpt_insights Json.loads text = Coerce.Parsed (JDict reply)
       /\ iterate (default (JList []) (Dict.get "work_experience" reply)) = Returned jobs
       /\ calculate_experience sample_clock jobs = Returned (total_years, records)
       /\ Dict.get "total_experience" sample_insights = Some (JNum total_years)
       /\ Dict.get "work_experience" sample_insights = Some (JList records)
       /\ (forall k, k <> "total_experience" -> k <> "work_experience" ->
                     Dict.get k sample_insights = Dict.get k reply).
Proof.
  assert (H : generate_gpt_insights Json.loads sample_clock sample_api
                "Resume of A. Candidate" = Ok sample_insights)
    by (vm_compute; reflexivity).
  split; [exact H |].
  exact (insights_replace_experience_keep_rest Json.loads sample_clock sample_api
           "Resume of A. Candidate" sample_insights H).
Defined.

(** X5.  At the resume site a reply that passes the brace test and
    parses as JSON is always an object, so the lookup of
    [work_experience] that follows cannot fail on it. *)
Theorem insights_reply_is_object (raw : string) (v : json) :
  Coerce.gpt_insights Json.loads raw = Coerce.Parsed v -> exists d, v = JDict d.
Proof.
  unfold Coerce.gpt_insights. intros H.
  destruct (startswith "{" (strip raw)) eqn:Hs; [| discriminate H].
  destruct (Json.loads (strip raw)) as [w |] eqn:El;
    [| destruct (negb _ || negb _); discriminate H].
  destruct (negb _ || negb _); [discriminate H |].
  inversion H; subst. eapply loads_object; eassumption.
Qed.

Lemma insights_reply_is_object_witness :
  Coerce.gpt_insights Json.loads "  {}  " = Coerce.Parsed (JDict [])
  /\ exists d, JDict [] = JDict d.
Proof.
  assert (H : Coerce.gpt_insights Json.loads "  {}  " = Coerce.Parsed (JDict []))
    by (vm_compute; reflexivity).
  split; [exact H |].
  exact (insights_reply_is_object "  {}  " (JDict []) H).
Defined.

(** X6.  The shapes of [work_experience] in a reply that is an object.
    Without the key, or with an empty list, text or object under it, the
    result has the total 0 and no records.  With null, a truth value or a
    number under it the function fails with status 500 on a [TypeError];
    with a text or an object that is not empty it fails with status 500
    on an [AttributeError], for the characters or keys are taken for
    jobs. *)
Theorem work_experience_shapes (json_loads : string -> option json)
    (clock : nat -> datetime) (api : string -> completion) (resume_text text : string)
    (reply : list (string * json)) :
  api resume_text = Content text ->
  Coerce.gpt_insights json_loads text = Coerce.Parsed (JDict reply) ->
  (Dict.get "work_experience" reply = None
   \/ Dict.get "work_experience" reply = Some (JList [])
   \/ Dict.get "work_experience" reply = Some (JStr EmptyString)
   \/ Dict.get "work_experience" reply = Some (JDict []) ->
   generate_gpt_insights json_loads clock api resume_text
   = Ok (Dict.set "work_experience" (JList [])
           (Dict.set "total_experience" (JNum (round1 0)) reply)))
  /\ (Dict.get "work_experience" reply = Some JNull
      \/ (exists b, Dict.get "work_experience" reply = Some (JBool b))
      \/ (exists q, Dict.get "work_experience" reply = Some (JNum q)) ->
      generate_gpt_insights json_loads clock api resume_text
      = HTTPException 500 (Wrapped "An error occurred: " (Exn TypeError)))
  /\ ((exists c s, Dict.get "work_experience" reply = Some (JStr (String c s)))
      \/ (exists entry d, Dict.get "work_experience" reply = Some (JDict (entry :: d))) ->
      generate_gpt_insights json_loads clock api resume_text
      = HTTPException 500 (Wrapped "An error occurred: " (Exn AttributeError))).
Proof.
  intros Ha Eg. unfold generate_gpt_insights. rewrite Ha, Eg.
  split; [| split].
  - intros [E | [E | [E | E]]]; rewrite E; reflexivity.
  - intros [E | [[b E] | [q E]]]; rewrite E; reflexivity.
  - intros [(c & s & E) | (entry & d & E)]; rewrite E; reflexivity.
Qed.

Lemma work_experience_shapes_witness :
  (fun _ : string => Content "{}") "Resume" = Content "{}"
  /\ Coerce.gpt_insights Json.loads "{}" = Coerce.Parsed (JDict [])
  /\ Dict.get "work_experience" [] = None
  /\ generate_gpt_insights Json.loads sample_clock (fun _ => Content "{}") "Resume"
     = Ok (Dict.set "work_experience" (JList [])
             (Dict.set "total_experience" (JNum (round1 0)) [])).
Proof.
  assert (Ha : (fun _ : string => Content "{}") "Resume" = Content "{}") by reflexivity.
  assert (Eg : Coerce.gpt_insights Json.loads "{}" = Coerce.Parsed (JDict []))
    by (vm_compute; reflexivity).
  assert (E : Dict.get "work_experience" [] = None) by reflexivity.
  split; [exact Ha |]. split; [exact Eg |]. split; [exact E |].
  exact (proj1 (work_experience_shapes Json.loads sample_clock (fun _ => Content "{}")
                  "Resume" "{}" [] Ha Eg) (or_introl E)).
Defined.

(** X7.  [upload_resume] answers with status 200 or 500 and nothing
    else.  For a file whose name ends neither in ".pdf" nor in ".docx"
    (in exactly these letters) the [HTTPException] with status 400 that
    is raised is caught by the handler of the function itself: the answer
    has status 500, the 400 survives only inside its detail, and neither
    the content of the file nor the model is consulted. *)
Theorem upload_resume_never_answers_400 (json_loads : string -> option json)
    (clock : nat -> datetime) (api : string -> completion) (file : upload) :
  (status_of (upload_resume json_loads clock api file) = 200
   \/ status_of (upload_resume json_loads clock api file) = 500)
  /\ (has_suffix ".pdf" (filename file) = false ->
      has_suffix ".docx" (filename file) = false ->
      upload_resume json_loads clock api file
      = HTTPException 500
          (Wrapped "An error occurred: "
             (Http 400
                (Literal "Unsupported file format. Please upload a PDF or DOCX file.")))).
Proof.
  split.
  - unfold upload_resume.
    destruct (if has_suffix ".pdf" (filename file) then _ else _) as [resume_text | c];
      [| right; reflexivity].
    destruct (generate_gpt_insights json_loads clock api resume_text);
      [left | right]; reflexivity.
  - intros Hpdf Hdocx. unfold upload_resume. rewrite Hpdf, Hdocx. reflexivity.
Qed.

Lemma upload_resume_never_answers_400_witness :
  has_suffix ".pdf" (filename spreadsheet) = false
  /\ has_suffix ".docx" (filename spreadsheet) = false
  /\ upload_resume Json.loads sample_clock sample_api spreadsheet
     = HTTPException 500
         (Wrapped "An error occurred: "
            (Http 400
               (Literal "Unsupported file format. Please upload a PDF or DOCX file."))).
Proof.
  assert (H1 : has_suffix ".pdf" (filename spreadsheet) = false) by reflexivity.
  assert (H2 : has_suffix ".docx" (filename spreadsheet) = false) by reflexivity.
  split; [exact H1 |]. split; [exact H2 |].
  exact (proj2 (upload_resume_never_answers_400 Json.loads sample_clock sample_api
                  spreadsheet) H1 H2).
Defined.

(** X8.  The text of a PDF is the text of its pages joined without any
    separator.  One page for which the extraction gives no text makes the
    upload fail with status 500 on a [TypeError], whatever the other
    pages hold, and the model is not asked. *)
Theorem page_without_text_fails_upload (json_loads : string -> option json)
    (clock : nat -> datetime) (api : string -> completion) (file : upload)
    (pages : list (option string)) :
  has_suffix ".pdf" (filename file) = true -> as_pdf file = Opened pages ->
  (forallb has_text pages = true ->
   extract_text_from_pdf (as_pdf file) = Got (joined pages)
   /\ upload_resume json_loads clock api file
      = match generate_gpt_insights json_loads clock api (joined pages) with
        | Ok gpt_insights => Ok gpt_insights
        | HTTPException status d =>
            HTTPException 500 (Wrapped "An error occurred: " (Http status d))
        end)
  /\ (forallb has_text pages = false ->
      upload_resume json_loads clock api file
      = HTTPException 500 (Wrapped "An error occurred: " (Exn TypeError))).
Proof.
  intros Hname Hpages. unfold upload_resume, extract_text_from_pdf.
  rewrite Hname, Hpages, pages_text_joined.
  split; intros Hall; rewrite Hall; [split |]; reflexivity.
Qed.

Lemma page_without_text_fails_upload_witness :
  has_suffix ".pdf" (filename scanned) = true
  /\ as_pdf scanned = Opened [Some "A. Candidate"; None]
  /\ forallb has_text [Some "A. Candidate"; None] = false
  /\ upload_resume Json.loads sample_clock sample_api scanned
     = HTTPException 500 (Wrapped "An error occurred: " (Exn TypeError)).
Proof.
  assert (H1 : has_suffix ".pdf" (filename scanned) = true) by reflexivity.
  assert (H2 : as_pdf scanned = Opened [Some "A. Candidate"; None]) by reflexivity.
  assert (H3 : forallb has_text [Some "A. Candidate"; None] = false) by reflexivity.
  split; [exact H1 |]. split; [exact H2 |]. split; [exact H3 |].
  exact (proj2 (page_without_text_fails_upload Json.loads sample_clock sample_api
                  scanned [Some "A. Candidate"; None] H1 H2) H3).
Defined.

(** X9.  The text of a DOCX file is its paragraphs in order, each one
    followed by a line feed, the last one too; this text is what the
    model is asked about, and a failure of [generate_gpt_insights] comes
    back with status 500, its own status and detail inside the detail. *)
Theorem docx_paragraphs_end_lines (json_loads : string -> option json)
    (clock : nat -> datetime) (api : string -> completion) (file : upload)
    (paragraphs : list string) :
  has_suffix ".pdf" (filename file) = false ->
  has_suffix ".docx" (filename file) = true ->
  as_docx file = Opened paragraphs ->
  extract_text_from_docx (as_docx file) = Got (lines paragraphs)
  /\ upload_resume json_loads clock api file
     = match generate_gpt_insights json_loads clock api (lines paragraphs) with
       | Ok gpt_insights => Ok gpt_insights
       | HTTPException status d =>
           HTTPException 500 (Wrapped "An error occurred: " (Http status d))
       end.
Proof.
  intros Hpdf Hdocx Hfile. unfold upload_resume, extract_text_from_docx.
  rewrite Hpdf, Hdocx, Hfile, fold_left_lines. split; reflexivity.
Qed.

Lemma docx_paragraphs_end_lines_witness :
  has_suffix ".pdf" (filename letter) = false
  /\ has_suffix ".docx" (filename letter) = true
  /\ as_docx letter = Opened ["A. Candidate"; "Engineer"]
  /\ extract_text_from_docx (as_docx letter) = Got (lines ["A. Candidate"; "Engineer"]).
Proof.
  assert (H1 : has_suffix ".pdf" (filename letter) = false) by reflexivity.
  assert (H2 : has_suffix ".docx" (filename letter) = true) by reflexivity.
  assert (H3 : as_docx letter = Opened ["A. Candidate"; "Engineer"]) by reflexivity.
  split; [exact H1 |]. split; [exact H2 |]. split; [exact H3 |].
  exact (proj1 (docx_paragraphs_end_lines Json.loads sample_clock sample_api letter
                  ["A. Candidate"; "Engineer"] H1 H2 H3)).
Defined.

End MoreResume.

(** ** The query service *)

Section MoreQueryFacts.
Import Text Py Http Query.

Lemma must_clauses_with_skills (q skills : list (string * json))
    (technical soft : list json) :
  Dict.get "skills" q = Some (JDict skills) ->
  iterate (default (JList []) (Dict.get "technical_skills" skills)) = Returned technical ->
  iterate (default (JList []) (Dict.get "soft_skills" skills)) = Returned soft ->
  must_clauses (JDict q)
  = Returned (map (match_clause "skills.technical_skills") technical
              ++ map (match_clause "skills.soft_skills") soft
              ++ experience_clauses q).
Proof.
  intros Hs Ht Hf. unfold must_clauses, experience_clauses, skill_clauses.
  cbn [present bind]. rewrite Hs. cbn [bind]. rewrite Ht, Hf. cbn [bind].
  now rewrite app_assoc.
Qed.

Lemma must_clauses_without_skills (q : list (string * json)) :
  Dict.get "skills" q = None ->
  must_clauses (JDict q) = Returned (experience_clauses q).
Proof.
  intros Hs. unfold must_clauses, experience_clauses.
  cbn [present bind]. rewrite Hs. reflexivity.
Qed.


Lemma lstrip_replace (a b : ascii) (s : string) :
  is_space a = false -> is_space b = false ->
  lstrip (replace a b s) = replace a b (lstrip s).
Proof.
  intros Ha Hb. induction s as [| c s IH]; [reflexivity |].
  cbn [replace lstrip]. destruct (Ascii.eqb_spec c a) as [-> | Hc].
  - rewrite Hb, Ha. cbn [replace]. now rewrite Ascii.eqb_refl.
  - destruct (is_space c); [exact IH |].
    cbn [replace]. destruct (Ascii.eqb_spec c a); [contradiction | reflexivity].
Qed.

Lemma rstrip_replace (a b : ascii) (s : string) :
  is_space a = false -> is_space b = false ->
  rstrip (replace a b s) = replace a b (rstrip s).
Proof.
  intros Ha Hb. induction s as [| c s IH]; [reflexivity |].
  cbn [replace rstrip]. rewrite IH.
  assert (Hc : is_space (if Ascii.eqb c a then b else c) = is_space c).
  { destruct (Ascii.eqb_spec c a) as [-> | _]; [now rewrite Ha, Hb | reflexivity]. }
  destruct (rstrip s) as [| c' r]; cbn [replace].
  - rewrite Hc. destruct (is_space c); reflexivity.
  - reflexivity.
Qed.

Lemma strip_replace (a b : ascii) (s : string) :
  is_space a = false -> is_space b = false ->
  strip (replace a b s) = replace a b (strip s).
Proof.
  intros Ha Hb. unfold strip.
  now rewrite lstrip_replace, rstrip_replace.
Qed.

Lemma replace_replace (a b : ascii) (s : string) :
  replace a b (replace b a s) = replace a b s
  /\ replace a b (replace a b s) = replace a b s.
Proof.
  induction s as [| c s [IH1 IH2]]; [split; reflexivity |].
  cbn [replace]. rewrite IH1, IH2. split; f_equal.
  - destruct (Ascii.eqb_spec c b) as [-> | Hcb].
    + rewrite Ascii.eqb_refl. now destruct (Ascii.eqb b a).
    + destruct (Ascii.eqb_spec c a); reflexivity.
  - destruct (Ascii.eqb_spec c a) as [-> | Hca].
    + now destruct (Ascii.eqb b a).
    + destruct (Ascii.eqb_spec c a); [contradiction | reflexivity].
Qed.

(** Whatever [must_clauses] returns is a run of clauses on the technical
    skills, a run on the soft skills and at most one clause on the
    experience. *)
Lemma must_clauses_shape (parsed : json) (must : list json) :
  must_clauses parsed = Returned must ->
  exists technical soft experience,
    must = map (match_clause "skills.technical_skills") technical
           ++ map (match_clause "skills.soft_skills") soft ++ experience
    /\ (experience = [] \/ exists v, experience = [range_clause v]).
Proof.
  intros H. destruct parsed as [| b | n | s | l | q]; try discriminate H.
  - exists [], [], []. unfold must_clauses in H. cbn [present contains] in H.
    destruct (occurs "skills" s); [discriminate H |]. cbn [bind] in H.
    destruct (occurs "total_experience" s); [discriminate H |].
    inversion H. split; [reflexivity | now left].
  - exists [], [], []. unfold must_clauses in H. cbn [present contains] in H.
    destruct (existsb (is_text "skills") l); [discriminate H |]. cbn [bind] in H.
    destruct (existsb (is_text "total_experience") l); [discriminate H |].
    inversion H. split; [reflexivity | now left].
  - assert (He : experience_clauses q = []
                 \/ exists v, experience_clauses q = [range_clause v]).
    { unfold experience_clauses. destruct (Dict.get "total_experience" q); eauto. }
    destruct (Dict.get "skills" q) as [skills |] eqn:Es.
    + destruct skills as [| | | | | skills];
        try (unfold must_clauses in H; cbn [present bind] in H; rewrite Es in H;
             discriminate H).
      destruct (iterate (default (JList []) (Dict.get "technical_skills" skills)))
        as [technical |] eqn:Et;
        [| unfold must_clauses, skill_clauses in H; cbn [present bind] in H;
           rewrite Es in H; cbn [bind] in H; rewrite Et in H; discriminate H].
      destruct (iterate (default (JList []) (Dict.get "soft_skills" skills)))
        as [soft |] eqn:Ef;
        [| unfold must_clauses, skill_clauses in H; cbn [present bind] in H;
           rewrite Es in H; cbn [bind] in H; rewrite Et, Ef in H; discriminate H].
      rewrite (must_clauses_with_skills q skills technical soft Es Et Ef) in H.
      inversion H. eauto.
    + rewrite (must_clauses_without_skills q Es) in H. inversion H.
      exists [], [], (experience_clauses q). eauto.
Qed.

End MoreQueryFacts.

Section MoreQuery.
Import Text Py Http Query.

(** X10.  For a parsed query that is an object whose [skills], if any, is
    an object holding lists: the [must] list of the Elasticsearch query
    has one match clause for each technical skill, then one for each soft
    skill, each in the order of its list, then the range clause on
    [total_experience] if the key is there, with the value as it stands.
    A list that is missing counts as empty, and so do skills that are
    missing. *)
Theorem query_clauses_in_order (q : list (string * json)) :
  (forall skills technical soft,
      Dict.get "skills" q = Some (JDict skills) ->
      default (JList []) (Dict.get "technical_skills" skills) = JList technical ->
      default (JList []) (Dict.get "soft_skills" skills) = JList soft ->
      generate_elasticsearch_query (JDict q)
      = Ok (elastic (map (match_clause "skills.technical_skills") technical
                     ++ map (match_clause "skills.soft_skills") soft
                     ++ experience_clauses q)))
  /\ (Dict.get "skills" q = None ->
      generate_elasticsearch_query (JDict q) = Ok (elastic (experience_clauses q))).
Proof.
  split.
  - intros skills technical soft Hs Ht Hf. unfold generate_elasticsearch_query.
    rewrite (must_clauses_with_skills q skills technical soft Hs);
      [reflexivity | now rewrite Ht | now rewrite Hf].
  - intros Hs. unfold generate_elasticsearch_query.
    now rewrite must_clauses_without_skills.
Qed.

Lemma query_clauses_in_order_witness :
  Dict.get "skills" sample_query = Some (JDict sample_skills)
  /\ default (JList []) (Dict.get "technical_skills" sample_skills)
     = JList [JStr "Python"; JStr "SQL"]
  /\ default (JList []) (Dict.get "soft_skills" sample_skills) = JList [JStr "teamwork"]
  /\ generate_elasticsearch_query (JDict sample_query)
     = Ok (elastic (map (match_clause "skills.technical_skills") [JStr "Python"; JStr "SQL"]
                    ++ map (match_clause "skills.soft_skills") [JStr "teamwork"]
                    ++ experience_clauses sample_query)).
Proof.
  assert (H1 : Dict.get "skills" sample_query = Some (JDict sample_skills)) by reflexivity.
  assert (H2 : default (JList []) (Dict.get "technical_skills" sample_skills)
               = JList [JStr "Python"; JStr "SQL"]) by reflexivity.
  assert (H3 : default (JList []) (Dict.get "soft_skills" sample_skills)
               = JList [JStr "teamwork"]) by reflexivity.
  split; [exact H1 |]. split; [exact H2 |]. split; [exact H3 |].
  exact (proj1 (query_clauses_in_order sample_query) sample_skills _ _ H1 H2 H3).
Defined.

(** X11.  Skills that are not an object make the function fail with
    status 500 on an [AttributeError]: a list of skills directly under
    [skills] is such a case.  Technical skills that are null, a truth
    value or a number make it fail with status 500 on a [TypeError]. *)
Theorem malformed_skills_fail (q : list (string * json)) :
  (forall v, Dict.get "skills" q = Some v -> Scoring.is_dict v = false ->
             generate_elasticsearch_query (JDict q)
             = HTTPException 500
                 (Wrapped "Error generating Elasticsearch query: " (Exn AttributeError)))
  /\ (forall skills v,
         Dict.get "skills" q = Some (JDict skills) ->
         Dict.get "technical_skills" skills = Some v ->
         v = JNull \/ (exists b, v = JBool b) \/ (exists n, v = JNum n) ->
         generate_elasticsearch_query (JDict q)
         = HTTPException 500
             (Wrapped "Error generating Elasticsearch query: " (Exn TypeError))).
Proof.
  split.
  - intros v Hs Hv. unfold generate_elasticsearch_query, must_clauses.
    cbn [present bind]. rewrite Hs.
    destruct v; try discriminate Hv; reflexivity.
  - intros skills v Hs Ht Hv. unfold generate_elasticsearch_query, must_clauses.
    cbn [present bind skill_clauses]. rewrite Hs. cbn [bind skill_clauses]. rewrite Ht.
    destruct Hv as [-> | [[b ->] | [n ->]]]; reflexivity.
Qed.

Lemma malformed_skills_fail_witness :
  Dict.get "skills" skills_as_list = Some (JList [JStr "Python"; JStr "SQL"])
  /\ Scoring.is_dict (JList [JStr "Python"; JStr "SQL"]) = false
  /\ generate_elasticsearch_query (JDict skills_as_list)
     = HTTPException 500
         (Wrapped "Error generating Elasticsearch query: " (Exn AttributeError)).
Proof.
  assert (H1 : Dict.get "skills" skills_as_list = Some (JList [JStr "Python"; JStr "SQL"]))
    by reflexivity.
  assert (H2 : Scoring.is_dict (JList [JStr "Python"; JStr "SQL"]) = false) by reflexivity.
  split; [exact H1 |]. split; [exact H2 |].
  exact (proj1 (malformed_skills_fail skills_as_list) _ H1 H2).
Defined.



(** X13.  A parsed query that is not an object is not refused as such.
    A list, or a text, in which neither key name occurs gives the query
    without any clause; one in which a key name occurs (as an element of
    the list, as a part of the text) fails with status 500 on a
    [TypeError], and so do null, a truth value and a number. *)
Theorem query_that_is_not_an_object :
  (forall l, existsb (is_text "skills") l = false ->
             existsb (is_text "total_experience") l = false ->
             generate_elasticsearch_query (JList l) = Ok (elastic []))
  /\ (forall s, occurs "skills" s = false -> occurs "total_experience" s = false ->
                generate_elasticsearch_query (JStr s) = Ok (elastic []))
  /\ (forall l, existsb (is_text "skills") l = true
                \/ existsb (is_text "total_experience") l = true ->
                generate_elasticsearch_query (JList l)
                = HTTPException 500
                    (Wrapped "Error generating Elasticsearch query: " (Exn TypeError)))
  /\ (forall s, occurs "skills" s = true \/ occurs "total_experience" s = true ->
                generate_elasticsearch_query (JStr s)
                = HTTPException 500
                    (Wrapped "Error generating Elasticsearch query: " (Exn TypeError)))
  /\ (forall v, v = JNull \/ (exists b, v = JBool b) \/ (exists n, v = JNum n) ->
                generate_elasticsearch_query v
                = HTTPException 500
                    (Wrapped "Error generating Elasticsearch query: " (Exn TypeError))).
Proof.
  unfold generate_elasticsearch_query, must_clauses.
  split; [| split; [| split; [| split]]].
  - intros l H1 H2. cbn [present contains]. rewrite H1. cbn [bind]. rewrite H2. reflexivity.
  - intros s H1 H2. cbn [present contains]. rewrite H1. cbn [bind]. rewrite H2. reflexivity.
  - intros l H. cbn [present contains].
    destruct (existsb (is_text "skills") l); [reflexivity |].
    destruct H as [H | H]; [discriminate H |]. cbn [bind]. rewrite H. reflexivity.
  - intros s H. cbn [present contains].
    destruct (occurs "skills" s); [reflexivity |].
    destruct H as [H | H]; [discriminate H |]. cbn [bind]. rewrite H. reflexivity.
  - intros v [-> | [[b ->] | [n ->]]]; reflexivity.
Qed.

Lemma query_that_is_not_an_object_witness :
  existsb (is_text "skills") [JStr "Python"; JStr "SQL"] = false
  /\ existsb (is_text "total_experience") [JStr "Python"; JStr "SQL"] = false
  /\ generate_elasticsearch_query (JList [JStr "Python"; JStr "SQL"]) = Ok (elastic []).
Proof.
  assert (H1 : existsb (is_text "skills") [JStr "Python"; JStr "SQL"] = false)
    by reflexivity.
  assert (H2 : existsb (is_text "total_experience") [JStr "Python"; JStr "SQL"] = false)
    by reflexivity.
  split; [exact H1 |]. split; [exact H2 |].
  exact (proj1 query_that_is_not_an_object [JStr "Python"; JStr "SQL"] H1 H2).
Defined.

(** X14.  [parse_natural_query] cannot tell single from double quotes:
    writing every double quote of the model's reply as a single quote, or
    every single quote as a double quote, leaves its answer unchanged,
    whatever the parser.  The text handed to the parser never contains a
    single quote. *)
Theorem quotes_are_interchangeable (json_loads : string -> option json) (raw : string) :
  parse_natural_query json_loads (Content (replace Json.dquote "'" raw))
  = parse_natural_query json_loads (Content raw)
  /\ parse_natural_query json_loads (Content (replace "'" Json.dquote raw))
     = parse_natural_query json_loads (Content raw)
  /\ Coerce.no_single_quote (replace "'" Json.dquote (strip raw)) = true.
Proof.
  unfold parse_natural_query, Coerce.parsed_query.
  rewrite !strip_replace by reflexivity.
  destruct (replace_replace "'" Json.dquote (strip raw)) as [-> ->].
  repeat split.
  induction (strip raw) as [| c s IH]; [reflexivity |].
  cbn [replace Coerce.no_single_quote]. rewrite IH, andb_true_r.
  destruct (Ascii.eqb_spec c "'") as [-> | Hc]; [reflexivity |].
  destruct (Ascii.eqb_spec c "'"); [contradiction | reflexivity].
Qed.

(** X15.  When [process_query] answers, Elasticsearch gave the keys, the
    model replied with a text, [parsed_query] is what this text parses
    to once trimmed and with its single quotes replaced, [query_sent] is
    the first reading of the clock in ISO format, and the [must] list of
    [elastic_query] is made of match clauses on the technical skills,
    then match clauses on the soft skills, then at most one range
    clause.  When it fails, the status is 500. *)
Theorem process_query_answer (json_loads : string -> option json)
    (clock : nat -> datetime) (es : fetched) (api : json -> string -> completion)
    (query : string) :
  (forall p,
      process_query json_loads clock es api query = Ok p ->
      exists keys text technical soft experience,
        es = Keys keys
        /\ api keys query = Content text
        /\ Coerce.parsed_query json_loads text = Coerce.Parsed (p_parsed_query p)
        /\ p_query_sent p = isoformat (clock 0%nat)
        /\ p_elastic_query p
           = elastic (map (match_clause "skills.technical_skills") technical
                      ++ map (match_clause "skills.soft_skills") soft ++ experience)
        /\ (experience = [] \/ exists v, experience = [range_clause v]))
  /\ (status_of (process_query json_loads clock es api query) = 200
      \/ status_of (process_query json_loads clock es api query) = 500).
Proof.
  unfold process_query, fetch_json_structure, parse_natural_query,
    generate_elasticsearch_query.
  destruct es as [keys | message]; [| split; [discriminate | now right]].
  destruct (api keys query) as [text | |] eqn:Ea;
    try (split; [discriminate | now right]).
  destruct (Coerce.parsed_query json_loads text) as [parsed | f] eqn:Ep;
    [| split; [discriminate | now right]].
  destruct (must_clauses parsed) as [must |] eqn:Em;
    [| split; [discriminate | now right]].
  split; [| now left].
  intros p H. inversion H; subst p. cbn [p_parsed_query p_query_sent p_elastic_query].
  destruct (must_clauses_shape parsed must Em) as (technical & soft & experience & -> & Hx).
  exists keys, text, technical, soft, experience. repeat split; assumption.
Qed.

Lemma process_query_answer_witness :
  process_query Json.loads Records.sample_clock (Keys (JDict []))
    (fun _ _ => Content single_quoted_query) "Python, five years"
  = Ok sample_processed
  /\ exists keys text technical soft experience,
       Keys (JDict []) = Keys keys
       /\ (fun (_ : json) (_ : string) => Content single_quoted_query)
            keys "Python, five years" = Content text
       /\ Coerce.parsed_query Json.loads text
          = Coerce.Parsed (p_parsed_query sample_processed)
       /\ p_query_sent sample_processed = isoformat (Records.sample_clock 0%nat)
       /\ p_elastic_query sample_processed
          = elastic (map (match_clause "skills.technical_skills") technical
                     ++ map (match_clause "skills.soft_skills") soft ++ experience)
       /\ (experience = [] \/ exists v, experience = [range_clause v]).
Proof.
  assert (H : process_query Json.loads Records.sample_clock (Keys (JDict []))
                (fun _ _ => Content single_quoted_query) "Python, five years"
              = Ok sample_processed) by (vm_compute; reflexivity).
  split; [exact H |].
  exact (proj1 (process_query_answer Json.loads Records.sample_clock (Keys (JDict []))
                  (fun _ _ => Content single_quoted_query) "Python, five years")
           sample_processed H).
Defined.

End MoreQuery.

(** ** The match service *)

Section MoreMatchFacts.
Import Http Match Scoring Served.

Lemma items_loop_app (oracle : nat -> json -> reply) (c s : string) (a b : list json) :
  forall st cs ci,
    items_loop oracle c s (a ++ b) st cs ci
    = match items_loop oracle c s a st cs ci with
      | Done (st', cs', ci') => items_loop oracle c s b st' cs' ci'
      | Abort l status d => Abort l status d
      end.
Proof.
  induction a as [| item a IH]; intros st cs ci; [reflexivity |].
  cbn [app items_loop].
  destruct (oracle (calls st) item) as [match_data | detail].
  - destruct (key_of item); [| reflexivity].
    destruct match_data; try reflexivity.
    destruct (item_score_of _); [apply IH | reflexivity].
  - destruct (key_of item); [apply IH | reflexivity].
Qed.

(** The matcher is called once for every item that a loop goes through. *)
Lemma items_loop_calls (oracle : nat -> json -> reply) (c s : string) (items : list json) :
  forall st cs ci st' cs' ci',
    items_loop oracle c s items st cs ci = Done (st', cs', ci') ->
    calls st' = (calls st + length items)%nat.
Proof.
  induction items as [| item items IH]; intros st cs ci st' cs' ci' H.
  - inversion H; subst. cbn [length]. lia.
  - cbn [items_loop] in H.
    destruct (oracle (calls st) item) as [match_data | detail].
    + destruct (key_of item); [| discriminate H].
      destruct match_data; try discriminate H.
      destruct (item_score_of _); [| discriminate H].
      apply IH in H. cbn [calls length] in *. lia.
    + destruct (key_of item); [| discriminate H].
      apply IH in H. cbn [calls length] in *. lia.
Qed.

Lemma subcategories_loop_calls (oracle : nat -> json -> reply) (c : string)
    (subcategories : list (string * json)) :
  forall st cs ci st' cs' ci',
    subcategories_loop oracle c subcategories st cs ci = Done (st', cs', ci') ->
    calls st' = (calls st + length (category_items subcategories))%nat.
Proof.
  induction subcategories as [| [name v] rest IH]; intros st cs ci st' cs' ci' H.
  - inversion H; subst. cbn. lia.
  - destruct v as [| | | | items |]; try discriminate H.
    cbn [subcategories_loop] in H.
    destruct (items_loop oracle c name items _ cs ci) as [[[st1 cs1] ci1] | l status d] eqn:Ei;
      [| discriminate H].
    apply items_loop_calls in Ei. apply IH in H. cbn [calls] in Ei.
    unfold category_items in *. cbn [flat_map snd items_of]. rewrite length_app. lia.
Qed.

Lemma categories_loop_calls (oracle : nat -> json -> reply)
    (categories : list (string * json)) :
  forall st st',
    categories_loop oracle categories st = Done st' ->
    calls st' = (calls st + length (all_items categories))%nat.
Proof.
  induction categories as [| [name v] rest IH]; intros st st' H.
  - inversion H; subst. cbn. lia.
  - destruct v as [| | | | | subcategories];
      try (cbn [categories_loop] in H; apply IH in H; cbn [calls] in H;
           rewrite all_items_other by reflexivity; exact H).
    cbn [categories_loop] in H.
    destruct (subcategories_loop oracle name subcategories _ 0%Q 0)
      as [[[st1 cs1] ci1] | l status d] eqn:Es; [| discriminate H].
    apply subcategories_loop_calls in Es. apply IH in H. cbn [calls] in Es.
    unfold all_items in *. cbn [flat_map snd subcategories_of]. rewrite length_app.
    destruct (0 <? ci1); cbn [calls] in H; lia.
Qed.

(** A request that is in order up to one item, at which the loop over
    the items aborts. *)
Lemma endpoint_abort_at_item (oracle : nat -> json -> reply)
    (before : list (string * json)) (cat : string) (sbefore : list (string * json))
    (sub : string) (ibefore : list json) (item : json) (later : list json)
    (safter after : list (string * json)) (resume_details : json) (d : detail) :
  truthy resume_details = true ->
  request_ok oracle 0 before = true ->
  subcategories_ok oracle (length (all_items before)) sbefore = true ->
  items_ok oracle (length (all_items before) + length (category_items sbefore)) ibefore
  = true ->
  (forall st cs ci,
      calls st = (length (all_items before) + length (category_items sbefore)
                  + length ibefore)%nat ->
      exists l, items_loop oracle cat sub (item :: later) st cs ci = Abort l 500 d) ->
  fst (unified_match_endpoint oracle
         (JDict (before
                 ++ (cat, JDict (sbefore ++ (sub, JList (ibefore ++ item :: later)) :: safter))
                 :: after))
         resume_details)
  = HTTPException 500 d.
Proof.
  intros Hres Hbefore Hsbefore Hibefore Habort. unfold unified_match_endpoint.
  assert (Ht : truthy (JDict (before
                              ++ (cat, JDict (sbefore
                                              ++ (sub, JList (ibefore ++ item :: later))
                                              :: safter)) :: after)) = true)
    by (destruct before; reflexivity).
  rewrite Ht, Hres. cbn [negb orb].
  rewrite categories_loop_app.
  pose proof (categories_loop_cases oracle before initial) as Hb.
  cbn [calls initial] in Hb. rewrite Hbefore in Hb. rewrite Hb.
  cbn [categories_loop]. rewrite subcategories_loop_app.
  match goal with
  | |- context [subcategories_loop oracle cat sbefore ?st1 ?cs ?ci] =>
      pose proof (subcategories_loop_cases oracle cat sbefore st1 cs ci ∅
                    (matching_results (final_state oracle before initial)) eq_refl) as Hs
  end.
  unfold final_state, initial in Hs.
  cbn [calls matching_results category_scores total_score total_items logged app
         Nat.add] in Hs.
  rewrite Hsbefore in Hs.
  unfold final_state, initial.
  cbn [calls matching_results category_scores total_score total_items logged app
         Nat.add].
  rewrite Hs. cbn [subcategories_loop].
  cbn [calls matching_results category_scores total_score total_items logged].
  rewrite lookup_total_insert_eq, insert_insert_eq, items_loop_app.
  match goal with
  | |- context [items_loop oracle cat sub ibefore ?st2 ?cs ?ci] =>
      pose proof (items_loop_cases oracle cat sub ibefore st2 cs ci
                    (category_results oracle (length (all_items before)) sbefore ∅) ∅
                    (reference_results oracle 0 before ∅) eq_refl) as Hi
  end.
  cbn [calls matching_results category_scores total_score total_items logged] in Hi.
  rewrite Hibefore in Hi. rewrite Hi.
  match goal with
  | |- context [items_loop oracle cat sub (item :: later) ?st3 ?cs ?ci] =>
      destruct (Habort st3 cs ci eq_refl) as [l ->]
  end.
  reflexivity.
Qed.

Lemma level_score_values (level : string) :
  (level = "Full match" /\ level_score level = 1%Q)
  \/ (level <> "Full match" /\ level_score level = (1 # 2)%Q)
  \/ (level <> "Full match" /\ level_score level = 0%Q).
Proof.
  unfold level_score.
  destruct (String.eqb_spec level "Full match") as [-> | Hf]; [now left |].
  right. destruct (String.eqb level "Partial match"); [now left |].
  right. destruct (String.eqb level "No match"), (String.eqb level "Error"); now split.
Qed.

Lemma outcome_score_bounds (v : json) :
  (0 <= outcome_score v)%Q /\ (outcome_score v <= 1)%Q.
Proof.
  destruct v as [| | | | | d]; cbn [outcome_score]; try (split; discriminate).
  destruct (level_of d) as [| | | level | |]; try (split; discriminate).
  destruct (level_score_values level) as [[_ ->] | [[_ ->] | [_ ->]]]; split; discriminate.
Qed.

Lemma outcome_score_full (v : json) :
  (outcome_score v == 1)%Q <-> exists d, v = JDict d /\ level_of d = JStr "Full match".
Proof.
  split.
  - destruct v as [| | | | | d]; cbn [outcome_score]; try discriminate.
    destruct (level_of d) as [| | | level | |] eqn:El; try discriminate.
    destruct (level_score_values level) as [[-> _] | [[_ ->] | [_ ->]]];
      [eauto | discriminate | discriminate].
  - intros (d & -> & El). cbn [outcome_score]. rewrite El. reflexivity.
Qed.

Lemma counted_scores_bounds (rs : list reply) :
  Forall (fun q => (0 <= q)%Q /\ (q <= 1)%Q) (counted_scores rs).
Proof.
  induction rs as [| [v | detail] rs IH]; cbn [counted_scores];
    [constructor | constructor; [apply outcome_score_bounds | exact IH] | exact IH].
Qed.

Lemma sum_bounds (l : list Q) :
  Forall (fun q => (0 <= q)%Q /\ (q <= 1)%Q) l ->
  forall a, (a <= fold_left Qplus l a)%Q
            /\ (fold_left Qplus l a <= a + inject_Z (Z.of_nat (length l)))%Q.
Proof.
  induction 1 as [| q l [Hq0 Hq1] _ IH]; intros a.
  - cbn [fold_left length]. change (inject_Z (Z.of_nat 0)) with 0%Q. split; lra.
  - cbn [fold_left length]. destruct (IH (a + q)%Q) as [H1 H2].
    rewrite Nat2Z.inj_succ, <- Z.add_1_r, inject_Z_plus.
    change (inject_Z 1) with 1%Q. split; lra.
Qed.

Lemma sum_full (l : list Q) :
  Forall (fun q => (0 <= q)%Q /\ (q <= 1)%Q) l ->
  forall a, (fold_left Qplus l a == a + inject_Z (Z.of_nat (length l)))%Q
            <-> Forall (fun q => (q == 1)%Q) l.
Proof.
  induction 1 as [| q l [Hq0 Hq1] Hl IH]; intros a.
  - cbn [fold_left length]. change (inject_Z (Z.of_nat 0)) with 0%Q.
    split; [constructor | intros _; lra].
  - cbn [fold_left length]. destruct (sum_bounds l Hl (a + q)%Q) as [H1 H2].
    rewrite Nat2Z.inj_succ, <- Z.add_1_r, inject_Z_plus.
    change (inject_Z 1) with 1%Q. split.
    + intros E. assert (Hq : (q == 1)%Q) by lra.
      constructor; [exact Hq |]. apply (IH (a + q)%Q). lra.
    + intros Hall. inversion Hall as [| ? ? Hq Hrest]; subst.
      apply (IH (a + q)%Q) in Hrest. lra.
Qed.

Lemma length_positive (l : list Q) :
  l <> [] -> (0 < inject_Z (Z.of_nat (length l)))%Q.
Proof.
  intros Hl. destruct l as [| q l]; [congruence |].
  cbn [length]. rewrite Nat2Z.inj_succ. unfold Qlt, inject_Z. simpl. lia.
Qed.

Lemma mean_bounds (l : list Q) :
  l <> [] -> Forall (fun q => (0 <= q)%Q /\ (q <= 1)%Q) l ->
  (0 <= mean l)%Q /\ (mean l <= 1)%Q.
Proof.
  intros Hne Hl. pose proof (length_positive l Hne) as Hpos.
  destruct (sum_bounds l Hl 0%Q) as [H1 H2]. unfold mean, sum. split.
  - apply Qle_shift_div_l; [exact Hpos | lra].
  - apply Qle_shift_div_r; [exact Hpos | lra].
Qed.

Lemma mean_full (l : list Q) :
  l <> [] -> Forall (fun q => (0 <= q)%Q /\ (q <= 1)%Q) l ->
  (mean l == 1)%Q <-> Forall (fun q => (q == 1)%Q) l.
Proof.
  intros Hne Hl. pose proof (length_positive l Hne) as Hpos.
  rewrite <- (sum_full l Hl 0%Q). unfold mean, sum.
  set (s := fold_left Qplus l 0%Q). set (n := inject_Z (Z.of_nat (length l))) in *.
  split; intros E.
  - assert (Hs : (s == s / n * n)%Q) by (field; lra).
    rewrite Hs, E. ring.
  - rewrite E. field. lra.
Qed.

(** A category score is the mean of the counted scores of a category. *)
Lemma fold_add_category_some (per_category : list (string * list Q)) :
  forall (m : gmap string Q) (name : string) (q : Q),
    fold_left add_category_score per_category m !! name = Some q ->
    m !! name = Some q
    \/ exists scores, scores <> [] /\ In (name, scores) per_category /\ q = mean scores.
Proof.
  induction per_category as [| [n scores] rest IH]; intros m name q H; [now left |].
  cbn [fold_left] in H. apply IH in H. destruct H as [H | (sc & Hne & Hin & ->)].
  - unfold add_category_score in H. cbn [fst snd] in H.
    destruct scores as [| x scores]; [now left |].
    destruct (decide (n = name)) as [-> | Hn].
    + rewrite lookup_insert_eq in H. inversion H. right.
      exists (x :: scores). split; [discriminate | split; [now left | reflexivity]].
    + rewrite lookup_insert_ne in H by exact Hn. now left.
  - right. exists sc. split; [exact Hne | split; [now right | reflexivity]].
Qed.

Lemma scored_categories_bounded (oracle : nat -> json -> reply)
    (categories : list (string * json)) :
  forall n name scores,
    In (name, scores) (scored_categories oracle n categories) ->
    Forall (fun q => (0 <= q)%Q /\ (q <= 1)%Q) scores.
Proof.
  induction categories as [| [c v] rest IH]; intros n name scores H; [destruct H |].
  destruct v as [| | | | | subcategories]; cbn [scored_categories] in H;
    try (eapply IH; exact H).
  destruct H as [H | H]; [| eapply IH; exact H].
  inversion H. apply counted_scores_bounds.
Qed.

(** The status of the answer, by the two parts of the body. *)
Lemma endpoint_status (oracle : nat -> json -> reply)
    (job_description_details resume_details : json) :
  status (fst (unified_match_endpoint oracle job_description_details resume_details))
  = if negb (truthy job_description_details) || negb (truthy resume_details) then 400
    else match job_description_details with
         | JDict categories => if request_ok oracle 0 categories then 200 else 500
         | _ => 500
         end.
Proof.
  destruct (negb (truthy job_description_details) || negb (truthy resume_details)) eqn:Hf.
  - unfold unified_match_endpoint. rewrite Hf. reflexivity.
  - apply orb_false_iff in Hf. destruct Hf as [Hj Hr].
    apply negb_false_iff in Hj, Hr.
    destruct job_description_details as [| | | | | categories];
      try (unfold unified_match_endpoint; rewrite Hj, Hr; reflexivity).
    assert (Hne : categories <> []) by (destruct categories; [discriminate Hj | discriminate]).
    pose proof (endpoint_cases oracle categories resume_details Hne Hr) as H.
    destruct (request_ok oracle 0 categories).
    + rewrite H. reflexivity.
    + destruct H as (l & d & ->). reflexivity.
Qed.

Lemma counted_scores_nonempty (rs : list reply) :
  counted_scores rs <> [] <-> exists r, In r rs /\ returned r = true.
Proof.
  induction rs as [| [v | detail] rs IH]; cbn [counted_scores].
  - split; [congruence | intros (r & [] & _)].
  - split; [| discriminate]. intros _. exists (Matched v). split; [now left | reflexivity].
  - rewrite IH. split.
    + intros (r & Hin & Hr). exists r. split; [now right | exact Hr].
    + intros (r & [<- | Hin] & Hr); [discriminate Hr | eauto].
Qed.

Lemma counted_scores_full (rs : list reply) :
  Forall (fun q => (q == 1)%Q) (counted_scores rs)
  <-> Forall (fun r => match r with
                       | Matched v => exists d, v = JDict d /\ level_of d = JStr "Full match"
                       | Failed _ => True
                       end) rs.
Proof.
  induction rs as [| [v | detail] rs IH]; cbn [counted_scores].
  - split; constructor.
  - split; intros H; inversion H; subst; constructor;
      try (apply outcome_score_full; assumption); apply IH; assumption.
  - split; intros H.
    + constructor; [exact I | now apply IH].
    + inversion H; subst. now apply IH.
Qed.

Lemma items_ok_pointwise (oracle : nat -> json -> reply) (items : list json) :
  forallb hashable items = true ->
  (forall k item, reply_ok (oracle k item) = true) ->
  forall n, items_ok oracle n items = true.
Proof.
  intros Hh Hr. induction items as [| item items IH]; intros n; [reflexivity |].
  cbn [forallb] in Hh. apply andb_true_iff in Hh. destruct Hh as [Hitem Hrest].
  rewrite items_ok_cons, Hitem, Hr, IH by exact Hrest. reflexivity.
Qed.

Lemma match_item_reply_ok (json_loads : string -> option json) (reply : completion) :
  (forall text v, reply = Content text -> json_loads (Text.strip text) = Some v ->
                  exists d, v = JDict d /\ hashable (level_of d) = true) ->
  reply_ok (match_item json_loads reply) = true.
Proof.
  intros H. destruct reply as [text | message | message]; try reflexivity.
  unfold match_item. destruct (String.eqb (Text.strip text) EmptyString); [reflexivity |].
  destruct (json_loads (Text.strip text)) as [v |] eqn:El; [| reflexivity].
  destruct (H text v eq_refl El) as (d & -> & Hd).
  cbn [reply_ok]. unfold hashable in Hd.
  destruct (level_of d); try discriminate Hd; reflexivity.
Qed.

Lemma scored_categories_are_objects (oracle : nat -> json -> reply)
    (categories : list (string * json)) :
  forall n name scores,
    In (name, scores) (scored_categories oracle n categories) ->
    exists subcategories, In (name, JDict subcategories) categories.
Proof.
  induction categories as [| [c v] rest IH]; intros n name scores H; [destruct H |].
  destruct v as [| | | | | subcategories]; cbn [scored_categories] in H;
    try (destruct (IH _ _ _ H) as [subs Hin]; exists subs; now right).
  destruct H as [H | H].
  - inversion H; subst. exists subcategories. now left.
  - destruct (IH _ _ _ H) as [subs Hin]. exists subs. now right.
Qed.

Lemma reference_results_has (oracle : nat -> json -> reply)
    (categories : list (string * json)) (name : string) :
  forall n R,
    (exists subcategories, In (name, JDict subcategories) categories)
    \/ is_Some (R !! name) ->
    is_Some (reference_results oracle n categories R !! name).
Proof.
  induction categories as [| [c v] rest IH]; intros n R H.
  - destruct H as [[subs []] | H]; exact H.
  - assert (Hskip : is_dict v = false ->
                    is_Some (reference_results oracle n ((c, v) :: rest) R !! name)).
    { intros Hv. destruct v; try discriminate Hv; cbn [reference_results];
        apply IH; (destruct H as [[subs [Hin | Hin]] | H];
                   [inversion Hin | left; eauto | right; exact H]). }
    destruct v as [| | | | | subcategories]; try (apply Hskip; reflexivity).
    cbn [reference_results]. apply IH.
    destruct H as [[subs [Hin | Hin]] | H].
    + inversion Hin; subst. right. rewrite lookup_insert_eq. eauto.
    + left. eauto.
    + right. destruct (decide (c = name)) as [-> | Hc].
      * rewrite lookup_insert_eq. eauto.
      * rewrite lookup_insert_ne by exact Hc. exact H.
Qed.

End MoreMatchFacts.

Section MoreMatch.
Import Http Match Scoring Served.

(** X16.  The status of the answer to a match request, by its body.  It
    is 400 exactly when both parts can be read and one of them is empty
    or otherwise false (so an empty list of requirements gives 400, not
    the 500 of the type test that follows).  It is 200 only when both
    parts can be read, the resume is not empty and the requirements are
    an object that is not empty, whose categories that are objects hold
    lists of hashable items, every outcome returned for them being an
    object with a hashable level.  It is 500 when neither is the case,
    and it is never anything else than 200, 400 or 500. *)
Theorem match_request_status (oracle : nat -> json -> reply) (body : json) :
  (status (fst (match_request oracle body)) = 400
   <-> exists job_description_details resume_details,
      part "job_description" "parsed_data" body = Returned job_description_details
      /\ part "resume" "response" body = Returned resume_details
      /\ (truthy job_description_details = false \/ truthy resume_details = false))
  /\ (status (fst (match_request oracle body)) = 200
      -> exists categories resume_details,
         part "job_description" "parsed_data" body = Returned (JDict categories)
         /\ part "resume" "response" body = Returned resume_details
         /\ categories <> [] /\ truthy resume_details = true
         /\ request_ok oracle 0 categories = true)
  /\ (~ (exists job_description_details resume_details,
           part "job_description" "parsed_data" body = Returned job_description_details
           /\ part "resume" "response" body = Returned resume_details
           /\ (truthy job_description_details = false
               \/ truthy resume_details = false))
      -> ~ (exists categories resume_details,
              part "job_description" "parsed_data" body = Returned (JDict categories)
              /\ part "resume" "response" body = Returned resume_details
              /\ categories <> [] /\ truthy resume_details = true
              /\ request_ok oracle 0 categories = true)
      -> status (fst (match_request oracle body)) = 500)
  /\ (status (fst (match_request oracle body)) = 200
      \/ status (fst (match_request oracle body)) = 400
      \/ status (fst (match_request oracle body)) = 500).
Proof.
  assert (H400 :
    status (fst (match_request oracle body)) = 400
    <-> exists job_description_details resume_details,
        part "job_description" "parsed_data" body = Returned job_description_details
        /\ part "resume" "response" body = Returned resume_details
        /\ (truthy job_description_details = false \/ truthy resume_details = false)).
  { unfold match_request.
    destruct (part "job_description" "parsed_data" body) as [jd | e1].
    2: { cbn [fst status]. split; [discriminate | intros (? & ? & H & _); discriminate H]. }
    destruct (part "resume" "response" body) as [resume | e2].
    2: { cbn [fst status].
         split; [discriminate | intros (? & ? & _ & H & _); discriminate H]. }
    rewrite endpoint_status.
    destruct (truthy jd) eqn:Hj; destruct (truthy resume) eqn:Hr; cbn [negb orb];
      try (split; [intros _; exists jd, resume; auto | reflexivity]).
    split.
    - intros H. exfalso.
      destruct jd as [| | | | | categories]; try discriminate H.
      destruct (request_ok oracle 0 categories); discriminate H.
    - intros (a & b & Ea & Eb & Hf). inversion Ea; inversion Eb; subst.
      destruct Hf; congruence. }
  assert (H200 :
    status (fst (match_request oracle body)) = 200
    -> exists categories resume_details,
        part "job_description" "parsed_data" body = Returned (JDict categories)
        /\ part "resume" "response" body = Returned resume_details
        /\ categories <> [] /\ truthy resume_details = true
        /\ request_ok oracle 0 categories = true).
  { unfold match_request.
    destruct (part "job_description" "parsed_data" body) as [jd | e1];
      [| cbn [fst status]; discriminate].
    destruct (part "resume" "response" body) as [resume | e2];
      [| cbn [fst status]; discriminate].
    rewrite endpoint_status.
    destruct (truthy jd) eqn:Hj; destruct (truthy resume) eqn:Hr; cbn [negb orb];
      try discriminate.
    destruct jd as [| | | | | categories]; try discriminate.
    destruct (request_ok oracle 0 categories) eqn:Hok; [| discriminate].
    intros _. exists categories, resume.
    repeat split; try assumption.
    destruct categories; [discriminate Hj | discriminate]. }
  assert (Hthree : status (fst (match_request oracle body)) = 200
                   \/ status (fst (match_request oracle body)) = 400
                   \/ status (fst (match_request oracle body)) = 500).
  { unfold match_request.
    destruct (part "job_description" "parsed_data" body) as [jd | e1];
      [| cbn [fst status]; auto].
    destruct (part "resume" "response" body) as [resume | e2];
      [| cbn [fst status]; auto].
    rewrite endpoint_status.
    destruct (negb (truthy jd) || negb (truthy resume)); [auto |].
    destruct jd as [| | | | | categories]; auto.
    destruct (request_ok oracle 0 categories); auto. }
  split; [exact H400 |].
  split; [exact H200 |].
  split; [| exact Hthree].
  intros Hn400 Hn200.
  destruct Hthree as [H | [H | H]]; [| | exact H].
  - destruct (Hn200 (H200 H)).
  - destruct (Hn400 (proj1 H400 H)).
Qed.

Lemma match_request_status_witness :
  status (fst (match_request sample_oracle sample_body)) = 200
  /\ (exists categories resume_details,
         part "job_description" "parsed_data" sample_body = Returned (JDict categories)
         /\ part "resume" "response" sample_body = Returned resume_details
         /\ categories <> [] /\ truthy resume_details = true
         /\ request_ok sample_oracle 0 categories = true).
Proof.
  assert (H : status (fst (match_request sample_oracle sample_body)) = 200)
    by (vm_compute; reflexivity).
  split; [exact H |].
  exact (proj1 (proj2 (match_request_status sample_oracle sample_body)) H).
Defined.

(** X17.  A part that is missing from the body and a part that is there
    but is not an object are answered differently.  When
    [job_description] or [resume] is missing, and the other is missing
    too or is an object, the answer is the 400 for missing data.  When
    either of them is there and is not an object (null, say), the answer
    is a 500 on an [AttributeError]. *)
Theorem missing_part_400_other_part_500 (oracle : nat -> json -> reply)
    (b : list (string * json)) :
  (Dict.get "job_description" b = None \/ Dict.get "resume" b = None ->
   (forall v, Dict.get "job_description" b = Some v -> is_dict v = true) ->
   (forall v, Dict.get "resume" b = Some v -> is_dict v = true) ->
   fst (match_request oracle (JDict b))
   = HTTPException 400 (Text "Job description or resume data is missing."))
  /\ (forall v,
         Dict.get "job_description" b = Some v \/ Dict.get "resume" b = Some v ->
         is_dict v = false ->
         fst (match_request oracle (JDict b))
         = HTTPException 500 (ErrorDuringMatching AttributeError)).
Proof.
  unfold match_request, part. split.
  - intros Hmissing Hjd Hres.
    destruct (Dict.get "job_description" b) as [jd |] eqn:Ej;
      destruct (Dict.get "resume" b) as [res |] eqn:Er; cbn [default from_option id].
    + destruct Hmissing; discriminate.
    + specialize (Hjd jd eq_refl). destruct jd; try discriminate Hjd.
      unfold unified_match_endpoint. cbn [Dict.get default from_option id truthy negb].
      now rewrite orb_true_r.
    + specialize (Hres res eq_refl). destruct res; try discriminate Hres.
      reflexivity.
    + reflexivity.
  - intros v Hv Hdict.
    destruct (Dict.get "job_description" b) as [jd |] eqn:Ej; cbn [default from_option id].
    + destruct jd as [| | | | | o]; try reflexivity.
      destruct Hv as [Hv | Hv]; [inversion Hv; subst; discriminate Hdict |].
      rewrite Hv. cbn [default from_option id]. destruct v; try discriminate Hdict; reflexivity.
    + destruct Hv as [Hv | Hv]; [discriminate Hv |].
      rewrite Hv. cbn [default from_option id]. destruct v; try discriminate Hdict; reflexivity.
Qed.

Lemma missing_part_400_other_part_500_witness :
  Dict.get "resume" body_without_resume = None
  /\ fst (match_request sample_oracle (JDict body_without_resume))
     = HTTPException 400 (Text "Job description or resume data is missing.")
  /\ Dict.get "resume" body_with_null_resume = Some JNull
  /\ is_dict JNull = false
  /\ fst (match_request sample_oracle (JDict body_with_null_resume))
     = HTTPException 500 (ErrorDuringMatching AttributeError).
Proof.
  assert (H1 : Dict.get "resume" body_without_resume = None) by reflexivity.
  assert (H2 : forall v, Dict.get "job_description" body_without_resume = Some v ->
                         is_dict v = true).
  { intros v H. inversion H. reflexivity. }
  assert (H3 : forall v, Dict.get "resume" body_without_resume = Some v -> is_dict v = true).
  { intros v H. discriminate H. }
  assert (H4 : Dict.get "resume" body_with_null_resume = Some JNull) by reflexivity.
  assert (H5 : is_dict JNull = false) by reflexivity.
  split; [exact H1 |].
  split; [exact (proj1 (missing_part_400_other_part_500 sample_oracle body_without_resume)
                   (or_intror H1) H2 H3) |].
  split; [exact H4 |]. split; [exact H5 |].
  exact (proj2 (missing_part_400_other_part_500 sample_oracle body_with_null_resume)
           JNull (or_intror H4) H5).
Defined.

(** X18.  When the loop over the categories completes, the matcher has
    been called exactly once for every item of every category that is an
    object, repeated items included, and not at all for the categories
    that were skipped; the items counted in the scores are the calls that
    returned, so they are no more than the calls. *)
Theorem one_call_per_item (oracle : nat -> json -> reply)
    (categories : list (string * json)) (st : scoring) :
  categories_loop oracle categories initial = Done st ->
  calls st = length (all_items categories)
  /\ total_items st
     = Z.of_nat (length (counted_scores (replies oracle 0 (all_items categories))))
  /\ total_items st <= Z.of_nat (calls st).
Proof.
  intros H.
  pose proof (categories_loop_calls oracle categories initial st H) as Hcalls.
  cbn [calls initial Nat.add] in Hcalls.
  pose proof (categories_loop_cases oracle categories initial) as Hc.
  cbn [calls initial] in Hc.
  destruct (request_ok oracle 0 categories);
    [| destruct Hc as (l & d & Hc); congruence].
  rewrite Hc in H. inversion H as [Hst].
  unfold final_state. cbn [calls total_items initial].
  rewrite scored_categories_concat.
  split; [reflexivity |]. split; [lia |].
  pose proof (counted_scores_le (replies oracle 0 (all_items categories))) as Hle.
  rewrite replies_length in Hle. lia.
Qed.

Lemma one_call_per_item_witness :
  categories_loop improving_oracle repeated_requirements initial = Done repeated_state
  /\ calls repeated_state = length (all_items repeated_requirements)
  /\ total_items repeated_state
     = Z.of_nat (length (counted_scores
                           (replies improving_oracle 0 (all_items repeated_requirements))))
  /\ total_items repeated_state <= Z.of_nat (calls repeated_state).
Proof.
  assert (H : categories_loop improving_oracle repeated_requirements initial
              = Done repeated_state) by (vm_compute; reflexivity).
  split; [exact H |].
  exact (one_call_per_item improving_oracle repeated_requirements repeated_state H).
Defined.

(** X19.  In every success response the overall score and every
    category score lie between 0 and 1. *)
Theorem scores_between_0_and_1 (oracle : nat -> json -> reply)
    (job_description_details resume_details : json) (c : content)
    (log : list log_entry) :
  unified_match_endpoint oracle job_description_details resume_details
  = (JSONResponse c, log) ->
  ((0 <= c_overall_score c)%Q /\ (c_overall_score c <= 1)%Q)
  /\ (forall category q,
         c_category_scores c !! category = Some q -> (0 <= q)%Q /\ (q <= 1)%Q).
Proof.
  intros H. apply endpoint_success in H.
  destruct H as (categories & _ & _ & _ & _ & -> & _).
  cbn [c_overall_score c_category_scores]. split.
  - unfold reference_overall_score. rewrite scored_categories_concat.
    destruct (counted_scores (replies oracle 0 (all_items categories))) as [| q l] eqn:E;
      [split; discriminate |].
    rewrite <- E. apply mean_bounds; [rewrite E; discriminate |].
    apply counted_scores_bounds.
  - intros category q Hq. unfold reference_category_scores in Hq.
    apply fold_add_category_some in Hq.
    destruct Hq as [Hq | (scores & Hne & Hin & ->)]; [rewrite lookup_empty in Hq; discriminate |].
    apply mean_bounds; [exact Hne |].
    eapply scored_categories_bounded. exact Hin.
Qed.

Lemma scores_between_0_and_1_witness :
  unified_match_endpoint sample_oracle (JDict sample_requirements) sample_resume
  = (JSONResponse sample_content, [])
  /\ ((0 <= c_overall_score sample_content)%Q /\ (c_overall_score sample_content <= 1)%Q)
  /\ (forall category q,
         c_category_scores sample_content !! category = Some q ->
         (0 <= q)%Q /\ (q <= 1)%Q).
Proof.
  assert (H : unified_match_endpoint sample_oracle (JDict sample_requirements) sample_resume
              = (JSONResponse sample_content, [])) by (vm_compute; reflexivity).
  split; [exact H |].
  exact (scores_between_0_and_1 sample_oracle (JDict sample_requirements) sample_resume
           sample_content [] H).
Defined.

(** X20.  The overall score of a success response is 1 exactly when at
    least one call of the matcher returned and every call that returned
    gave the level "Full match", in these very letters.  Calls that
    failed do not lower it. *)
Theorem overall_score_1_iff_all_full (oracle : nat -> json -> reply)
    (categories : list (string * json)) (resume_details : json) (c : content)
    (log : list log_entry) :
  unified_match_endpoint oracle (JDict categories) resume_details
  = (JSONResponse c, log) ->
  ((c_overall_score c == 1)%Q
   <-> (exists r, In r (replies oracle 0 (all_items categories)) /\ returned r = true)
       /\ Forall (fun r => match r with
                           | Matched v =>
                               exists d, v = JDict d /\ level_of d = JStr "Full match"
                           | Failed _ => True
                           end)
            (replies oracle 0 (all_items categories))).
Proof.
  intros H. apply endpoint_success in H.
  destruct H as (categories' & E & _ & _ & _ & -> & _). inversion E; subst categories'.
  cbn [c_overall_score]. unfold reference_overall_score.
  rewrite scored_categories_concat.
  rewrite <- counted_scores_nonempty, <- counted_scores_full.
  destruct (counted_scores (replies oracle 0 (all_items categories))) as [| q l] eqn:Ec.
  - split; [discriminate | intros [Hne _]; congruence].
  - rewrite <- Ec. rewrite mean_full;
      [| rewrite Ec; discriminate | apply counted_scores_bounds].
    split; [intros Hall; split; [rewrite Ec; discriminate | exact Hall] | now intros [_ Hall]].
Qed.

Lemma overall_score_1_iff_all_full_witness :
  unified_match_endpoint failing_oracle (JDict sample_requirements) sample_resume
  = (JSONResponse failing_content, [ErrorMatchingItem (JStr "SQL") "OpenAI API error."])
  /\ ((c_overall_score failing_content == 1)%Q
      <-> (exists r, In r (replies failing_oracle 0 (all_items sample_requirements))
                     /\ returned r = true)
          /\ Forall (fun r => match r with
                              | Matched v =>
                                  exists d, v = JDict d /\ level_of d = JStr "Full match"
                              | Failed _ => True
                              end)
               (replies failing_oracle 0 (all_items sample_requirements))).
Proof.
  assert (H : unified_match_endpoint failing_oracle (JDict sample_requirements) sample_resume
              = (JSONResponse failing_content,
                 [ErrorMatchingItem (JStr "SQL") "OpenAI API error."]))
    by (vm_compute; reflexivity).
  split; [exact H |].
  exact (overall_score_1_iff_all_full failing_oracle sample_requirements sample_resume
           failing_content _ H).
Defined.

(** X21.  A reply of the model that is JSON but not an object (a text in
    quotes, a list, a number) is returned by [match_item] as it is, and
    the lookup of its level then aborts the whole request with status 500
    on an [AttributeError], whereas a reply that is not JSON at all only
    costs its item an "Error" entry.  The request is in order up to the
    item. *)
Theorem non_object_reply_aborts (json_loads : string -> option json)
    (api : nat -> json -> completion)
    (before : list (string * json)) (cat : string) (sbefore : list (string * json))
    (sub : string) (ibefore : list json) (item : json) (later : list json)
    (safter after : list (string * json)) (resume_details : json)
    (text : string) (v : json) :
  truthy resume_details = true ->
  request_ok (matcher json_loads api) 0 before = true ->
  subcategories_ok (matcher json_loads api) (length (all_items before)) sbefore = true ->
  items_ok (matcher json_loads api)
    (length (all_items before) + length (category_items sbefore)) ibefore = true ->
  hashable item = true ->
  api (length (all_items before) + length (category_items sbefore) + length ibefore)%nat item
  = Content text ->
  Text.strip text <> EmptyString ->
  json_loads (Text.strip text) = Some v ->
  is_dict v = false ->
  match_item json_loads (Content text) = Matched v
  /\ fst (unified_match_endpoint (matcher json_loads api)
            (JDict (before
                    ++ (cat, JDict (sbefore
                                    ++ (sub, JList (ibefore ++ item :: later)) :: safter))
                    :: after))
            resume_details)
     = HTTPException 500 (ErrorDuringMatching AttributeError).
Proof.
  intros Hres Hbefore Hsbefore Hibefore Hitem Hapi Hne Hloads Hv.
  assert (Hm : match_item json_loads (Content text) = Matched v).
  { unfold match_item. rewrite Hloads.
    destruct (String.eqb_spec (Text.strip text) EmptyString); [contradiction | reflexivity]. }
  split; [exact Hm |].
  apply endpoint_abort_at_item; try assumption.
  intros st cs ci Hcalls. cbn [items_loop]. unfold matcher at 1.
  rewrite Hcalls, Hapi, Hm.
  unfold hashable in Hitem. destruct (key_of item); [| discriminate Hitem].
  destruct v; try discriminate Hv; eauto.
Qed.

Lemma non_object_reply_aborts_witness :
  truthy sample_resume = true
  /\ request_ok (matcher Json.loads bare_text_api) 0 [] = true
  /\ subcategories_ok (matcher Json.loads bare_text_api) (length (all_items [])) [] = true
  /\ items_ok (matcher Json.loads bare_text_api)
       (length (all_items []) + length (category_items [])) [JStr "Python"] = true
  /\ hashable (JStr "SQL") = true
  /\ bare_text_api (length (all_items []) + length (category_items [])
                    + length [JStr "Python"])%nat (JStr "SQL")
     = Content (Json.quoted "Full match")
  /\ Text.strip (Json.quoted "Full match") <> EmptyString
  /\ Json.loads (Text.strip (Json.quoted "Full match")) = Some (JStr "Full match")
  /\ is_dict (JStr "Full match") = false
  /\ fst (unified_match_endpoint (matcher Json.loads bare_text_api)
            (JDict ([] ++ ("Skills",
                           JDict ([] ++ ("Core", JList ([JStr "Python"] ++ JStr "SQL" :: []))
                                  :: [])) :: []))
            sample_resume)
     = HTTPException 500 (ErrorDuringMatching AttributeError).
Proof.
  assert (H1 : truthy sample_resume = true) by reflexivity.
  assert (H2 : request_ok (matcher Json.loads bare_text_api) 0 [] = true) by reflexivity.
  assert (H3 : subcategories_ok (matcher Json.loads bare_text_api) (length (all_items [])) []
               = true) by reflexivity.
  assert (H4 : items_ok (matcher Json.loads bare_text_api)
                 (length (all_items []) + length (category_items [])) [JStr "Python"]
               = true) by (vm_compute; reflexivity).
  assert (H5 : hashable (JStr "SQL") = true) by reflexivity.
  assert (H6 : bare_text_api (length (all_items []) + length (category_items [])
                              + length [JStr "Python"])%nat (JStr "SQL")
               = Content (Json.quoted "Full match")) by reflexivity.
  assert (H7 : Text.strip (Json.quoted "Full match") <> EmptyString)
    by (vm_compute; discriminate).
  assert (H8 : Json.loads (Text.strip (Json.quoted "Full match")) = Some (JStr "Full match"))
    by (vm_compute; reflexivity).
  assert (H9 : is_dict (JStr "Full match") = false) by reflexivity.
  repeat (split; [assumption |]).
  exact (proj2 (non_object_reply_aborts Json.loads bare_text_api [] "Skills" [] "Core"
                  [JStr "Python"] (JStr "SQL") [] [] [] sample_resume
                  (Json.quoted "Full match") (JStr "Full match")
                  H1 H2 H3 H4 H5 H6 H7 H8 H9)).
Defined.

(** X22.  An item that is itself a list or an object cannot be a key of
    the results: the request is aborted with status 500 on a
    [TypeError] when the loop reaches it, whatever the matcher answers
    for it.  The request is in order up to the item. *)
Theorem unhashable_item_aborts (oracle : nat -> json -> reply)
    (before : list (string * json)) (cat : string) (sbefore : list (string * json))
    (sub : string) (ibefore : list json) (item : json) (later : list json)
    (safter after : list (string * json)) (resume_details : json) :
  truthy resume_details = true ->
  request_ok oracle 0 before = true ->
  subcategories_ok oracle (length (all_items before)) sbefore = true ->
  items_ok oracle (length (all_items before) + length (category_items sbefore)) ibefore
  = true ->
  hashable item = false ->
  fst (unified_match_endpoint oracle
         (JDict (before
                 ++ (cat, JDict (sbefore ++ (sub, JList (ibefore ++ item :: later)) :: safter))
                 :: after))
         resume_details)
  = HTTPException 500 (ErrorDuringMatching TypeError).
Proof.
  intros Hres Hbefore Hsbefore Hibefore Hitem.
  apply endpoint_abort_at_item; try assumption.
  intros st cs ci _. cbn [items_loop].
  unfold hashable in Hitem. destruct (key_of item); [discriminate Hitem |].
  destruct (oracle (calls st) item); eauto.
Qed.

Lemma unhashable_item_aborts_witness :
  truthy sample_resume = true
  /\ request_ok sample_oracle 0 [] = true
  /\ subcategories_ok sample_oracle (length (all_items [])) [] = true
  /\ items_ok sample_oracle (length (all_items []) + length (category_items []))
       [JStr "Python"] = true
  /\ hashable (JList [JStr "SQL"; JStr "NoSQL"]) = false
  /\ fst (unified_match_endpoint sample_oracle
            (JDict ([] ++ ("Skills",
                           JDict ([] ++ ("Core",
                                         JList ([JStr "Python"]
                                                ++ JList [JStr "SQL"; JStr "NoSQL"] :: []))
                                  :: [])) :: []))
            sample_resume)
     = HTTPException 500 (ErrorDuringMatching TypeError).
Proof.
  assert (H1 : truthy sample_resume = true) by reflexivity.
  assert (H2 : request_ok sample_oracle 0 [] = true) by reflexivity.
  assert (H3 : subcategories_ok sample_oracle (length (all_items [])) [] = true)
    by reflexivity.
  assert (H4 : items_ok sample_oracle (length (all_items []) + length (category_items []))
                 [JStr "Python"] = true) by reflexivity.
  assert (H5 : hashable (JList [JStr "SQL"; JStr "NoSQL"]) = false) by reflexivity.
  repeat (split; [assumption |]).
  exact (unhashable_item_aborts sample_oracle [] "Skills" [] "Core" [JStr "Python"]
           (JList [JStr "SQL"; JStr "NoSQL"]) [] [] [] sample_resume H1 H2 H3 H4 H5).
Defined.

(** X23.  The model cannot make the loops of a request stop except by
    replying with JSON of the wrong shape.  When the categories that are
    objects hold lists of hashable items, and every reply that parses as
    JSON is an object whose level, if any, is hashable, the loops run to
    their end, whatever else happens at the calls: errors of the API,
    empty replies and replies that are not JSON are all absorbed, one
    call is made for every item, and each failure is logged. *)
Theorem only_wrong_shaped_json_aborts (json_loads : string -> option json)
    (api : nat -> json -> completion) (categories : list (string * json)) :
  forallb (fun entry => forallb (fun sub => is_list (snd sub)) (subcategories_of (snd entry)))
    categories = true ->
  forallb hashable (all_items categories) = true ->
  (forall n item text v,
      api n item = Content text -> json_loads (Text.strip text) = Some v ->
      exists d, v = JDict d /\ hashable (level_of d) = true) ->
  exists st,
    categories_loop (matcher json_loads api) categories initial = Done st
    /\ calls st = length (all_items categories)
    /\ logged st = reference_log (matcher json_loads api) 0 categories
    /\ total_items st
       = Z.of_nat (length (counted_scores
                             (replies (matcher json_loads api) 0 (all_items categories)))).
Proof.
  intros Hshape Hitems Hreplies.
  pose proof (categories_loop_cases (matcher json_loads api) categories initial) as H.
  cbn [calls initial] in H.
  assert (Hok : request_ok (matcher json_loads api) 0 categories = true).
  { unfold request_ok. rewrite Hshape. cbn [andb].
    apply items_ok_pointwise; [exact Hitems |].
    intros k item. unfold matcher. apply match_item_reply_ok.
    intros text v. apply Hreplies. }
  rewrite Hok in H.
  exists (final_state (matcher json_loads api) categories initial).
  split; [exact H |].
  unfold final_state. cbn [calls logged total_items initial app].
  split; [reflexivity |]. split; [reflexivity |].
  rewrite scored_categories_concat. lia.
Qed.

Lemma only_wrong_shaped_json_aborts_witness :
  forallb (fun entry => forallb (fun sub => is_list (snd sub))
                          (subcategories_of (snd entry)))
    sample_requirements = true
  /\ forallb hashable (all_items sample_requirements) = true
  /\ (forall n item text v,
         flaky_api n item = Content text -> Json.loads (Text.strip text) = Some v ->
         exists d, v = JDict d /\ hashable (level_of d) = true)
  /\ exists st,
       categories_loop (matcher Json.loads flaky_api) sample_requirements initial = Done st
       /\ calls st = length (all_items sample_requirements)
       /\ logged st = reference_log (matcher Json.loads flaky_api) 0 sample_requirements
       /\ total_items st
          = Z.of_nat (length (counted_scores
                                (replies (matcher Json.loads flaky_api) 0
                                   (all_items sample_requirements)))).
Proof.
  assert (H3 : forallb (fun entry => forallb (fun sub => is_list (snd sub))
                                       (subcategories_of (snd entry)))
                 sample_requirements = true) by reflexivity.
  assert (H4 : forallb hashable (all_items sample_requirements) = true) by reflexivity.
  assert (H5 : forall n item text v,
             flaky_api n item = Content text -> Json.loads (Text.strip text) = Some v ->
             exists d, v = JDict d /\ hashable (level_of d) = true).
  { intros n item text v Ha El.
    destruct n as [| [| [| [| n]]]]; cbn [flaky_api] in Ha; inversion Ha; subst text;
      vm_compute in El; inversion El; subst v; eexists; split; reflexivity. }
  repeat (split; [assumption |]).
  exact (only_wrong_shaped_json_aborts Json.loads flaky_api sample_requirements H3 H4 H5).
Defined.

(** X24.  In a success response every category that has a score has its
    entry in the tree of results. *)
Theorem scored_category_has_results (oracle : nat -> json -> reply)
    (job_description_details resume_details : json) (c : content)
    (log : list log_entry) :
  unified_match_endpoint oracle job_description_details resume_details
  = (JSONResponse c, log) ->
  forall category q,
    c_category_scores c !! category = Some q ->
    is_Some (c_matching_results c !! category).
Proof.
  intros H. apply endpoint_success in H.
  destruct H as (categories & _ & _ & _ & _ & -> & _).
  cbn [c_category_scores c_matching_results]. intros category q Hq.
  unfold reference_category_scores in Hq. apply fold_add_category_some in Hq.
  destruct Hq as [Hq | (scores & _ & Hin & _)]; [rewrite lookup_empty in Hq; discriminate |].
  apply reference_results_has. left.
  eapply scored_categories_are_objects. exact Hin.
Qed.

Lemma scored_category_has_results_witness :
  unified_match_endpoint sample_oracle (JDict sample_requirements) sample_resume
  = (JSONResponse sample_content, [])
  /\ forall category q,
       c_category_scores sample_content !! category = Some q ->
       is_Some (c_matching_results sample_content !! category).
Proof.
  assert (H : unified_match_endpoint sample_oracle (JDict sample_requirements) sample_resume
              = (JSONResponse sample_content, [])) by (vm_compute; reflexivity).
  split; [exact H |].
  exact (scored_category_has_results sample_oracle (JDict sample_requirements)
           sample_resume sample_content [] H).
Defined.

(** X25.  The match service reads the resume under the key [response],
    while the content that [upload_resume] returns holds it under
    [gpt_response]: a body whose [resume] is that content as it stands
    is answered with the 400 for missing data, whatever the resume and
    the requirements are. *)
Theorem uploaded_content_reads_as_missing (oracle : nat -> json -> reply)
    (b job_description gpt_insights : list (string * json)) :
  Dict.get "job_description" b = Some (JDict job_description) ->
  Dict.get "resume" b = Some (Resume.upload_content gpt_insights) ->
  part "resume" "response" (JDict b) = Returned (JDict [])
  /\ fst (match_request oracle (JDict b))
     = HTTPException 400 (Text "Job description or resume data is missing.").
Proof.
  intros Hjd Hres. unfold match_request, part. rewrite Hjd, Hres.
  cbn [default from_option id Resume.upload_content Dict.get String.eqb Ascii.eqb
         Bool.eqb].
  split; [reflexivity |].
  unfold unified_match_endpoint. cbn [truthy negb]. now rewrite orb_true_r.
Qed.

Lemma uploaded_content_reads_as_missing_witness :
  Dict.get "job_description" body_with_upload
  = Some (JDict [ ("parsed_data", JDict sample_requirements) ])
  /\ Dict.get "resume" body_with_upload
     = Some (Resume.upload_content Resume.sample_insights)
  /\ fst (match_request sample_oracle (JDict body_with_upload))
     = HTTPException 400 (Text "Job description or resume data is missing.").
Proof.
  assert (H1 : Dict.get "job_description" body_with_upload
               = Some (JDict [ ("parsed_data", JDict sample_requirements) ]))
    by reflexivity.
  assert (H2 : Dict.get "resume" body_with_upload
               = Some (Resume.upload_content Resume.sample_insights)) by reflexivity.
  split; [exact H1 |]. split; [exact H2 |].
  exact (proj2 (uploaded_content_reads_as_missing sample_oracle body_with_upload _ _ H1 H2)).
Defined.

End MoreMatch.

